(** * nervesparks: the retrieval-and-evaluation pipeline

    A shallow embedding of the JavaScript sources
      - [server/processors/documentProcessor.js]  (DocumentProcessor.createChunks),
      - [server/vector/vectorStore.js]            (VectorStore),
      - [server/rag/ragPipeline.js]               (RAGPipeline),
      - [server/evaluation/metrics.js]            (EvaluationMetrics),
    followed by the properties established about them.

    Modelling conventions.
      - A JavaScript string is a [string]: a sequence of code units below 256.
        [String.length] is [.length], [++] is [+].
      - A JavaScript number is an element of a type carrying the [Number]
        interface below.  Two instances are given: [Binary64], the IEEE 754
        doubles the program runs on (every definition evaluates on it), and
        [Exact], the real numbers, on which range and ordering properties are
        stated free of rounding, overflow and NaN.
      - A [Map] is an association list in insertion order; [Map.set] on a
        present key replaces the value in place and keeps the position.
      - An optional argument or property ([null], [undefined], absent) is
        [None]; [filters.minSimilarity], which is spread as well as read,
        tells the three apart ([VectorStore.Setting]).
      - [async] functions are modelled by the value they resolve to; logging
        and timestamps are left out. *)

From Stdlib Require Import List String Ascii Bool Arith ZArith Lia.
From Stdlib Require Import Reals Lra Floats DecimalString Sorted.
Import ListNotations.

Set Implicit Arguments.

(* ================================================================== *)
(** ** JavaScript strings *)

Module Js.

Local Open Scope string_scope.

Definition nl : string := String (ascii_of_nat 10) EmptyString.
Definition dquote : string := String (ascii_of_nat 34) EmptyString.

(** WhiteSpace and LineTerminator code units below 256: the class [\s] of a
    regular expression and what [trim] strips. *)
Definition isWhiteSpace (c : ascii) : bool :=
  let n := nat_of_ascii c in
  (((9 <=? n) && (n <=? 13)) || (n =? 32) || (n =? 160))%nat.

Definition toLowerCaseChar (c : ascii) : ascii :=
  let n := nat_of_ascii c in
  if (((65 <=? n) && (n <=? 90))
      || ((192 <=? n) && (n <=? 222) && negb (n =? 215)))%nat
  then ascii_of_nat (n + 32)%nat else c.

(** [s.toLowerCase()] *)
Fixpoint toLowerCase (s : string) : string :=
  match s with
  | EmptyString => EmptyString
  | String c s' => String (toLowerCaseChar c) (toLowerCase s')
  end.

Definition startsWithClass (p : ascii -> bool) (s : string) : bool :=
  match s with
  | EmptyString => false
  | String c _ => p c
  end.

(** [s.split(/[p]+/)]: the pieces between maximal runs of characters of the
    class [p]; never empty, and a run at either end leaves an empty piece. *)
Fixpoint splitRuns (p : ascii -> bool) (s : string) : list string :=
  match s with
  | EmptyString => [EmptyString]
  | String c s' =>
      let r := splitRuns p s' in
      if p c then (if startsWithClass p s' then r else EmptyString :: r)
      else match r with
           | h :: t => String c h :: t
           | [] => [String c EmptyString]
           end
  end.

(** [s.split(/\s+/)] *)
Definition splitWhitespace (s : string) : list string := splitRuns isWhiteSpace s.

(** [s.split(sep)] for a non-empty string [sep]: cut at the leftmost
    occurrences of [sep], which do not overlap.  [skip] counts the code units
    of an occurrence still to be passed over, [cur] is the piece being read. *)
Fixpoint splitGo (sep s : string) (skip : nat) (cur : string) : list string :=
  match s with
  | EmptyString => [cur]
  | String c s' =>
      match skip with
      | S k => splitGo sep s' k cur
      | O =>
          if String.prefix sep s
          then cur :: splitGo sep s' (String.length sep - 1)%nat EmptyString
          else splitGo sep s' 0%nat (cur ++ String c EmptyString)
      end
  end.

Definition split (sep s : string) : list string := splitGo sep s 0%nat EmptyString.

Fixpoint trimStart (s : string) : string :=
  match s with
  | EmptyString => EmptyString
  | String c s' => if isWhiteSpace c then trimStart s' else s
  end.

Fixpoint trimEnd (s : string) : string :=
  match s with
  | EmptyString => EmptyString
  | String c s' =>
      match trimEnd s' with
      | EmptyString => if isWhiteSpace c then EmptyString else String c EmptyString
      | r => String c r
      end
  end.

(** [s.trim()] *)
Definition trim (s : string) : string := trimEnd (trimStart s).

(** [s.includes(sub)] on strings *)
Fixpoint includes (s sub : string) : bool :=
  String.prefix sub s
  || match s with
     | EmptyString => false
     | String _ s' => includes s' sub
     end.

(** [arr.includes(w)] on an array of strings *)
Definition arrayIncludes (arr : list string) (w : string) : bool :=
  existsb (String.eqb w) arr.

(** [arr.join(sep)] *)
Fixpoint join (sep : string) (arr : list string) : string :=
  match arr with
  | [] => EmptyString
  | [x] => x
  | x :: rest => x ++ sep ++ join sep rest
  end.

(** A truthy string is a non-empty one. *)
Definition truthyString (s : string) : bool :=
  match s with EmptyString => false | _ => true end.

(** [`${n}`] for a non-negative integer *)
Definition ofNat (n : nat) : string := NilEmpty.string_of_uint (Nat.to_uint n).

(** [arr.slice(-k)]: the last [k] elements. *)
Definition sliceLast {A : Type} (k : nat) (arr : list A) : list A :=
  skipn (List.length arr - k)%nat arr.

End Js.

(* ================================================================== *)
(** ** JavaScript numbers *)

Class Number (num : Type) : Type := {
  ofZ : Z -> num;                 (* an integer value *)
  add : num -> num -> num;
  sub : num -> num -> num;
  mul : num -> num -> num;
  div : num -> num -> num;
  sqrt : num -> num;              (* Math.sqrt *)
  abs : num -> num;               (* Math.abs *)
  max : num -> num -> num;        (* Math.max *)
  min : num -> num -> num;        (* Math.min *)
  ltb : num -> num -> bool;       (* a < b *)
  leb : num -> num -> bool;       (* a <= b *)
  truthy : num -> bool            (* ToBoolean: false on 0 and NaN *)
}.

Declare Scope num_scope.
Delimit Scope num_scope with num.
Infix "+" := add : num_scope.
Infix "-" := sub : num_scope.
Infix "*" := mul : num_scope.
Infix "/" := div : num_scope.
Infix "<?" := ltb : num_scope.
Infix "<=?" := leb : num_scope.

Section NumberOps.
Context {num : Type} {N : Number num}.

Definition ofNat (n : nat) : num := ofZ (Z.of_nat n).

(** A decimal literal [n/d] with small [n] and [d], such as [0.2 = 2/10]:
    on doubles the correctly rounded quotient is the literal's value. *)
Definition dec (n d : Z) : num := div (ofZ n) (ofZ d).

(** [a > b] and [a >= b] *)
Definition gtb (a b : num) : bool := ltb b a.
Definition geb (a b : num) : bool := leb b a.

(** [x || d] on numbers *)
Definition orDefault (x d : num) : num := if truthy x then x else d.

(** [arr.reduce((sum, x) => sum + f(x), 0)] *)
Definition sumBy {A : Type} (f : A -> num) (arr : list A) : num :=
  fold_left (fun sum x => add sum (f x)) arr (ofZ 0).
End NumberOps.

(** The doubles. *)
Module B64.
Definition ofZ (z : Z) : float :=
  if (z <? 0)%Z
  then PrimFloat.opp (PrimFloat.of_uint63 (Uint63.of_Z (- z)))
  else PrimFloat.of_uint63 (Uint63.of_Z z).

Definition isZero (x : float) : bool := PrimFloat.eqb x PrimFloat.zero.

Definition max (a b : float) : float :=
  if PrimFloat.is_nan a || PrimFloat.is_nan b then PrimFloat.nan
  else if PrimFloat.eqb a b then (if isZero a then PrimFloat.add a b else a)
  else if PrimFloat.ltb a b then b else a.

Definition min (a b : float) : float :=
  if PrimFloat.is_nan a || PrimFloat.is_nan b then PrimFloat.nan
  else if PrimFloat.eqb a b
       then (if isZero a
             then PrimFloat.opp (PrimFloat.add (PrimFloat.opp a) (PrimFloat.opp b))
             else a)
  else if PrimFloat.ltb a b then a else b.

Definition truthy (x : float) : bool := negb (isZero x || PrimFloat.is_nan x).
End B64.

#[export] Instance Binary64 : Number float := {|
  ofZ := B64.ofZ;
  add := PrimFloat.add;
  sub := PrimFloat.sub;
  mul := PrimFloat.mul;
  div := PrimFloat.div;
  sqrt := PrimFloat.sqrt;
  abs := PrimFloat.abs;
  max := B64.max;
  min := B64.min;
  ltb := PrimFloat.ltb;
  leb := PrimFloat.leb;
  truthy := B64.truthy
|}.

(** The reals: arithmetic without rounding. *)
Module Ex.
Definition ltb (a b : R) : bool := if Rlt_dec a b then true else false.
Definition leb (a b : R) : bool := if Rle_dec a b then true else false.
Definition truthy (x : R) : bool := if Req_dec_T x 0%R then false else true.
End Ex.

#[export] Instance Exact : Number R := {|
  ofZ := IZR;
  add := Rplus;
  sub := Rminus;
  mul := Rmult;
  div := Rdiv;
  sqrt := R_sqrt.sqrt;
  abs := Rabs;
  max := Rmax;
  min := Rmin;
  ltb := Ex.ltb;
  leb := Ex.leb;
  truthy := Ex.truthy
|}.

(* ================================================================== *)
(** ** DocumentProcessor.createChunks *)

Module DocumentProcessor.

Local Open Scope string_scope.

(** A detected table or chart: an opaque payload, passed through. *)
Definition Visual : Type := string.

(** The [metadata] argument of [createChunks]; the default [{}] has neither
    property. *)
Record AuxMetadata : Type := {
  tables : option (list Visual);
  aux_charts : option (list Visual)
}.

Definition noMetadata : AuxMetadata := {| tables := None; aux_charts := None |}.

Record ChunkMetadata : Type := {
  sourceType : string;
  chunkType : string;
  visualElements : option (list Visual);   (* only on visual_context chunks *)
  charts : option (list Visual)
}.

Record Chunk : Type := {
  id : nat;
  content : string;
  type : string;
  metadata : ChunkMetadata
}.

(** The loop state of [createChunks]: the array [chunks] and the counter
    [chunkId]. *)
Record Chunking : Type := {
  chunks : list Chunk;
  chunkId : nat
}.

Definition start : Chunking := {| chunks := []; chunkId := 1 |}.

(** [chunks.push({ id: chunkId++, content, type: 'paragraph', ... })] *)
Definition pushParagraph (srcType : string) (st : Chunking) (text : string) : Chunking :=
  {| chunks := st.(chunks) ++
               [{| id := st.(chunkId);
                   content := text;
                   type := "paragraph";
                   metadata := {| sourceType := srcType;
                                  chunkType := "paragraph";
                                  visualElements := None;
                                  charts := None |} |}];
     chunkId := S st.(chunkId) |}.

(** One turn of [for (const sentence of sentences)]; the state carries
    [currentChunk] besides. *)
Definition sentenceStep (srcType : string) (acc : Chunking * string) (sentence : string)
  : Chunking * string :=
  let (st, currentChunk) := acc in
  if (500 <? String.length (currentChunk ++ sentence))%nat
  then ((if Js.truthyString currentChunk
         then pushParagraph srcType st (Js.trim currentChunk)
         else st),
        sentence)
  else (st,
        currentChunk ++ (if Js.truthyString currentChunk then ". " else "") ++ sentence).

(** The branch [paragraph.length > 500]. *)
Definition splitLongParagraph (srcType : string) (st : Chunking) (paragraph : string)
  : Chunking :=
  let sentences := Js.split ". " paragraph in
  let (st', currentChunk) := fold_left (sentenceStep srcType) sentences (st, EmptyString) in
  if Js.truthyString currentChunk
  then pushParagraph srcType st' (Js.trim currentChunk)
  else st'.

(** One turn of [for (let i = 0; i < paragraphs.length; i++)]. *)
Definition paragraphStep (srcType : string) (st : Chunking) (paragraph : string) : Chunking :=
  if (500 <? String.length paragraph)%nat
  then splitLongParagraph srcType st paragraph
  else pushParagraph srcType st paragraph.

(** [sentences.slice(i, i + 3)] for [i = 0, 3, 6, ...] *)
Fixpoint windows3 (sentences : list string) : list (list string) :=
  match sentences with
  | [] => []
  | a :: b :: c :: rest => [a; b; c] :: windows3 rest
  | short => [short]
  end.

Definition orEmpty (o : option (list Visual)) : option (list Visual) :=
  match o with
  | Some l => Some l
  | None => Some []
  end.

Definition pushVisual (srcType : string) (aux : AuxMetadata) (st : Chunking)
  (chunkSentences : list string) : Chunking :=
  {| chunks := st.(chunks) ++
               [{| id := st.(chunkId);
                   content := Js.join ". " chunkSentences;
                   type := "visual_context";
                   metadata := {| sourceType := srcType;
                                  chunkType := "visual_context";
                                  visualElements := orEmpty aux.(tables);
                                  charts := orEmpty aux.(aux_charts) |} |}];
     chunkId := S st.(chunkId) |}.

Definition nonBlank (s : string) : bool := (0 <? String.length (Js.trim s))%nat.

Definition createChunks (text srcType : string) (aux : AuxMetadata) : list Chunk :=
  if String.eqb srcType "pdf" then
    let paragraphs := filter nonBlank (Js.split (Js.nl ++ Js.nl) text) in
    (fold_left (paragraphStep srcType) paragraphs start).(chunks)
  else if String.eqb srcType "image" then
    let sentences := filter nonBlank (Js.split ". " text) in
    (fold_left (pushVisual srcType aux) (windows3 sentences) start).(chunks)
  else [].

End DocumentProcessor.

(* ================================================================== *)
(** ** Completions

    A call either returns a value or throws; an [async] function resolves
    or rejects.  The pipeline has no [throw] of its own on the query path:
    the one exception that can arise there is the runtime's [TypeError]
    (see [RAGPipeline.expandQuery]). *)

Inductive Exception : Type :=
| TypeError                      (* calling what is not a function *)
| Error (message : string).      (* [throw new Error(message)] *)

Inductive Completion (A : Type) : Type :=
| Normal (value : A)
| Throw (e : Exception).

Arguments Normal {A} value.
Arguments Throw {A} e.

Definition bind {A B : Type} (c : Completion A) (k : A -> Completion B) : Completion B :=
  match c with
  | Normal v => k v
  | Throw e => Throw e
  end.

Notation "x <- c ;; k" := (bind c (fun x => k))
  (at level 61, c at next level, right associativity).

(* ================================================================== *)
(** ** Arrays and Maps *)

Module JsArray.

(** [arr.sort(compare)], [after a b] being the test [compare a b > 0].
    The sort is stable (ECMAScript 2019).  When [compare] is a consistent
    comparison on the array, the sorted array is determined: it is the one
    every stable sort returns, and the one this insertion sort returns.  When
    it is not (here: when a difference of scores is NaN, which the engine
    reads as 0), ECMAScript leaves the order to the engine; an array each of
    whose elements compares as in order with the next is one run to V8's
    sort, which returns it as it is, and so does this definition. *)
Fixpoint insert {A : Type} (after : A -> A -> bool) (x : A) (sorted : list A) : list A :=
  match sorted with
  | [] => [x]
  | y :: rest => if after x y then y :: insert after x rest else x :: sorted
  end.

Fixpoint sort {A : Type} (after : A -> A -> bool) (arr : list A) : list A :=
  match arr with
  | [] => []
  | x :: rest => insert after x (sort after rest)
  end.

(** [arr.slice(0, n)] *)
Definition slice0 {A : Type} (n : nat) (arr : list A) : list A := firstn n arr.

(** [arr[i] = f(arr[i])] for [i] within the array *)
Fixpoint updateAt {A : Type} (i : nat) (f : A -> A) (arr : list A) : list A :=
  match arr, i with
  | [], _ => []
  | x :: rest, O => f x :: rest
  | x :: rest, S j => x :: updateAt j f rest
  end.

(** [map.set(key, value)] on a [Map] kept in insertion order *)
Fixpoint mapSet {V : Type} (key : string) (value : V) (m : list (string * V))
  : list (string * V) :=
  match m with
  | [] => [(key, value)]
  | (k, v) :: rest =>
      if String.eqb k key then (k, value) :: rest
      else (k, v) :: mapSet key value rest
  end.

(** [map.get(key)]: [None] is [undefined]. *)
Fixpoint mapGet {V : Type} (key : string) (m : list (string * V)) : option V :=
  match m with
  | [] => None
  | (k, v) :: rest => if String.eqb k key then Some v else mapGet key rest
  end.

(** [[...new Set(arr)]] on strings: the first occurrences, in order. *)
Definition newSet (arr : list string) : list string :=
  fold_left
    (fun set x => if existsb (String.eqb x) set then set else set ++ [x])
    arr [].

End JsArray.

(* ================================================================== *)
(** ** VectorStore *)

Module VectorStore.

Import DocumentProcessor.
Local Open Scope string_scope.

(** [ToInt32]: the value modulo 2^32 taken in [-2^31, 2^31). *)
Definition toInt32 (z : Z) : Z := ((z + 2 ^ 31) mod 2 ^ 32 - 2 ^ 31)%Z.

(** [hash = ((hash << 5) - hash + word.charCodeAt(j)) & 0xffffffff] *)
Definition hashStep (hash : Z) (c : ascii) : Z :=
  Z.land (toInt32 (toInt32 (Z.shiftl (toInt32 hash) 5) - hash
                   + Z.of_nat (nat_of_ascii c)))
         (toInt32 4294967295).

Fixpoint hashFrom (hash : Z) (word : string) : Z :=
  match word with
  | EmptyString => hash
  | String c rest => hashFrom (hashStep hash c) rest
  end.

Definition embeddingDimensions : nat := 384.

(** [Math.abs(hash) % this.embeddingDimensions] *)
Definition wordIndex (word : string) : nat :=
  Z.to_nat (Z.rem (Z.abs (hashFrom 0 word)) (Z.of_nat embeddingDimensions)).

Record DocumentInfo : Type := {
  doc_id : string;
  chunksCount : nat
}.

(** A property of an object that is read and spread: it can be absent, be
    there with the value [null] or [undefined], or be there with a value.
    Reading it gives a falsy value in the first two cases alike; spreading
    the object copies it in the last two. *)
Inductive Setting (A : Type) : Type :=
| Absent
| Nullish
| Given (value : A).

Arguments Absent {A}.
Arguments Nullish {A}.
Arguments Given {A} value.

Section WithNumber.
Context {num : Type} {N : Number num}.
Local Open Scope num_scope.

Definition simulateEmbedding (text : string) : list num :=
  let words := Js.splitWhitespace (Js.toLowerCase text) in
  let embedding :=
    fold_left
      (fun embedding word =>
         JsArray.updateAt (wordIndex word)
           (fun v => v + ofZ 1 / sqrt (ofNat (List.length words))) embedding)
      words (repeat (ofZ 0) embeddingDimensions) in
  let magnitude := sqrt (sumBy (fun val => val * val) embedding) in
  if gtb magnitude (ofZ 0) then map (fun val => val / magnitude) embedding
  else embedding.

Definition generateEmbeddings (chunks : list Chunk) : list (list num) :=
  map (fun chunk => simulateEmbedding chunk.(content)) chunks.

(** An entry of [this.vectors]. *)
Record VectorData : Type := {
  vd_id : string;
  documentId : string;
  chunkId : nat;
  embedding : list num;
  vd_content : string;
  vd_metadata : ChunkMetadata;
  vd_type : string
}.

Record Store : Type := {
  vectors : list (string * VectorData);
  documents : list (string * DocumentInfo)
}.

Definition empty : Store := {| vectors := []; documents := [] |}.

(** The body of [for (let i = 0; i < chunks.length; i++)] in [storeDocument],
    on the chunk and its embedding. *)
Definition storeChunk (docId : string) (vs : list (string * VectorData))
  (ce : Chunk * list num) : list (string * VectorData) :=
  let (chunk, emb) := ce in
  let key := docId ++ "_" ++ Js.ofNat chunk.(id) in
  JsArray.mapSet key
    {| vd_id := key;
       documentId := docId;
       chunkId := chunk.(id);
       embedding := emb;
       vd_content := chunk.(content);
       vd_metadata := chunk.(metadata);
       vd_type := chunk.(type) |} vs.

(** [storeDocument(documentId, { chunks })]: the new store and
    [chunksStored]. *)
Definition storeDocument (docId : string) (chunks : list Chunk) (st : Store)
  : Completion (Store * nat) :=
  let embeddings := generateEmbeddings chunks in
  Normal
    ({| documents :=
          JsArray.mapSet docId
            {| doc_id := docId; chunksCount := List.length chunks |} st.(documents);
        vectors :=
          fold_left (storeChunk docId) (combine chunks embeddings) st.(vectors) |},
     List.length chunks).

(** The loop of [cosineSimilarity]: [(dotProduct, magnitudeA, magnitudeB)]
    over the indices of [vectorA], the vectors being of one length. *)
Definition cosineStep (acc : num * num * num) (ab : num * num) : num * num * num :=
  let '(dotProduct, magnitudeA, magnitudeB) := acc in
  let (a, b) := ab in
  (dotProduct + a * b, magnitudeA + a * a, magnitudeB + b * b).

Definition cosineSimilarity (vectorA vectorB : list num) : num :=
  if negb (List.length vectorA =? List.length vectorB)%nat then ofZ 0
  else
    let '(dotProduct, magnitudeA, magnitudeB) :=
      fold_left cosineStep (combine vectorA vectorB) (ofZ 0, ofZ 0, ofZ 0) in
    let magnitudeA := sqrt magnitudeA in
    let magnitudeB := sqrt magnitudeB in
    if truthy magnitudeA && truthy magnitudeB
    then dotProduct / (magnitudeA * magnitudeB)
    else ofZ 0.

(** An element of [results] in [search]: [{ ...vectorData, similarity }]. *)
Record Scored : Type := {
  data : VectorData;
  similarity : num
}.

(** [documentIds && !documentIds.includes(vectorData.documentId)] *)
Definition excluded (documentIds : option (list string)) (v : VectorData) : bool :=
  match documentIds with
  | None => false
  | Some ids => negb (Js.arrayIncludes ids v.(documentId))
  end.

(** The array [results] before sorting. *)
Definition scoreAll (queryEmbedding : list num) (documentIds : option (list string))
  (st : Store) : list Scored :=
  fold_left
    (fun results (entry : string * VectorData) =>
       let vectorData := snd entry in
       if excluded documentIds vectorData then results
       else (results ++
             [{| data := vectorData;
                 similarity := cosineSimilarity queryEmbedding vectorData.(embedding) |}])%list)
    st.(vectors) [].

(** [(a, b) => b.similarity - a.similarity] is positive *)
Definition bySimilarity (a b : Scored) : bool :=
  gtb (b.(similarity) - a.(similarity)) (ofZ 0).

Definition defaultLimit : nat := 10.

Definition search (queryEmbedding : list num) (documentIds : option (list string))
  (limit : nat) (st : Store) : Completion (list Scored) :=
  Normal
    (JsArray.slice0 limit
       (JsArray.sort bySimilarity (scoreAll queryEmbedding documentIds st))).

(** The [filters] object. *)
Record Filters : Type := {
  contentType : option string;
  minSimilarity : Setting num
}.

Definition noFilters : Filters := {| contentType := None; minSimilarity := Absent |}.

(** What [searchWithQuery] returns for each result. *)
Record Retrieved : Type := {
  r_content : string;
  r_similarity : num;
  r_documentId : string;
  r_chunkId : nat;
  r_metadata : ChunkMetadata;
  r_type : string
}.

Definition project (result : Scored) : Retrieved :=
  {| r_content := result.(data).(vd_content);
     r_similarity := result.(similarity);
     r_documentId := result.(data).(documentId);
     r_chunkId := result.(data).(chunkId);
     r_metadata := result.(data).(vd_metadata);
     r_type := result.(data).(vd_type) |}.

(** [if (filters.contentType) filteredResults = filteredResults.filter(...)] *)
Definition filterContentType (filters : Filters) (results : list Scored) : list Scored :=
  match filters.(contentType) with
  | Some t =>
      if Js.truthyString t
      then filter (fun r => String.eqb r.(data).(vd_type) t) results
      else results
  | None => results
  end.

(** [if (filters.minSimilarity) filteredResults = filteredResults.filter(...)] *)
Definition filterMinSimilarity (filters : Filters) (results : list Scored) : list Scored :=
  match filters.(minSimilarity) with
  | Given m =>
      if truthy m
      then filter (fun r => geb r.(similarity) m) results
      else results
  | Absent | Nullish => results
  end.

Definition searchWithQuery (query : string) (documentIds : option (list string))
  (filters : Filters) (st : Store) : Completion (list Retrieved) :=
  let queryEmbedding := simulateEmbedding query in
  vectorResults <- search queryEmbedding documentIds defaultLimit st ;;
  Normal
    (map project (filterMinSimilarity filters (filterContentType filters vectorResults))).

(** What [getDocumentStats] returns: [{ ...doc, actualChunks, contentTypes }]. *)
Record DocumentStats : Type := {
  doc : DocumentInfo;
  actualChunks : nat;
  contentTypes : list string
}.

(** [getDocumentStats(documentId)]; [None] is [null]. *)
Definition getDocumentStats (docId : string) (st : Store) : option DocumentStats :=
  match JsArray.mapGet docId st.(documents) with
  | None => None
  | Some d =>
      let chunks :=
        filter (fun v => String.eqb v.(documentId) docId) (map snd st.(vectors)) in
      Some {| doc := d;
              actualChunks := List.length chunks;
              contentTypes := JsArray.newSet (map (fun c => c.(vd_type)) chunks) |}
  end.

End WithNumber.

Arguments VectorData : clear implicits.
Arguments Store : clear implicits.
Arguments Scored : clear implicits.
Arguments Filters : clear implicits.
Arguments Retrieved : clear implicits.

End VectorStore.

(* ================================================================== *)
(** ** RAGPipeline *)

Module RAGPipeline.

Import DocumentProcessor.
Local Open Scope string_scope.

Definition maxContextLength : nat := 4000.
Definition topK : nat := 5.

(** The patterns of [classifyIntent], in the order of the object literal;
    each is an alternation of literal phrases matched without regard to case. *)
Definition intents : list (string * list string) :=
  [ ("factual",    ["what is"; "define"; "explain"; "tell me about"]);
    ("comparison", ["compare"; "versus"; "vs"; "difference between"]);
    ("procedural", ["how to"; "steps"; "process"; "procedure"]);
    ("analytical", ["analyze"; "analysis"; "insights"; "trends"]);
    ("numerical",  ["statistics"; "numbers"; "data"; "metrics"]);
    ("visual",     ["chart"; "graph"; "table"; "image"; "figure"]) ].

(** [pattern.test(query)] for such a pattern *)
Definition test (alternatives : list string) (query : string) : bool :=
  existsb (Js.includes (Js.toLowerCase query)) alternatives.

Fixpoint firstIntent (table : list (string * list string)) (query : string) : string :=
  match table with
  | [] => "general"
  | (intentType, pattern) :: rest =>
      if test pattern query then intentType else firstIntent rest query
  end.

Definition classifyIntent (query : string) : string := firstIntent intents query.

Definition stopWords : list string :=
  ["the"; "is"; "at"; "which"; "on"; "a"; "an"; "and"; "or"; "but"].

Definition extractKeywords (query : string) : list string :=
  JsArray.slice0 10
    (filter (fun word => (2 <? String.length word)%nat
                         && negb (Js.arrayIncludes stopWords word))
       (Js.splitWhitespace (Js.toLowerCase query))).

(** [synonyms[keyword]]: an own property of the table, a property inherited
    from [Object.prototype], or [undefined].  The keywords are lowercased, so
    of the inherited names only [constructor] and [__proto__] can occur; both
    are truthy and neither has a [join] method. *)
Inductive Property : Type :=
| Own (synonymList : list string)
| Inherited
| Undefined.

Definition synonyms (keyword : string) : Property :=
  if String.eqb keyword "data" then Own ["information"; "statistics"; "metrics"]
  else if String.eqb keyword "analyze" then Own ["examine"; "study"; "review"]
  else if String.eqb keyword "show" then Own ["display"; "present"; "demonstrate"]
  else if String.eqb keyword "constructor" || String.eqb keyword "__proto__"
       then Inherited
  else Undefined.

Fixpoint expandFrom (expanded : string) (keywords : list string) : Completion string :=
  match keywords with
  | [] => Normal expanded
  | keyword :: rest =>
      match synonyms keyword with
      | Own l => expandFrom (expanded ++ " " ++ Js.join " " l) rest
      | Inherited => Throw TypeError
      | Undefined => expandFrom expanded rest
      end
  end.

Definition expandQuery (query : string) (keywords : list string) : Completion string :=
  expandFrom query keywords.

(** The result of [preprocessQuery]; its [entities] are read nowhere and are
    left out. *)
Record ProcessedQuery : Type := {
  text : string;
  intent : string;
  keywords : list string;
  processedText : string
}.

Definition preprocessQuery (query : string) : Completion ProcessedQuery :=
  let intent := classifyIntent query in
  let keywords := extractKeywords query in
  expanded <- expandQuery query keywords ;;
  Normal {| text := query;
            intent := intent;
            keywords := keywords;
            processedText := expanded |}.

(** What [templates[intent]] finds, converted to a string, when [intent]
    names no template but a property the object inherits from
    [Object.prototype]: a built-in function, printed by Node as
    [function name() { [native code] }], or, for [__proto__], the prototype
    itself, printed as [[object Object]]. *)
Definition nativeFunction (name : string) : string :=
  "function " ++ name ++ "() { [native code] }".

Definition inheritedTemplate (intent : string) : option string :=
  if String.eqb intent "__proto__" then Some "[object Object]"
  else if String.eqb intent "constructor" then Some (nativeFunction "Object")
  else if Js.arrayIncludes
            ["__defineGetter__"; "__defineSetter__"; "hasOwnProperty";
             "__lookupGetter__"; "__lookupSetter__"; "isPrototypeOf";
             "propertyIsEnumerable"; "toString"; "valueOf"; "toLocaleString"]
            intent
  then Some (nativeFunction intent)
  else None.

(** [templates[intent] || templates['general']], as the string that
    [template + contextSummary] starts with. *)
Definition templates (query intent : string) : string :=
  if String.eqb intent "factual" then
    "Based on the provided context, here's what I found about " ++ Js.dquote ++ query
      ++ Js.dquote ++ ":" ++ Js.nl ++ Js.nl
  else if String.eqb intent "comparison" then
    "Comparing the information from the documents:" ++ Js.nl ++ Js.nl
  else if String.eqb intent "procedural" then
    "Here are the steps based on the documentation:" ++ Js.nl ++ Js.nl
  else if String.eqb intent "analytical" then
    "Based on my analysis of the provided data:" ++ Js.nl ++ Js.nl
  else if String.eqb intent "numerical" then
    "Here are the key statistics and numbers:" ++ Js.nl ++ Js.nl
  else if String.eqb intent "visual" then
    "Based on the charts, tables, and visual elements:" ++ Js.nl ++ Js.nl
  else if String.eqb intent "general" then
    "Based on the available information:" ++ Js.nl ++ Js.nl
  else
    match inheritedTemplate intent with
    | Some text => text
    | None => "Based on the available information:" ++ Js.nl ++ Js.nl
    end.

Definition notFoundMessage : string :=
  "I couldn't find specific information in the uploaded documents to answer your question. Please make sure the relevant documents are uploaded and try rephrasing your question.".

Definition isSentenceEnd (c : ascii) : bool :=
  (Ascii.eqb c "." || Ascii.eqb c "!" || Ascii.eqb c "?")%char.

Definition summarizeContext (context : string) : string :=
  if (String.length context =? 0)%nat then notFoundMessage
  else
    let sentences :=
      filter (fun s => (20 <? String.length (Js.trim s))%nat)
        (Js.splitRuns isSentenceEnd context) in
    let keySentences := Js.join ". " (JsArray.slice0 3 sentences) in
    keySentences ++ (if (3 <? List.length sentences)%nat then "..." else ".").

Section WithNumber.
Context {num : Type} {N : Number num}.
Local Open Scope num_scope.

(** [{ ...chunk, rerankedScore: score }] *)
Record Reranked : Type := {
  chunk : VectorStore.Retrieved num;
  rerankedScore : num
}.

(** [exactMatches / queryWords.length] *)
Definition keywordOverlap (query content : string) : num :=
  let queryWords := Js.splitWhitespace (Js.toLowerCase query) in
  let contentWords := Js.splitWhitespace (Js.toLowerCase content) in
  let exactMatches :=
    List.length (filter (fun word => Js.arrayIncludes contentWords word) queryWords) in
  ofNat exactMatches / ofNat (List.length queryWords).

(** [query.toLowerCase().includes('table') && chunk.type === 'visual_context'] *)
Definition tableBoost (query type : string) : bool :=
  Js.includes (Js.toLowerCase query) "table" && String.eqb type "visual_context".

(** [Math.max(0, 1 - Math.abs(chunk.content.length - 300) / 1000)] *)
Definition lengthScore (content : string) : num :=
  max (ofZ 0)
      (ofZ 1 - abs (ofNat (String.length content) - ofZ 300) / ofZ 1000).

(** The callback of [chunks.map] in [rerank]: the successive values of
    [score]. *)
Definition rerankScore (query : string) (c : VectorStore.Retrieved num) : num :=
  let score := c.(VectorStore.r_similarity) in
  let score := score + keywordOverlap query c.(VectorStore.r_content) * dec 2 10 in
  let score :=
    if tableBoost query c.(VectorStore.r_type) then score + dec 1 10 else score in
  score + lengthScore c.(VectorStore.r_content) * dec 5 100.

(** [(a, b) => b.rerankedScore - a.rerankedScore] is positive *)
Definition byRerankedScore (a b : Reranked) : bool :=
  gtb (b.(rerankedScore) - a.(rerankedScore)) (ofZ 0).

Definition rerank (query : string) (chunks : list (VectorStore.Retrieved num))
  : Completion (list Reranked) :=
  Normal
    (JsArray.sort byRerankedScore
       (map (fun c => {| chunk := c; rerankedScore := rerankScore query c |}) chunks)).

Definition chunkText (c : Reranked) : string :=
  "Source: " ++ c.(chunk).(VectorStore.r_type) ++ Js.nl
    ++ c.(chunk).(VectorStore.r_content) ++ Js.nl ++ Js.nl.

(** The loop of [buildContext], from [context] and [currentLength] on. *)
Fixpoint buildContextFrom (context : string) (currentLength : nat)
  (chunks : list Reranked) : string :=
  match chunks with
  | [] => context
  | c :: rest =>
      if (currentLength + String.length (chunkText c) <=? maxContextLength)%nat
      then buildContextFrom (context ++ chunkText c)
             (currentLength + String.length (chunkText c))%nat rest
      else context
  end.

Definition buildContext (chunks : list Reranked) : string :=
  buildContextFrom EmptyString 0%nat chunks.

Definition calculateResponseConfidence (context query : string) : num :=
  let confidence := dec 5 10 in
  let confidence :=
    if (500 <? String.length context)%nat then confidence + dec 2 10 else confidence in
  let queryWords := Js.splitWhitespace (Js.toLowerCase query) in
  let contextWords := Js.splitWhitespace (Js.toLowerCase context) in
  let matchRatio :=
    ofNat (List.length (filter (fun word => Js.arrayIncludes contextWords word) queryWords))
    / ofNat (List.length queryWords) in
  let confidence := confidence + matchRatio * dec 3 10 in
  min confidence (ofZ 1).

(** What [generate] returns. *)
Record Answer : Type := {
  a_text : string;
  confidence : num;
  a_intent : string;
  contextUsed : bool
}.

Definition generate (query context intent : string) : Completion Answer :=
  let template := templates query intent in
  let contextSummary := summarizeContext context in
  let response := template ++ contextSummary in
  let confidence := calculateResponseConfidence context query in
  Normal {| a_text := response;
            confidence := confidence;
            a_intent := intent;
            contextUsed := (0 <? String.length context)%nat |}.

Definition calculateRelevanceScore (chunks : list Reranked) (response : Answer) : num :=
  if (List.length chunks =? 0)%nat then ofZ 0
  else
    let avgSimilarity :=
      sumBy (fun c => c.(chunk).(VectorStore.r_similarity)) chunks
      / ofNat (List.length chunks) in
    let responseConfidence := orDefault response.(confidence) (dec 5 10) in
    avgSimilarity * dec 6 10 + responseConfidence * dec 4 10.

(** An element of [sources] in the result of [query]. *)
Record Source : Type := {
  s_content : string;
  s_similarity : num;
  s_documentId : string;
  s_type : string;
  s_metadata : ChunkMetadata
}.

Definition toSource (c : Reranked) : Source :=
  {| s_content := c.(chunk).(VectorStore.r_content);
     s_similarity := c.(chunk).(VectorStore.r_similarity);
     s_documentId := c.(chunk).(VectorStore.r_documentId);
     s_type := c.(chunk).(VectorStore.r_type);
     s_metadata := c.(chunk).(VectorStore.r_metadata) |}.

Record Response : Type := {
  answer : Answer;
  sources : list Source;
  relevanceScore : num;
  context : string;
  queryIntent : string
}.

(** [{ minSimilarity: 0.3, ...filters }]: a [minSimilarity] that [filters]
    has, whatever its value, replaces the floor. *)
Definition withFloor (filters : VectorStore.Filters num) : VectorStore.Filters num :=
  {| VectorStore.contentType := filters.(VectorStore.contentType);
     VectorStore.minSimilarity :=
       match filters.(VectorStore.minSimilarity) with
       | VectorStore.Absent => VectorStore.Given (dec 3 10)
       | set => set
       end |}.

(** [query(query, documentIds, filters)], [st] being the state of the
    pipeline's own [this.vectorStore]; the [catch] clause logs and throws the
    error again. *)
Definition query (query : string) (documentIds : option (list string))
  (filters : VectorStore.Filters num) (st : VectorStore.Store num) : Completion Response :=
  processedQuery <- preprocessQuery query ;;
  relevantChunks <-
    VectorStore.searchWithQuery processedQuery.(text) documentIds (withFloor filters) st ;;
  rerankedChunks <- rerank query relevantChunks ;;
  let selectedChunks := JsArray.slice0 topK rerankedChunks in
  let context := buildContext selectedChunks in
  response <- generate query context processedQuery.(intent) ;;
  let relevanceScore := calculateRelevanceScore selectedChunks response in
  Normal {| answer := response;
            sources := map toSource selectedChunks;
            relevanceScore := relevanceScore;
            context := context;
            queryIntent := processedQuery.(intent) |}.

End WithNumber.

Arguments Reranked : clear implicits.
Arguments Answer : clear implicits.
Arguments Source : clear implicits.
Arguments Response : clear implicits.

End RAGPipeline.

(* ================================================================== *)
(** ** EvaluationMetrics *)

Module EvaluationMetrics.

Local Open Scope string_scope.

Section WithNumber.
Context {num : Type} {N : Number num}.
Local Open Scope num_scope.

(** The record [calculateMetrics] builds and appends to the history (without
    its timestamp). *)
Record Metrics : Type := {
  latency : num;
  relevanceScore : num;
  sourcesCount : nat;
  contextLength : nat;
  success : bool;
  faithfulness : num;
  answerRelevancy : num;
  contextRecall : num;
  contextPrecision : num
}.

Record PerformanceMetrics : Type := {
  totalQueries : nat;
  avgLatency : num;
  avgRelevanceScore : num;
  successRate : num
}.

(** The fields of an [EvaluationMetrics] object. *)
Record State : Type := {
  queryHistory : list Metrics;
  performanceMetrics : PerformanceMetrics
}.

(** [new EvaluationMetrics()] *)
Definition init : State :=
  {| queryHistory := [];
     performanceMetrics := {| totalQueries := 0;
                              avgLatency := ofZ 0;
                              avgRelevanceScore := ofZ 0;
                              successRate := ofZ 0 |} |}.

Definition calculateFaithfulness (answer : RAGPipeline.Answer num) (context : string) : num :=
  if (String.length context =? 0)%nat then ofZ 0
  else
    let answerWords :=
      if Js.truthyString answer.(RAGPipeline.a_text)
      then Js.splitWhitespace (Js.toLowerCase answer.(RAGPipeline.a_text))
      else [] in
    let contextWords := Js.splitWhitespace (Js.toLowerCase context) in
    let groundedWords :=
      filter (fun word => Js.arrayIncludes contextWords word
                          && (3 <? String.length word)%nat) answerWords in
    if (0 <? List.length answerWords)%nat
    then ofNat (List.length groundedWords) / ofNat (List.length answerWords)
    else ofZ 0.

Definition calculateAnswerRelevancy (answer : RAGPipeline.Answer num)
  (sources : list (RAGPipeline.Source num)) : num :=
  if (List.length sources =? 0)%nat then ofZ 0
  else
    let avgSourceSimilarity :=
      sumBy (fun source => source.(RAGPipeline.s_similarity)) sources
      / ofNat (List.length sources) in
    let answerConfidence := orDefault answer.(RAGPipeline.confidence) (dec 5 10) in
    (avgSourceSimilarity + answerConfidence) / ofZ 2.

Definition calculateContextRecall (sources : list (RAGPipeline.Source num))
  (context : string) : num :=
  if (List.length sources =? 0)%nat then ofZ 0
  else
    let totalSources := List.length sources in
    let highQualitySources :=
      List.length
        (filter (fun source => gtb source.(RAGPipeline.s_similarity) (dec 7 10)) sources) in
    if (0 <? totalSources)%nat
    then ofNat highQualitySources / ofNat totalSources
    else ofZ 0.

(** The callback of [sources.forEach] in [calculateContextPrecision]:
    [(cumulativePrecision, relevantFound)] and the index. *)
Definition precisionStep (acc : num * nat * nat) (source : RAGPipeline.Source num)
  : num * nat * nat :=
  let '(cumulativePrecision, relevantFound, index) := acc in
  if gtb source.(RAGPipeline.s_similarity) (dec 5 10)
  then (cumulativePrecision + ofNat (S relevantFound) / ofNat (index + 1),
        S relevantFound, S index)
  else (cumulativePrecision, relevantFound, S index).

Definition calculateContextPrecision (sources : list (RAGPipeline.Source num)) : num :=
  if (List.length sources =? 0)%nat then ofZ 0
  else
    let '(cumulativePrecision, _, _) :=
      fold_left precisionStep sources (ofZ 0, 0%nat, 0%nat) in
    let relevantSources :=
      List.length
        (filter (fun s => gtb s.(RAGPipeline.s_similarity) (dec 5 10)) sources) in
    if (0 <? relevantSources)%nat
    then cumulativePrecision / ofNat relevantSources
    else ofZ 0.

Definition updatePerformanceMetrics (metrics : Metrics) (st : State) : State :=
  let history := (st.(queryHistory) ++ [metrics])%list in
  let recentQueries := Js.sliceLast 100 history in
  {| queryHistory := history;
     performanceMetrics :=
       {| totalQueries := S st.(performanceMetrics).(totalQueries);
          avgLatency :=
            sumBy latency recentQueries / ofNat (List.length recentQueries);
          avgRelevanceScore :=
            sumBy relevanceScore recentQueries / ofNat (List.length recentQueries);
          successRate :=
            ofNat (List.length (filter success recentQueries))
            / ofNat (List.length recentQueries) |} |}.

(** [calculateMetrics(response, latency)]: the metrics and the new state. *)
Definition calculateMetrics (response : RAGPipeline.Response num) (lat : num) (st : State)
  : Metrics * State :=
  let metrics :=
    {| latency := lat;
       relevanceScore := response.(RAGPipeline.relevanceScore);
       sourcesCount := List.length response.(RAGPipeline.sources);
       contextLength := String.length response.(RAGPipeline.context);
       success := (0 <? List.length response.(RAGPipeline.sources))%nat;
       faithfulness :=
         calculateFaithfulness response.(RAGPipeline.answer) response.(RAGPipeline.context);
       answerRelevancy :=
         calculateAnswerRelevancy response.(RAGPipeline.answer) response.(RAGPipeline.sources);
       contextRecall :=
         calculateContextRecall response.(RAGPipeline.sources) response.(RAGPipeline.context);
       contextPrecision := calculateContextPrecision response.(RAGPipeline.sources) |} in
  (metrics, updatePerformanceMetrics metrics st).

Record Buckets : Type := {
  fast : nat;
  medium : nat;
  slow : nat
}.

Definition getLatencyDistribution (queries : list Metrics) : Buckets :=
  fold_left
    (fun buckets q =>
       if ltb q.(latency) (ofZ 1000)
       then {| fast := S buckets.(fast); medium := buckets.(medium); slow := buckets.(slow) |}
       else if ltb q.(latency) (ofZ 3000)
       then {| fast := buckets.(fast); medium := S buckets.(medium); slow := buckets.(slow) |}
       else {| fast := buckets.(fast); medium := buckets.(medium); slow := S buckets.(slow) |})
    queries {| fast := 0; medium := 0; slow := 0 |}.

(** [types[intent] = (types[intent] || 0) + 1] *)
Fixpoint increment (intent : string) (types : list (string * nat)) : list (string * nat) :=
  match types with
  | [] => [(intent, 1%nat)]
  | (k, n) :: rest =>
      if String.eqb k intent then (k, S n) :: rest else (k, n) :: increment intent rest
  end.

(** A history record has no [intent] property: [q.intent || 'general'] is
    ['general']. *)
Definition getQueryTypeDistribution (queries : list Metrics) : list (string * nat) :=
  fold_left (fun types _ => increment "general" types) queries [].

Record DetailedMetrics : Type := {
  avgFaithfulness : num;
  avgAnswerRelevancy : num;
  avgContextRecall : num;
  avgContextPrecision : num
}.

Record Report : Type := {
  overview : PerformanceMetrics;
  detailedMetrics : DetailedMetrics;
  latencyDistribution : Buckets;
  queryTypes : list (string * nat)
}.

Definition getPerformanceReport (st : State) : Report :=
  let recent := Js.sliceLast 50 st.(queryHistory) in
  {| overview := st.(performanceMetrics);
     detailedMetrics :=
       {| avgFaithfulness := sumBy faithfulness recent / ofNat (List.length recent);
          avgAnswerRelevancy := sumBy answerRelevancy recent / ofNat (List.length recent);
          avgContextRecall := sumBy contextRecall recent / ofNat (List.length recent);
          avgContextPrecision :=
            sumBy contextPrecision recent / ofNat (List.length recent) |};
     latencyDistribution := getLatencyDistribution recent;
     queryTypes := getQueryTypeDistribution recent |}.

End WithNumber.

Arguments Metrics : clear implicits.
Arguments PerformanceMetrics : clear implicits.
Arguments State : clear implicits.
Arguments DetailedMetrics : clear implicits.
Arguments Report : clear implicits.

End EvaluationMetrics.

(* ================================================================== *)
(** ** DocumentProcessor: processing a file

    The calls into [pdf-parse] and [sharp] are external: each request carries
    what they resolve to, or the message of the error they reject with. *)

Module Processing.

Import DocumentProcessor.
Local Open Scope string_scope.

Inductive External (A : Type) : Type :=
| Resolved (value : A)
| Rejected (message : string).

Arguments Resolved {A} value.
Arguments Rejected {A} message.

Definition supportedTypes : list string :=
  ["application/pdf"; "image/jpeg"; "image/png"; "image/tiff"; "image/bmp"].

(** The uploaded file; its [buffer] is read by the external calls only. *)
Record File : Type := {
  mimetype : string;
  originalname : string
}.

(** What [pdfParse(buffer)] resolves to (without [info]). *)
Record PdfData : Type := {
  text : string;
  numpages : nat
}.

Record Externals : Type := {
  pdfParse : External PdfData;               (* pdfParse(buffer) *)
  sharpToBuffer : External unit;             (* sharp(buffer)...toBuffer() *)
  sharpMetadata : External (nat * nat)       (* sharp(buffer).metadata(): width, height *)
}.

(** [performOCR]: the simulated text. *)
Definition performOCR : string := "Sample OCR extracted text content from the image...".

(** The one table of [extractTablesFromImage] and the one chart of
    [extractChartsFromImage], named by their [type]. *)
Definition extractTablesFromImage : list Visual := ["visual_table"].
Definition extractChartsFromImage : list Visual := ["bar_chart"].

Fixpoint anyChar (p : ascii -> bool) (s : string) : bool :=
  match s with
  | EmptyString => false
  | String c rest => p c || anyChar p rest
  end.

Definition specialChars : string :=
  "!@#$%^&*()_+={}[]|\:" ++ Js.dquote ++ ";'<>?,./".

Definition isSpecialChar (c : ascii) : bool := anyChar (Ascii.eqb c) specialChars.

Definition isDigit (c : ascii) : bool :=
  let n := nat_of_ascii c in ((48 <=? n) && (n <=? 57))%nat.

Definition isLetter (c : ascii) : bool :=
  let n := nat_of_ascii c in
  (((65 <=? n) && (n <=? 90)) || ((97 <=? n) && (n <=? 122)))%nat.

Section WithNumber.
Context {num : Type} {N : Number num}.
Local Open Scope num_scope.

Definition calculateOCRConfidence (text : string) : num :=
  let hasSpecialChars := anyChar isSpecialChar text in
  let hasNumbers := anyChar isDigit text in
  let hasLetters := anyChar isLetter text in
  let confidence := dec 5 10 in
  let confidence := if hasLetters then confidence + dec 3 10 else confidence in
  let confidence := if hasNumbers then confidence + dec 1 10 else confidence in
  let confidence :=
    if negb hasSpecialChars || (50 <? String.length text)%nat
    then confidence + dec 1 10 else confidence in
  min confidence (ofZ 1).

(** The [metadata] of a processed PDF (without [info] and [hasTables]). *)
Record PdfMetadata : Type := {
  wordCount : nat;
  pdf_hasImages : bool
}.

Record ImageMetadata : Type := {
  dimensions : nat * nat;
  hasText : bool;
  hasTables : bool;
  hasCharts : bool;
  ocrConfidence : num
}.

(** What [processPDF] or [processImage] resolves to (without [pages],
    [tables] and [images] of a PDF and the [layout] of an image); [Bare] is
    the [undefined] left when neither branch of [processDocument] is taken. *)
Inductive Processed : Type :=
| Pdf (totalPages : nat) (textContent : string) (chunks : list Chunk)
      (metadata : PdfMetadata)
| Image (textContent : string) (tables charts : list Visual) (chunks : list Chunk)
        (metadata : ImageMetadata)
| Bare.

(** What [processDocument] resolves to:
    [{ filename, type, processedAt, ...processingResult }]. *)
Record ProcessingResult : Type := {
  filename : string;
  ptype : string;
  processed : Processed
}.

(** [processingResult.chunks || []] *)
Definition chunksOf (r : ProcessingResult) : list Chunk :=
  match r.(processed) with
  | Pdf _ _ chunks _ => chunks
  | Image _ _ _ chunks _ => chunks
  | Bare => []
  end.

Definition processPDF (ext : Externals) : External Processed :=
  match ext.(pdfParse) with
  | Rejected message => Rejected message
  | Resolved pdfData =>
      let textContent := pdfData.(text) in
      let images : list Visual := [] in
      let chunks := createChunks textContent "pdf" noMetadata in
      Resolved
        (Pdf pdfData.(numpages) textContent chunks
           {| wordCount := List.length (Js.split " " textContent);
              pdf_hasImages := (0 <? List.length images)%nat |})
  end.

Definition processImage (ext : Externals) : External Processed :=
  match ext.(sharpToBuffer) with
  | Rejected message => Rejected message
  | Resolved _ =>
      let ocrText := performOCR in
      let tables := extractTablesFromImage in
      let charts := extractChartsFromImage in
      let chunks :=
        createChunks ocrText "image"
          {| DocumentProcessor.tables := Some tables; aux_charts := Some charts |} in
      match ext.(sharpMetadata) with
      | Rejected message => Rejected message
      | Resolved dims =>
          Resolved
            (Image ocrText tables charts chunks
               {| dimensions := dims;
                  hasText := (0 <? String.length ocrText)%nat;
                  hasTables := (0 <? List.length tables)%nat;
                  hasCharts := (0 <? List.length charts)%nat;
                  ocrConfidence := calculateOCRConfidence ocrText |})
      end
  end.

Definition processDocument (file : File) (ext : Externals) : Completion ProcessingResult :=
  if negb (Js.arrayIncludes supportedTypes file.(mimetype))
  then Throw (Error ("Unsupported file type: " ++ file.(mimetype)))
  else
    let processingResult :=
      if String.eqb file.(mimetype) "application/pdf" then processPDF ext
      else if String.prefix "image/" file.(mimetype) then processImage ext
      else Resolved Bare in
    match processingResult with
    | Resolved r =>
        Normal {| filename := file.(originalname);
                  ptype := file.(mimetype);
                  processed := r |}
    | Rejected message => Throw (Error ("Failed to process document: " ++ message))
    end.

End WithNumber.

Arguments ImageMetadata : clear implicits.
Arguments Processed : clear implicits.
Arguments ProcessingResult : clear implicits.

End Processing.

(* ================================================================== *)
(** ** The server: [/api/upload] and [/api/query]

    The server holds a [VectorStore] of its own, the pipeline (which holds
    another, made by its constructor) and the evaluation metrics.  What
    MongoDB and the clock answer comes with the request.  The [GET] routes
    read MongoDB only and touch none of the three. *)

Module Server.

Local Open Scope string_scope.

Section WithNumber.
Context {num : Type} {N : Number num}.

Record State : Type := {
  vectorStore : VectorStore.Store num;              (* const vectorStore *)
  ragPipeline : VectorStore.Store num;              (* ragPipeline.vectorStore *)
  evaluationMetrics : EvaluationMetrics.State num   (* const evaluationMetrics *)
}.

Definition init : State :=
  {| vectorStore := VectorStore.empty;
     ragPipeline := VectorStore.empty;
     evaluationMetrics := EvaluationMetrics.init |}.

Record UploadRequest : Type := {
  file : option Processing.File;                 (* req.file *)
  externals : Processing.Externals;
  insertOne : Processing.External string         (* result.insertedId *)
}.

Record QueryRequest : Type := {
  query : string;
  documentIds : option (list string);
  filters : option (VectorStore.Filters num);
  elapsed : num                                  (* Date.now() - startTime *)
}.

Inductive Request : Type :=
| PostUpload (r : UploadRequest)
| PostQuery (r : QueryRequest).

(** The body of the JSON answer. *)
Inductive Body : Type :=
| Uploaded (documentId : string) (processingResult : Processing.ProcessingResult num)
| Answered (response : RAGPipeline.Answer num)
           (sources : list (RAGPipeline.Source num))
           (relevanceScore : num)
           (metrics : EvaluationMetrics.Metrics num)
           (latency : num)
| Failed (error : string).

Record Response : Type := {
  status : nat;
  body : Body
}.

Definition upload (r : UploadRequest) (s : State) : State * Response :=
  match r.(file) with
  | None => (s, {| status := 400; body := Failed "No file uploaded" |})
  | Some f =>
      match Processing.processDocument f r.(externals) with
      | Throw _ => (s, {| status := 500; body := Failed "Document processing failed" |})
      | Normal processingResult =>
          match r.(insertOne) with
          | Processing.Rejected _ =>
              (s, {| status := 500; body := Failed "Document processing failed" |})
          | Processing.Resolved insertedId =>
              match VectorStore.storeDocument insertedId
                      (Processing.chunksOf processingResult) s.(vectorStore) with
              | Throw _ =>
                  (s, {| status := 500; body := Failed "Document processing failed" |})
              | Normal (st', _) =>
                  ({| vectorStore := st';
                      ragPipeline := s.(ragPipeline);
                      evaluationMetrics := s.(evaluationMetrics) |},
                   {| status := 200; body := Uploaded insertedId processingResult |})
              end
          end
      end
  end.

Definition postQuery (r : QueryRequest) (s : State) : State * Response :=
  let filters :=
    match r.(filters) with
    | Some f => f
    | None => VectorStore.noFilters
    end in
  match RAGPipeline.query r.(query) r.(documentIds) filters s.(ragPipeline) with
  | Throw _ => (s, {| status := 500; body := Failed "Query processing failed" |})
  | Normal response =>
      let (metrics, ev') :=
        EvaluationMetrics.calculateMetrics response r.(elapsed) s.(evaluationMetrics) in
      ({| vectorStore := s.(vectorStore);
          ragPipeline := s.(ragPipeline);
          evaluationMetrics := ev' |},
       {| status := 200;
          body := Answered response.(RAGPipeline.answer) response.(RAGPipeline.sources)
                    response.(RAGPipeline.relevanceScore) metrics r.(elapsed) |})
  end.

Definition handle (request : Request) (s : State) : State * Response :=
  match request with
  | PostUpload r => upload r s
  | PostQuery r => postQuery r s
  end.

(** The requests served one after the other, and their answers. *)
Fixpoint serve (requests : list Request) (s : State) : State * list Response :=
  match requests with
  | [] => (s, [])
  | request :: rest =>
      let (s', response) := handle request s in
      let (s'', responses) := serve rest s' in
      (s'', response :: responses)
  end.

End WithNumber.

Arguments State : clear implicits.
Arguments UploadRequest : clear implicits.
Arguments QueryRequest : clear implicits.
Arguments Request : clear implicits.
Arguments Body : clear implicits.
Arguments Response : clear implicits.

End Server.

(* ================================================================== *)
(** ** The client: selecting documents, the query history *)

Module Client.

(** [handleSelectDocument(documentId)]: the argument of [onSelectionChange]. *)
Definition handleSelectDocument (selectedDocuments : list string) (documentId : string)
  : list string :=
  let isSelected := Js.arrayIncludes selectedDocuments documentId in
  if isSelected
  then filter (fun id => negb (String.eqb id documentId)) selectedDocuments
  else selectedDocuments ++ [documentId].

(** [handleSelectAll()], [documents] being the ids [doc._id]. *)
Definition handleSelectAll (selectedDocuments documents : list string) : list string :=
  if (List.length selectedDocuments =? List.length documents)%nat
  then []
  else documents.

(** [setQueryHistory(prev => [entry, ...prev.slice(0, 9)])] *)
Definition pushHistory {A : Type} (entry : A) (prev : list A) : list A :=
  entry :: JsArray.slice0 9 prev.

End Client.

(* ================================================================== *)
(** * Properties *)

Unset Implicit Arguments.

Import DocumentProcessor.

(** ** Lists: order of occurrence, stable sorting *)

(** [x] occurs at some position of [l] and [y] at a later one. *)
Definition before {A : Type} (x y : A) (l : list A) : Prop :=
  exists l1 l2 l3, l = l1 ++ x :: l2 ++ y :: l3.



Lemma before_inv {A : Type} (z x y : A) (l : list A) :
  before x y (z :: l) -> (z = x /\ In y l) \/ before x y l.
Proof.
  intros (l1 & l2 & l3 & E). destruct l1 as [|w l1]; simpl in E.
  - injection E as -> ->. left. split; [reflexivity|].
    apply in_or_app. right. left. reflexivity.
  - injection E as -> ->. right. exists l1, l2, l3. reflexivity.
Qed.

Lemma before_nil {A : Type} (x y : A) : ~ before x y [].
Proof.
  intros (l1 & l2 & l3 & E). destruct l1; discriminate.
Qed.









Section StableSort.
Variable A : Type.
Variable after : A -> A -> bool.

Lemma insert_In (x y : A) (l : list A) :
  In y (JsArray.insert after x l) <-> y = x \/ In y l.
Proof.
  induction l as [|z l IH]; simpl.
  - intuition congruence.
  - destruct (after x z); simpl; rewrite ?IH; intuition congruence.
Qed.

Lemma sort_In (y : A) (l : list A) :
  In y (JsArray.sort after l) <-> In y l.
Proof.
  induction l as [|x l IH]; simpl.
  - tauto.
  - rewrite insert_In, IH. intuition congruence.
Qed.

Lemma insert_length (x : A) (l : list A) :
  List.length (JsArray.insert after x l) = S (List.length l).
Proof.
  induction l as [|z l IH]; simpl; [reflexivity|].
  destruct (after x z); simpl; congruence.
Qed.

Lemma sort_length (l : list A) :
  List.length (JsArray.sort after l) = List.length l.
Proof.
  induction l as [|x l IH]; simpl; [reflexivity|].
  rewrite insert_length. congruence.
Qed.

(** Stability: a class [p] of elements none of which goes after another keeps
    its order. *)
Lemma insert_filter (p : A -> bool) (x : A) (l : list A) :
  (forall a b, p a = true -> p b = true -> after a b = false) ->
  filter p (JsArray.insert after x l) = filter p (x :: l).
Proof.
  intros Hp. induction l as [|z l IH]; simpl; [reflexivity|].
  destruct (after x z) eqn:E; simpl; [|reflexivity].
  simpl in IH. rewrite IH.
  destruct (p x) eqn:Px, (p z) eqn:Pz; try reflexivity.
  rewrite (Hp x z Px Pz) in E. discriminate.
Qed.

Lemma sort_filter (p : A -> bool) (l : list A) :
  (forall a b, p a = true -> p b = true -> after a b = false) ->
  filter p (JsArray.sort after l) = filter p l.
Proof.
  intros Hp. induction l as [|x l IH]; simpl; [reflexivity|].
  rewrite (insert_filter p x (JsArray.sort after l) Hp). simpl. rewrite IH. reflexivity.
Qed.

(** Order: when [after] is the strict part of a total preorder, the sorted
    array has no element going after a later one. *)
Hypothesis after_asym : forall a b, after a b = true -> after b a = false.
Hypothesis after_trans :
  forall a b c, after a b = false -> after b c = false -> after a c = false.

Definition inOrder (a b : A) : Prop := after a b = false.

Lemma insert_sorted (x : A) (l : list A) :
  StronglySorted inOrder l -> StronglySorted inOrder (JsArray.insert after x l).
Proof.
  induction l as [|z l IH]; simpl; intros HS.
  - constructor; constructor.
  - inversion HS as [|? ? HS' Hz]; subst.
    destruct (after x z) eqn:E.
    + constructor; [apply IH, HS'|].
      apply Forall_forall. intros y Hy. apply insert_In in Hy as [-> | Hy].
      * apply after_asym, E.
      * rewrite Forall_forall in Hz. apply Hz, Hy.
    + constructor; [exact HS|].
      constructor; [exact E|].
      rewrite Forall_forall in Hz |- *. intros y Hy.
      apply after_trans with z; [exact E | apply Hz, Hy].
Qed.

Lemma sort_sorted (l : list A) : StronglySorted inOrder (JsArray.sort after l).
Proof.
  induction l as [|x l IH]; simpl; [constructor | apply insert_sorted, IH].
Qed.

End StableSort.

Lemma In_firstn {A : Type} (x : A) (n : nat) (l : list A) :
  In x (firstn n l) -> In x l.
Proof.
  intros H. rewrite <- (firstn_skipn n l). apply in_or_app. left. exact H.
Qed.

Lemma StronglySorted_firstn {A : Type} (R : A -> A -> Prop) (n : nat) (l : list A) :
  StronglySorted R l -> StronglySorted R (firstn n l).
Proof.
  revert n. induction l as [|x l IH]; intros [|n] HS; simpl; try constructor.
  - inversion HS; subst. apply IH. assumption.
  - inversion HS as [|? ? ? Hx]; subst. rewrite Forall_forall in Hx |- *.
    intros y Hy. apply Hx. apply (In_firstn _ _ _ Hy).
Qed.

(** ** The vector index, on any numbers *)

Section SearchFacts.
Context {num : Type} {N : Number num}.
Import VectorStore.

(** The element [search] pushes for a stored record. *)
Definition scored (queryEmbedding : list num) (v : VectorData num) : Scored num :=
  {| data := v; similarity := cosineSimilarity queryEmbedding v.(embedding) |}.

(** The records the [documentIds] argument lets through, in [Map] order. *)
Definition eligible (documentIds : option (list string)) (st : Store num)
  : list (VectorData num) :=
  filter (fun v => negb (excluded documentIds v)) (map snd st.(vectors)).

Lemma scoreAll_from (q : list num) (ids : option (list string))
  (entries : list (string * VectorData num)) (results : list (Scored num)) :
  fold_left
    (fun results (entry : string * VectorData num) =>
       let vectorData := snd entry in
       if excluded ids vectorData then results
       else (results ++
             [{| data := vectorData;
                 similarity := cosineSimilarity q vectorData.(embedding) |}])%list)
    entries results
  = results ++ map (scored q)
                 (filter (fun v => negb (excluded ids v)) (map snd entries)).
Proof.
  revert results. induction entries as [|[k v] entries IH]; intros results; simpl.
  - rewrite app_nil_r. reflexivity.
  - rewrite IH. destruct (excluded ids v); simpl.
    + reflexivity.
    + rewrite <- app_assoc. reflexivity.
Qed.

Lemma scoreAll_eligible (q : list num) (ids : option (list string)) (st : Store num) :
  scoreAll q ids st = map (scored q) (eligible ids st).
Proof.
  unfold scoreAll, eligible. rewrite scoreAll_from. reflexivity.
Qed.

Lemma cosineSimilarity_mismatch (a b : list num) :
  List.length a <> List.length b -> cosineSimilarity a b = ofZ 0.
Proof.
  intros H. unfold cosineSimilarity.
  apply Nat.eqb_neq in H. rewrite H. reflexivity.
Qed.

Lemma search_members (q : list num) (ids : option (list string)) (limit : nat)
  (st : Store num) (results : list (Scored num)) (r : Scored num) :
  search q ids limit st = Normal results -> In r results ->
  In r.(data) (eligible ids st) /\ r = scored q r.(data).
Proof.
  unfold search, JsArray.slice0. intros E Hr. injection E as <-.
  apply In_firstn, sort_In in Hr. rewrite scoreAll_eligible in Hr.
  apply in_map_iff in Hr as (v & <- & Hv). simpl. split; [exact Hv | reflexivity].
Qed.

Lemma eligible_none (ids : option (list string)) (st : Store num) :
  Forall (fun entry => excluded ids (snd entry) = true) st.(vectors) ->
  eligible ids st = [].
Proof.
  unfold eligible. induction (vectors st) as [|[k v] l IH]; simpl; intros H.
  - reflexivity.
  - inversion H as [|? ? Hv Hl]; subst. simpl in Hv. rewrite Hv. simpl. apply IH, Hl.
Qed.

Lemma filters_nil (filters : Filters num) :
  filterMinSimilarity filters (filterContentType filters []) = [].
Proof.
  unfold filterMinSimilarity, filterContentType.
  destruct (contentType filters) as [t|]; [destruct (Js.truthyString t)|];
    destruct (minSimilarity filters) as [| |m]; try destruct (truthy m); reflexivity.
Qed.

Lemma searchWithQuery_none (q : string) (ids : option (list string))
  (filters : Filters num) (st : Store num) :
  eligible ids st = [] -> searchWithQuery q ids filters st = Normal [].
Proof.
  intros H. unfold searchWithQuery, search.
  rewrite scoreAll_eligible, H. cbn.
  rewrite filters_nil. reflexivity.
Qed.

End SearchFacts.

(** ** The [Map] of stored records keeps insertion order *)

Lemma mapSet_fresh {V : Type} (key : string) (value : V) (m : list (string * V)) :
  ~ In key (map fst m) -> JsArray.mapSet key value m = m ++ [(key, value)].
Proof.
  induction m as [|[k v] m IH]; simpl; intros H; [reflexivity|].
  destruct (String.eqb k key) eqn:E.
  - apply String.eqb_eq in E. tauto.
  - rewrite IH; [reflexivity | tauto].
Qed.

Lemma mapSet_present {V : Type} (key : string) (value : V) (m : list (string * V)) :
  In key (map fst m) -> map fst (JsArray.mapSet key value m) = map fst m.
Proof.
  induction m as [|[k v] m IH]; simpl; intros H; [contradiction|].
  destruct (String.eqb k key) eqn:E; simpl; [reflexivity|].
  apply String.eqb_neq in E. rewrite IH; [reflexivity|].
  destruct H as [H | H]; [contradiction | exact H].
Qed.

Lemma mapSet_entries {V : Type} (P : string * V -> Prop) (key : string) (value : V)
  (m : list (string * V)) :
  P (key, value) -> Forall P m -> Forall P (JsArray.mapSet key value m).
Proof.
  intros Hnew. induction m as [|[k v] m IH]; simpl; intros H.
  - constructor; [exact Hnew | constructor].
  - inversion H as [|? ? Hkv Hm]; subst.
    destruct (String.eqb k key) eqn:E.
    + apply String.eqb_eq in E. subst k. constructor; assumption.
    + constructor; [exact Hkv | apply IH, Hm].
Qed.

Lemma mapSet_NoDup {V : Type} (key : string) (value : V) (m : list (string * V)) :
  NoDup (map fst m) -> NoDup (map fst (JsArray.mapSet key value m)).
Proof.
  intros ND. destruct (in_dec string_dec key (map fst m)) as [Hin | Hout].
  - rewrite mapSet_present by exact Hin. exact ND.
  - rewrite mapSet_fresh by exact Hout. rewrite map_app. simpl.
    apply NoDup_app; [exact ND | constructor; [intros [] | constructor] |].
    intros x Hx [<- | []]. contradiction.
Qed.

Section StoreInvariant.
Context {num : Type} {N : Number num}.
Import VectorStore.

(** The keys of the [Map] are distinct and every record carries its key. *)
Definition wellFormed (st : Store num) : Prop :=
  NoDup (map fst (vectors st))
  /\ Forall (fun entry => vd_id (snd entry) = fst entry) (vectors st).

Lemma wellFormed_empty : wellFormed empty.
Proof.
  split; constructor.
Qed.

Lemma storeChunk_wellFormed (docId : string) (ce : Chunk * list num)
  (vs : list (string * VectorData num)) :
  NoDup (map fst vs) /\ Forall (fun entry => vd_id (snd entry) = fst entry) vs ->
  NoDup (map fst (storeChunk docId vs ce))
  /\ Forall (fun entry => vd_id (snd entry) = fst entry) (storeChunk docId vs ce).
Proof.
  intros [ND HF]. destruct ce as [c emb]. unfold storeChunk. split.
  - apply mapSet_NoDup, ND.
  - apply mapSet_entries; [reflexivity | exact HF].
Qed.

Lemma storeDocument_wellFormed (docId : string) (chunks : list Chunk) (st st' : Store num)
  (n : nat) :
  wellFormed st -> storeDocument docId chunks st = Normal (st', n) -> wellFormed st'.
Proof.
  unfold storeDocument, wellFormed. intros H E. injection E as <- _. cbn [vectors].
  revert H. generalize (vectors st).
  induction (combine chunks (generateEmbeddings chunks)) as [|ce l IH]; intros vs H.
  - exact H.
  - cbn [fold_left]. apply IH, storeChunk_wellFormed, H.
Qed.

(** Distinct keys make distinct records. *)
Lemma wellFormed_distinct (st : Store num) :
  wellFormed st -> NoDup (map snd (vectors st)).
Proof.
  intros [ND HF]. apply (NoDup_map_inv vd_id). rewrite map_map.
  erewrite map_ext_in; [exact ND|].
  intros entry Hin. rewrite Forall_forall in HF. apply HF, Hin.
Qed.

End StoreInvariant.

(** ** Stores and inputs used as examples, on doubles *)

Definition stored (docId : string) (chunks : list Chunk) (st : VectorStore.Store float)
  : VectorStore.Store float :=
  match VectorStore.storeDocument docId chunks st with
  | Normal (st', _) => st'
  | Throw _ => st
  end.

Definition storeOf (chunks : list Chunk) : VectorStore.Store float :=
  stored "doc1" chunks VectorStore.empty.

(** The document of the specification's scenario: two paragraphs. *)
Definition revenueText : string :=
  ("Revenue grew 10%." ++ Js.nl ++ Js.nl ++ "Costs fell.")%string.

Definition revenueStore : VectorStore.Store float :=
  storeOf (createChunks revenueText "pdf" noMetadata).

(** A query embedding of two components. *)
Definition shortEmbedding : list float := [ofZ 1; ofZ 0].

(** ** C1: a query embedding of the wrong length *)

(** C1, as stated, fails: searching the two stored 384-component records with a
    2-component query embedding raises nothing; it returns both records, each
    with similarity 0. *)
Lemma C1_search_returns_on_mismatch :
  List.length shortEmbedding <> VectorStore.embeddingDimensions
  /\ Forall (fun entry => List.length (VectorStore.embedding (snd entry))
                          = VectorStore.embeddingDimensions)
       (VectorStore.vectors revenueStore)
  /\ exists r1 r2,
       VectorStore.search shortEmbedding None VectorStore.defaultLimit revenueStore
       = Normal [r1; r2]
       /\ VectorStore.vd_content (VectorStore.data r1) = "Revenue grew 10%."%string
       /\ VectorStore.vd_content (VectorStore.data r2) = "Costs fell."%string
       /\ VectorStore.similarity r1 = 0%float
       /\ VectorStore.similarity r2 = 0%float.
Proof.
  split; [vm_compute; discriminate|].
  split; [repeat constructor|].
  eexists. eexists. split; [vm_compute; reflexivity|].
  repeat split.
Qed.

(** C1, amended: whatever the length of the query embedding, [search] raises
    no error and returns its result list; every returned record whose stored
    embedding differs in length from the query embedding carries similarity 0
    (the guard of [cosineSimilarity]), computed from no truncated or padded
    vector. *)
Theorem C1_search_scores_mismatch_zero {num : Type} {N : Number num}
  (q : list num) (ids : option (list string)) (limit : nat)
  (st : VectorStore.Store num) :
  exists results,
    VectorStore.search q ids limit st = Normal results
    /\ forall r, In r results ->
         List.length q <> List.length (VectorStore.embedding (VectorStore.data r)) ->
         VectorStore.similarity r = ofZ 0.
Proof.
  eexists. split; [reflexivity|].
  intros r Hr Hlen.
  destruct (search_members q ids limit st _ r eq_refl Hr) as [_ E].
  rewrite E. simpl. apply cosineSimilarity_mismatch, Hlen.
Qed.

Lemma C1_search_scores_mismatch_zero_witness :
  exists results r,
    VectorStore.search shortEmbedding None VectorStore.defaultLimit revenueStore
    = Normal results
    /\ In r results
    /\ List.length shortEmbedding
       <> List.length (VectorStore.embedding (VectorStore.data r))
    /\ VectorStore.similarity r = 0%float.
Proof.
  destruct (C1_search_scores_mismatch_zero shortEmbedding None
              VectorStore.defaultLimit revenueStore) as [results [E H]].
  assert (Hne : results <> []).
  { intros ->. vm_compute in E. discriminate. }
  destruct results as [|r rest]; [contradiction|].
  assert (Hlen : List.length shortEmbedding
                 <> List.length (VectorStore.embedding (VectorStore.data r))).
  { vm_compute in E. injection E as <- _. vm_compute. discriminate. }
  exists (r :: rest), r. split; [exact E|].
  split; [left; reflexivity|].
  split; [exact Hlen|].
  apply (H r); [left; reflexivity | exact Hlen].
Defined.

(** ** C2: a query with no eligible document *)

Lemma expandFrom_returns (keywords : list string) (expanded : string) :
  Forall (fun k => RAGPipeline.synonyms k <> RAGPipeline.Inherited) keywords ->
  exists e, RAGPipeline.expandFrom expanded keywords = Normal e.
Proof.
  revert expanded. induction keywords as [|k l IH]; intros expanded H; simpl.
  - eexists. reflexivity.
  - inversion H as [|? ? Hk Hl]; subst.
    destruct (RAGPipeline.synonyms k); [apply IH, Hl | contradiction | apply IH, Hl].
Qed.

(** C2, as stated, fails: a query against an index with no document raises
    nothing; it returns the fixed "couldn't find" answer, no source and
    relevance score 0. *)
Lemma C2_query_returns_on_empty_index :
  exists response,
    RAGPipeline.query "What happened to revenue?" None VectorStore.noFilters
      (VectorStore.empty (num := float)) = Normal response
    /\ RAGPipeline.sources response = []
    /\ RAGPipeline.a_text (RAGPipeline.answer response)
       = ("Based on the available information:" ++ Js.nl ++ Js.nl
          ++ RAGPipeline.notFoundMessage)%string
    /\ RAGPipeline.relevanceScore response = 0%float.
Proof.
  eexists. split; [vm_compute; reflexivity|].
  repeat split.
Qed.

(** C2, amended: when no stored record is eligible (the index is empty, or
    [documentIds] matches no stored record) and no keyword of the query is
    [constructor] or [__proto__], [query] raises no error: it returns a
    response with no source, an empty context, relevance score 0, and as
    answer the template of the query's intent followed by the fixed
    "couldn't find" message, marked as using no context. *)
Theorem C2_query_without_eligible_documents {num : Type} {N : Number num}
  (q : string) (ids : option (list string)) (filters : VectorStore.Filters num)
  (st : VectorStore.Store num) :
  Forall (fun entry => VectorStore.excluded ids (snd entry) = true)
    (VectorStore.vectors st) ->
  Forall (fun k => RAGPipeline.synonyms k <> RAGPipeline.Inherited)
    (RAGPipeline.extractKeywords q) ->
  exists response,
    RAGPipeline.query q ids filters st = Normal response
    /\ RAGPipeline.sources response = []
    /\ RAGPipeline.context response = EmptyString
    /\ RAGPipeline.relevanceScore response = ofZ 0
    /\ RAGPipeline.a_text (RAGPipeline.answer response)
       = (RAGPipeline.templates q (RAGPipeline.classifyIntent q)
          ++ RAGPipeline.notFoundMessage)%string
    /\ RAGPipeline.contextUsed (RAGPipeline.answer response) = false.
Proof.
  intros Hnone Hkw.
  destruct (expandFrom_returns _ q Hkw) as [e He].
  unfold RAGPipeline.query, RAGPipeline.preprocessQuery, RAGPipeline.expandQuery.
  rewrite He. cbn [bind RAGPipeline.text RAGPipeline.intent].
  rewrite (searchWithQuery_none q ids (RAGPipeline.withFloor filters) st
             (eligible_none ids st Hnone)).
  eexists. split; [reflexivity|].
  change (JsArray.slice0 RAGPipeline.topK
            (JsArray.sort RAGPipeline.byRerankedScore
               (map (fun c : VectorStore.Retrieved num =>
                       {| RAGPipeline.chunk := c;
                          RAGPipeline.rerankedScore := RAGPipeline.rerankScore q c |})
                  [])))
    with (@nil (RAGPipeline.Reranked num)).
  change (RAGPipeline.buildContext (@nil (RAGPipeline.Reranked num))) with EmptyString.
  change (RAGPipeline.summarizeContext EmptyString) with RAGPipeline.notFoundMessage.
  cbn [RAGPipeline.sources RAGPipeline.context RAGPipeline.relevanceScore
       RAGPipeline.answer RAGPipeline.a_text RAGPipeline.contextUsed map].
  repeat split.
Qed.

Lemma C2_query_without_eligible_documents_witness :
  exists response,
    RAGPipeline.query "What happened to revenue?" (Some []) VectorStore.noFilters
      revenueStore = Normal response
    /\ RAGPipeline.sources response = []
    /\ RAGPipeline.context response = EmptyString
    /\ RAGPipeline.relevanceScore response = 0%float
    /\ RAGPipeline.a_text (RAGPipeline.answer response)
       = (RAGPipeline.templates "What happened to revenue?"
            (RAGPipeline.classifyIntent "What happened to revenue?")
          ++ RAGPipeline.notFoundMessage)%string
    /\ RAGPipeline.contextUsed (RAGPipeline.answer response) = false.
Proof.
  apply (C2_query_without_eligible_documents (N := Binary64)).
  - vm_compute. repeat constructor.
  - vm_compute. repeat (constructor; [discriminate|]). constructor.
Defined.

Lemma expandFrom_throws (keywords : list string) (expanded : string) :
  Exists (fun k => RAGPipeline.synonyms k = RAGPipeline.Inherited) keywords ->
  RAGPipeline.expandFrom expanded keywords = Throw TypeError.
Proof.
  intros H. revert expanded. induction H as [k l Hk | k l Hl IH]; intros expanded; simpl.
  - rewrite Hk. reflexivity.
  - destruct (RAGPipeline.synonyms k); [apply IH | reflexivity | apply IH].
Qed.

(** A keyword that names a property inherited from [Object.prototype]
    ([constructor], [__proto__]) makes [query] throw a [TypeError], whatever
    the index holds. *)
Theorem query_throws_on_inherited_keyword {num : Type} {N : Number num}
  (q : string) (ids : option (list string)) (filters : VectorStore.Filters num)
  (st : VectorStore.Store num) :
  Exists (fun k => RAGPipeline.synonyms k = RAGPipeline.Inherited)
    (RAGPipeline.extractKeywords q) ->
  RAGPipeline.query q ids filters st = Throw TypeError.
Proof.
  intros H. unfold RAGPipeline.query, RAGPipeline.preprocessQuery, RAGPipeline.expandQuery.
  rewrite (expandFrom_throws _ q H). reflexivity.
Qed.

Lemma query_throws_on_inherited_keyword_witness :
  RAGPipeline.query "explain the constructor" None VectorStore.noFilters revenueStore
  = Throw TypeError.
Proof.
  apply (query_throws_on_inherited_keyword (N := Binary64)).
  vm_compute. apply Exists_cons_tl. apply Exists_cons_hd. reflexivity.
Defined.

(** ** C3: the text that is embedded *)

(** A store of one paragraph made of the synonyms of [show]. *)
Definition synonymStore : VectorStore.Store float :=
  storeOf (createChunks "display present demonstrate" "pdf" noMetadata).

Lemma preprocessQuery_text (q : string) (pq : RAGPipeline.ProcessedQuery) :
  RAGPipeline.preprocessQuery q = Normal pq -> RAGPipeline.text pq = q.
Proof.
  unfold RAGPipeline.preprocessQuery.
  destruct (RAGPipeline.expandQuery q (RAGPipeline.extractKeywords q)); simpl;
    intros E; [injection E as <-; reflexivity | discriminate].
Qed.

(** C3, on the code: the query [show] is expanded to
    [show display present demonstrate], yet [query] retrieves with the raw
    text: against a record holding exactly the synonyms it finds no source,
    where retrieval with the expanded text finds that record. *)
Theorem C3_query_retrieves_with_raw_text :
  RAGPipeline.preprocessQuery "show"
  = Normal {| RAGPipeline.text := "show";
              RAGPipeline.intent := "general";
              RAGPipeline.keywords := ["show"%string];
              RAGPipeline.processedText := "show display present demonstrate" |}
  /\ (exists response,
        RAGPipeline.query "show" None VectorStore.noFilters synonymStore = Normal response
        /\ RAGPipeline.sources response = [])
  /\ VectorStore.searchWithQuery "show" None
       (RAGPipeline.withFloor VectorStore.noFilters) synonymStore = Normal []
  /\ (exists r,
        VectorStore.searchWithQuery "show display present demonstrate" None
          (RAGPipeline.withFloor VectorStore.noFilters) synonymStore = Normal [r]
        /\ VectorStore.r_content r = "display present demonstrate"%string).
Proof.
  split; [vm_compute; reflexivity|].
  split; [eexists; split; [vm_compute; reflexivity | reflexivity]|].
  split; [vm_compute; reflexivity|].
  eexists; split; [vm_compute; reflexivity | reflexivity].
Qed.

(** ** C4: the length of a paragraph chunk *)

Fixpoint replicate (n : nat) (c : ascii) : string :=
  match n with
  | O => EmptyString
  | S k => String c (replicate k c)
  end.

(** A paragraph of two sentences, of 300 and of 200 characters. *)
Definition twoSentences : string :=
  (replicate 300 "a" ++ ". " ++ replicate 200 "b")%string.

(** C4, on the code: the paragraph [twoSentences] (502 characters) is split
    into its two sentences, neither longer than 500, and both are joined again
    into one chunk of 502 characters: the test before appending leaves the
    separator out of the count. *)
Theorem C4_two_sentences_exceed_threshold :
  Js.split ". " twoSentences = [replicate 300 "a"; replicate 200 "b"]
  /\ exists c,
       createChunks twoSentences "pdf" noMetadata = [c]
       /\ content c = twoSentences
       /\ String.length (content c) = 502.
Proof.
  split; [vm_compute; reflexivity|].
  eexists. split; [vm_compute; reflexivity|].
  split; vm_compute; reflexivity.
Qed.

(** The bound the loop does keep is 502 characters; the lemmas below lead to
    [createChunks_pdf_length]. *)

Lemma append_length (s1 s2 : string) :
  String.length (s1 ++ s2) = String.length s1 + String.length s2.
Proof.
  induction s1 as [|c s1 IH]; simpl; [reflexivity | rewrite IH; reflexivity].
Qed.

Lemma trimStart_length (s : string) : String.length (Js.trimStart s) <= String.length s.
Proof.
  induction s as [|c s IH]; simpl; [lia|].
  destruct (Js.isWhiteSpace c); simpl; lia.
Qed.

Lemma trimEnd_length (s : string) : String.length (Js.trimEnd s) <= String.length s.
Proof.
  induction s as [|c s IH]; simpl; [lia|].
  destruct (Js.trimEnd s); [destruct (Js.isWhiteSpace c)|]; simpl in *; lia.
Qed.

Lemma trim_length (s : string) : String.length (Js.trim s) <= String.length s.
Proof.
  unfold Js.trim. pose proof (trimEnd_length (Js.trimStart s)).
  pose proof (trimStart_length s). lia.
Qed.

Section ChunkLength.
Variable srcType : string.
Variable sentences : list string.

(** [good] holds of the chunks within the bound and of the chunks made of one
    of the [sentences]. *)
Variable good : Chunk -> Prop.
Hypothesis good_short : forall c, String.length (content c) <= 502 -> good c.
Hypothesis good_single :
  forall c sentence, In sentence sentences -> content c = Js.trim sentence -> good c.

(** The buffer [currentChunk] is within the bound or is one sentence. *)
Definition boundedBuffer (currentChunk : string) : Prop :=
  String.length currentChunk <= 502 \/ In currentChunk sentences.

Lemma pushParagraph_good (st : Chunking) (currentChunk : string) :
  Forall good (chunks st) -> boundedBuffer currentChunk ->
  Forall good (chunks (pushParagraph srcType st (Js.trim currentChunk))).
Proof.
  intros Hst Hcur. unfold pushParagraph. cbn [chunks].
  apply Forall_app. split; [exact Hst|]. constructor; [|constructor].
  destruct Hcur as [Hlen | Hin].
  - apply good_short. cbn [content]. pose proof (trim_length currentChunk). lia.
  - apply good_single with currentChunk; [exact Hin | reflexivity].
Qed.

Lemma sentenceStep_good (st : Chunking) (currentChunk sentence : string) :
  In sentence sentences ->
  Forall good (chunks st) -> boundedBuffer currentChunk ->
  Forall good (chunks (fst (sentenceStep srcType (st, currentChunk) sentence)))
  /\ boundedBuffer (snd (sentenceStep srcType (st, currentChunk) sentence)).
Proof.
  intros Hin Hst Hcur. unfold sentenceStep.
  destruct (500 <? String.length (currentChunk ++ sentence)) eqn:E; cbn [fst snd].
  - split; [|right; exact Hin].
    destruct (Js.truthyString currentChunk);
      [apply pushParagraph_good; assumption | exact Hst].
  - split; [exact Hst|]. left. apply Nat.ltb_ge in E.
    rewrite append_length in E. rewrite !append_length.
    destruct (Js.truthyString currentChunk); simpl; lia.
Qed.

Lemma sentences_good (l : list string) (st : Chunking) (currentChunk : string) :
  incl l sentences ->
  Forall good (chunks st) -> boundedBuffer currentChunk ->
  Forall good (chunks (fst (fold_left (sentenceStep srcType) l (st, currentChunk))))
  /\ boundedBuffer (snd (fold_left (sentenceStep srcType) l (st, currentChunk))).
Proof.
  revert st currentChunk. induction l as [|s l IH]; intros st currentChunk Hl Hst Hcur.
  - split; assumption.
  - cbn [fold_left].
    destruct (sentenceStep_good st currentChunk s (Hl s (or_introl eq_refl)) Hst Hcur)
      as [H1 H2].
    destruct (sentenceStep srcType (st, currentChunk) s) as [st' cur'].
    apply IH; [intros x Hx; apply Hl; right; exact Hx | exact H1 | exact H2].
Qed.

End ChunkLength.

(** A paragraph chunk has at most 502 characters, or is one sentence of its
    paragraph, trimmed. *)
Definition withinReach (text : string) (c : Chunk) : Prop :=
  String.length (content c) <= 502
  \/ exists paragraph sentence,
       In paragraph (Js.split (Js.nl ++ Js.nl) text)
       /\ In sentence (Js.split ". " paragraph)
       /\ content c = Js.trim sentence.

Lemma paragraphStep_withinReach (text paragraph : string) (st : Chunking) :
  In paragraph (Js.split (Js.nl ++ Js.nl) text) ->
  Forall (withinReach text) (chunks st) ->
  Forall (withinReach text) (chunks (paragraphStep "pdf" st paragraph)).
Proof.
  intros Hp Hst. unfold paragraphStep.
  destruct (500 <? String.length paragraph) eqn:E.
  - unfold splitLongParagraph.
    assert (Hshort : forall c, String.length (content c) <= 502 -> withinReach text c)
      by (intros c Hc; left; exact Hc).
    assert (Hsingle : forall c sentence,
               In sentence (Js.split ". " paragraph) ->
               content c = Js.trim sentence -> withinReach text c)
      by (intros c sentence Hs Hc; right; exists paragraph, sentence; tauto).
    destruct (sentences_good "pdf" (Js.split ". " paragraph) (withinReach text)
                Hshort Hsingle (Js.split ". " paragraph) st EmptyString
                (incl_refl _) Hst (or_introl (Nat.le_0_l 502))) as [H1 H2].
    destruct (fold_left (sentenceStep "pdf") (Js.split ". " paragraph) (st, EmptyString))
      as [st' cur'].
    cbn [fst snd] in H1, H2.
    destruct (Js.truthyString cur'); [|exact H1].
    exact (pushParagraph_good "pdf" (Js.split ". " paragraph) (withinReach text)
             Hshort Hsingle st' cur' H1 H2).
  - unfold pushParagraph. cbn [chunks]. apply Forall_app. split; [exact Hst|].
    constructor; [|constructor]. left. cbn [content].
    apply Nat.ltb_ge in E. lia.
Qed.

(** Every chunk [createChunks] makes of [pdf] text has at most 502
    characters, or is one sentence of one of the text's paragraphs, trimmed. *)
Theorem createChunks_pdf_length (text : string) (aux : AuxMetadata) (c : Chunk) :
  In c (createChunks text "pdf" aux) -> withinReach text c.
Proof.
  unfold createChunks. change (String.eqb "pdf" "pdf") with true. cbv iota.
  set (paragraphs := filter nonBlank (Js.split (Js.nl ++ Js.nl) text)).
  assert (H : forall l st,
             incl l paragraphs -> Forall (withinReach text) (chunks st) ->
             Forall (withinReach text) (chunks (fold_left (paragraphStep "pdf") l st))).
  { induction l as [|p l IH]; intros st Hl Hst; [exact Hst|].
    cbn [fold_left]. apply IH; [intros x Hx; apply Hl; right; exact Hx|].
    apply paragraphStep_withinReach; [|exact Hst].
    specialize (Hl p (or_introl eq_refl)). unfold paragraphs in Hl.
    apply filter_In in Hl. tauto. }
  intros Hc.
  specialize (H paragraphs start (incl_refl _) (Forall_nil _)).
  rewrite Forall_forall in H. exact (H c Hc).
Qed.

Lemma createChunks_pdf_length_witness :
  withinReach twoSentences
    {| id := 1;
       content := twoSentences;
       type := "paragraph";
       metadata := {| sourceType := "pdf";
                      chunkType := "paragraph";
                      visualElements := None;
                      charts := None |} |}.
Proof.
  apply (createChunks_pdf_length twoSentences noMetadata).
  vm_compute. left. reflexivity.
Defined.

(** ** C6: cosine similarity, in exact arithmetic *)

Section Cosine.
Local Open Scope R_scope.

(** The three sums of the loop, over the paired components. *)
Fixpoint dotProduct (l : list (R * R)) : R :=
  match l with
  | [] => 0
  | (a, b) :: rest => a * b + dotProduct rest
  end.

Fixpoint squaresA (l : list (R * R)) : R :=
  match l with
  | [] => 0
  | (a, _) :: rest => a * a + squaresA rest
  end.

Fixpoint squaresB (l : list (R * R)) : R :=
  match l with
  | [] => 0
  | (_, b) :: rest => b * b + squaresB rest
  end.

Fixpoint sumOfSquares (v : list R) : R :=
  match v with
  | [] => 0
  | x :: rest => x * x + sumOfSquares rest
  end.

(** The Euclidean length of a vector. *)
Definition magnitude (v : list R) : R := R_sqrt.sqrt (sumOfSquares v).

Lemma cosine_loop (l : list (R * R)) (d ma mb : R) :
  fold_left (VectorStore.cosineStep (N := Exact)) l (d, ma, mb)
  = (d + dotProduct l, ma + squaresA l, mb + squaresB l).
Proof.
  revert d ma mb. induction l as [|[a b] l IH]; intros d ma mb; simpl.
  - f_equal; [f_equal|]; ring.
  - rewrite IH. f_equal; [f_equal|]; ring.
Qed.

Lemma squaresA_nonneg (l : list (R * R)) : 0 <= squaresA l.
Proof.
  induction l as [|[a b] l IH]; simpl; [lra|]. pose proof (Rle_0_sqr a) as H.
  unfold Rsqr in H. lra.
Qed.

Lemma squaresB_nonneg (l : list (R * R)) : 0 <= squaresB l.
Proof.
  induction l as [|[a b] l IH]; simpl; [lra|]. pose proof (Rle_0_sqr b) as H.
  unfold Rsqr in H. lra.
Qed.

Lemma squaresA_combine (a b : list R) :
  List.length a = List.length b -> squaresA (combine a b) = sumOfSquares a.
Proof.
  revert b. induction a as [|x a IH]; intros [|y b] H; simpl in *;
    try discriminate; [reflexivity|].
  rewrite IH; [reflexivity | congruence].
Qed.

Lemma squaresB_combine (a b : list R) :
  List.length a = List.length b -> squaresB (combine a b) = sumOfSquares b.
Proof.
  revert b. induction a as [|x a IH]; intros [|y b] H; simpl in *;
    try discriminate; [reflexivity|].
  rewrite IH; [reflexivity | congruence].
Qed.

Lemma dotProduct_self (a : list R) : dotProduct (combine a a) = sumOfSquares a.
Proof.
  induction a as [|x a IH]; simpl; [reflexivity | rewrite IH; reflexivity].
Qed.

(** Cauchy and Schwarz. *)
Lemma dotProduct_squared (l : list (R * R)) :
  dotProduct l * dotProduct l <= squaresA l * squaresB l.
Proof.
  induction l as [|[a b] l IH]; simpl; [lra|].
  pose proof (squaresA_nonneg l) as HA. pose proof (squaresB_nonneg l) as HB.
  set (D := dotProduct l) in *. set (A := squaresA l) in *. set (B := squaresB l) in *.
  assert (H1 : 2 * (a * b * D) <= a * a * B + b * b * A).
  { destruct (Rle_or_lt (2 * (a * b * D)) 0) as [Hneg | Hpos].
    - pose proof (Rle_0_sqr a) as Ha. pose proof (Rle_0_sqr b) as Hb.
      unfold Rsqr in *. nra.
    - apply Rsqr_incr_0_var; [|unfold Rsqr in *; pose proof (Rle_0_sqr a);
                                pose proof (Rle_0_sqr b); unfold Rsqr in *; nra].
      unfold Rsqr.
      assert (H2 : 4 * (a * a) * (b * b) * (D * D) <= 4 * (a * a) * (b * b) * (A * B)).
      { apply Rmult_le_compat_l; [|exact IH].
        pose proof (Rle_0_sqr (a * b)) as Hab. unfold Rsqr in Hab. nra. }
      pose proof (Rle_0_sqr (a * a * B - b * b * A)) as H3. unfold Rsqr in H3. nra. }
  nra.
Qed.

Lemma dotProduct_bounded (l : list (R * R)) :
  Rabs (dotProduct l) <= R_sqrt.sqrt (squaresA l) * R_sqrt.sqrt (squaresB l).
Proof.
  rewrite <- sqrt_mult by (apply squaresA_nonneg || apply squaresB_nonneg).
  rewrite <- sqrt_Rsqr_abs. apply sqrt_le_1_alt. unfold Rsqr.
  apply dotProduct_squared.
Qed.

(** [cosineSimilarity] in closed form. *)
Lemma cosineSimilarity_exact (a b : list R) :
  VectorStore.cosineSimilarity (N := Exact) a b
  = if negb (List.length a =? List.length b)%nat then 0
    else if Req_dec_T (R_sqrt.sqrt (squaresA (combine a b))) 0 then 0
    else if Req_dec_T (R_sqrt.sqrt (squaresB (combine a b))) 0 then 0
    else dotProduct (combine a b)
         / (R_sqrt.sqrt (squaresA (combine a b)) * R_sqrt.sqrt (squaresB (combine a b))).
Proof.
  unfold VectorStore.cosineSimilarity.
  destruct (negb (List.length a =? List.length b)%nat); [reflexivity|].
  rewrite cosine_loop. cbn [ofZ Exact sqrt truthy div mul].
  rewrite !Rplus_0_l. unfold Ex.truthy.
  destruct (Req_dec_T (R_sqrt.sqrt (squaresA (combine a b))) 0);
    destruct (Req_dec_T (R_sqrt.sqrt (squaresB (combine a b))) 0); reflexivity.
Qed.

Lemma cosineSimilarity_range (a b : list R) :
  -1 <= VectorStore.cosineSimilarity (N := Exact) a b <= 1.
Proof.
  rewrite cosineSimilarity_exact.
  destruct (negb (List.length a =? List.length b)%nat); [lra|].
  set (l := combine a b).
  destruct (Req_dec_T (R_sqrt.sqrt (squaresA l)) 0) as [|HA]; [lra|].
  destruct (Req_dec_T (R_sqrt.sqrt (squaresB l)) 0) as [|HB]; [lra|].
  pose proof (sqrt_pos (squaresA l)) as PA. pose proof (sqrt_pos (squaresB l)) as PB.
  assert (Hpos : 0 < R_sqrt.sqrt (squaresA l) * R_sqrt.sqrt (squaresB l)).
  { apply Rmult_lt_0_compat; lra. }
  pose proof (dotProduct_bounded l) as Hb.
  pose proof (Rle_abs (dotProduct l)) as Hu.
  pose proof (Rle_abs (- dotProduct l)) as Hl. rewrite Rabs_Ropp in Hl.
  split.
  - apply Rmult_le_reg_r with (R_sqrt.sqrt (squaresA l) * R_sqrt.sqrt (squaresB l));
      [exact Hpos|].
    unfold Rdiv. rewrite Rmult_assoc, Rinv_l by lra. lra.
  - apply Rmult_le_reg_r with (R_sqrt.sqrt (squaresA l) * R_sqrt.sqrt (squaresB l));
      [exact Hpos|].
    unfold Rdiv. rewrite Rmult_assoc, Rinv_l by lra. lra.
Qed.

Lemma cosineSimilarity_self (a : list R) :
  0 < magnitude a -> VectorStore.cosineSimilarity (N := Exact) a a = 1.
Proof.
  unfold magnitude. intros Hm. rewrite cosineSimilarity_exact.
  rewrite Nat.eqb_refl. simpl negb. cbv iota.
  rewrite squaresA_combine, squaresB_combine, dotProduct_self by reflexivity.
  destruct (Req_dec_T (R_sqrt.sqrt (sumOfSquares a)) 0) as [E|_]; [lra|].
  assert (Hs : 0 <= sumOfSquares a).
  { rewrite <- (squaresA_combine a a eq_refl). apply squaresA_nonneg. }
  rewrite sqrt_sqrt by exact Hs.
  assert (0 < sumOfSquares a).
  { destruct Hs as [Hs | Hs]; [exact Hs|]. rewrite <- Hs, sqrt_0 in Hm. lra. }
  field. lra.
Qed.

Lemma cosineSimilarity_zero (a b : list R) :
  magnitude a = 0 \/ magnitude b = 0 ->
  VectorStore.cosineSimilarity (N := Exact) a b = 0.
Proof.
  unfold magnitude. intros Hz. rewrite cosineSimilarity_exact.
  destruct (List.length a =? List.length b)%nat eqn:E; [|reflexivity].
  apply Nat.eqb_eq in E. simpl negb. cbv iota.
  rewrite squaresA_combine, squaresB_combine by exact E.
  destruct (Req_dec_T (R_sqrt.sqrt (sumOfSquares a)) 0) as [|HA]; [reflexivity|].
  destruct (Req_dec_T (R_sqrt.sqrt (sumOfSquares b)) 0) as [|HB]; [reflexivity|].
  destruct Hz; contradiction.
Qed.

End Cosine.

(** On doubles a vector of magnitude zero is one whose components are all
    [+0] or [-0]; the loop then leaves its sum of squares at [+0]. *)
Definition signedZero (x : float) : Prop := x = 0%float \/ x = (-0)%float.

Lemma squares_loop_zero_b (l : list (float * float)) (d ma : float) :
  Forall (fun ab => signedZero (snd ab)) l ->
  snd (fold_left (VectorStore.cosineStep (N := Binary64)) l (d, ma, 0%float)) = 0%float.
Proof.
  revert d ma. induction l as [|[x y] l IH]; intros d ma H; simpl; [reflexivity|].
  inversion H as [|? ? Hy Hl]; subst. simpl in Hy.
  destruct Hy as [-> | ->]; apply IH, Hl.
Qed.

Lemma squares_loop_zero_a (l : list (float * float)) (d mb : float) :
  Forall (fun ab => signedZero (fst ab)) l ->
  snd (fst (fold_left (VectorStore.cosineStep (N := Binary64)) l (d, 0%float, mb)))
  = 0%float.
Proof.
  revert d mb. induction l as [|[x y] l IH]; intros d mb H; simpl; [reflexivity|].
  inversion H as [|? ? Hx Hl]; subst. simpl in Hx.
  destruct Hx as [-> | ->]; apply IH, Hl.
Qed.

Lemma Forall_combine_l {A B : Type} (P : A -> Prop) (a : list A) (b : list B) :
  Forall P a -> Forall (fun ab => P (fst ab)) (combine a b).
Proof.
  intros H. apply Forall_forall. intros [x y] Hin. simpl.
  rewrite Forall_forall in H. apply H. exact (in_combine_l _ _ _ _ Hin).
Qed.

Lemma Forall_combine_r {A B : Type} (P : B -> Prop) (a : list A) (b : list B) :
  Forall P b -> Forall (fun ab => P (snd ab)) (combine a b).
Proof.
  intros H. apply Forall_forall. intros [x y] Hin. simpl.
  rewrite Forall_forall in H. apply H. exact (in_combine_r _ _ _ _ Hin).
Qed.

Lemma cosineSimilarity_zero_binary64 (x y : list float) :
  Forall signedZero x \/ Forall signedZero y ->
  VectorStore.cosineSimilarity (N := Binary64) x y = 0%float.
Proof.
  intros Hz. unfold VectorStore.cosineSimilarity.
  destruct (negb (List.length x =? List.length y)%nat); [reflexivity|].
  change (ofZ 0) with 0%float.
  destruct Hz as [Hx | Hy].
  - pose proof (squares_loop_zero_a (combine x y) 0%float 0%float
                  (Forall_combine_l signedZero x y Hx)) as E.
    destruct (fold_left VectorStore.cosineStep (combine x y) (0%float, 0%float, 0%float))
      as [[d ma] mb].
    simpl in E. subst ma. reflexivity.
  - pose proof (squares_loop_zero_b (combine x y) 0%float 0%float
                  (Forall_combine_r signedZero x y Hy)) as E.
    destruct (fold_left VectorStore.cosineStep (combine x y) (0%float, 0%float, 0%float))
      as [[d ma] mb].
    simpl in E. subst mb.
    change (truthy (sqrt 0%float)) with false.
    rewrite andb_false_r. reflexivity.
Qed.

(** C6, amended: in exact arithmetic, for all vectors the cosine similarity
    lies in [-1, 1], a vector of positive magnitude has similarity 1 with
    itself, and when either vector has magnitude zero the similarity is 0;
    on doubles, when either vector holds zeros only the similarity is the
    number [+0], not NaN. *)
Theorem C6_cosine_similarity_bounds (a b : list R) (x y : list float) :
  (-1 <= VectorStore.cosineSimilarity (N := Exact) a b <= 1)%R
  /\ ((0 < magnitude a)%R -> VectorStore.cosineSimilarity (N := Exact) a a = 1%R)
  /\ (magnitude a = 0%R \/ magnitude b = 0%R ->
      VectorStore.cosineSimilarity (N := Exact) a b = 0%R)
  /\ (Forall signedZero x \/ Forall signedZero y ->
      VectorStore.cosineSimilarity (N := Binary64) x y = 0%float).
Proof.
  split; [apply cosineSimilarity_range|].
  split; [apply cosineSimilarity_self|].
  split; [apply cosineSimilarity_zero | apply cosineSimilarity_zero_binary64].
Qed.

Lemma C6_cosine_similarity_bounds_witness :
  (-1 <= VectorStore.cosineSimilarity (N := Exact) [3%R; 4%R] [4%R; 3%R] <= 1)%R
  /\ VectorStore.cosineSimilarity (N := Exact) [3%R; 4%R] [3%R; 4%R] = 1%R
  /\ VectorStore.cosineSimilarity (N := Exact) [0%R; 0%R] [4%R; 3%R] = 0%R
  /\ VectorStore.cosineSimilarity (N := Binary64) [1%float; 2%float] [0%float; (-0)%float] = 0%float.
Proof.
  split; [apply (C6_cosine_similarity_bounds [3%R; 4%R] [4%R; 3%R] [] [])|].
  split.
  { apply (C6_cosine_similarity_bounds [3%R; 4%R] [4%R; 3%R] [] []).
    unfold magnitude. simpl. apply sqrt_lt_R0. lra. }
  split.
  { apply (C6_cosine_similarity_bounds [0%R; 0%R] [4%R; 3%R] [] []).
    left. unfold magnitude. simpl.
    replace (0 * 0 + (0 * 0 + 0))%R with 0%R by lra. apply sqrt_0. }
  apply (C6_cosine_similarity_bounds [] [] [1%float; 2%float] [0%float; (-0)%float]).
  right. constructor; [left; reflexivity|].
  constructor; [right; reflexivity | constructor].
Defined.

(** C6, on doubles: the value can leave [-1, 1] and a vector's similarity
    with itself can be far from 1.  The vector [0.1, 0.6] has similarity
    1.0000000000000002 with itself, above 1; for [1e200] the squares overflow
    and the similarity with itself is NaN; for [1e-200] they underflow to 0
    and the similarity with itself is 0. *)
Lemma C6_cosine_leaves_range_on_doubles :
  VectorStore.cosineSimilarity (N := Binary64) [0.1%float; 0.6%float] [0.1%float; 0.6%float]
  = 1.0000000000000002%float
  /\ PrimFloat.leb
       (VectorStore.cosineSimilarity (N := Binary64)
          [0.1%float; 0.6%float] [0.1%float; 0.6%float]) 1%float = false
  /\ PrimFloat.is_nan
       (VectorStore.cosineSimilarity (N := Binary64) [1e200%float] [1e200%float]) = true
  /\ VectorStore.cosineSimilarity (N := Binary64) [1e-200%float] [1e-200%float] = 0%float.
Proof.
  repeat split; vm_compute; reflexivity.
Qed.

(** ** C7: the order of the results of [search] *)

From Stdlib Require Import Permutation.

Lemma StronglySorted_weaken {A : Type} (R1 R2 : A -> A -> Prop) (l : list A) :
  (forall x y, R1 x y -> R2 x y) -> StronglySorted R1 l -> StronglySorted R2 l.
Proof.
  intros HR HS. induction HS as [|x l HS IH Hx]; constructor.
  - exact IH.
  - apply Forall_forall. rewrite Forall_forall in Hx. intros y Hy. apply HR, Hx, Hy.
Qed.

Lemma StronglySorted_weaken_In {A : Type} (R1 R2 : A -> A -> Prop) (l : list A) :
  (forall x y, In x l -> In y l -> R1 x y -> R2 x y) ->
  StronglySorted R1 l -> StronglySorted R2 l.
Proof.
  intros HR HS. induction HS as [|x l HS IH Hx]; constructor.
  - apply IH. intros a b Ha Hb. apply HR; right; assumption.
  - apply Forall_forall. rewrite Forall_forall in Hx. intros y Hy.
    apply HR; [left; reflexivity | right; exact Hy | apply Hx, Hy].
Qed.

Lemma StronglySorted_before {A : Type} (R : A -> A -> Prop) (x y : A) (l : list A) :
  StronglySorted R l -> before x y l -> R x y.
Proof.
  induction 1 as [|z l HS IH Hz]; intros Hb.
  - exfalso. exact (before_nil _ _ Hb).
  - apply before_inv in Hb as [[-> Hy] | Hb]; [|exact (IH Hb)].
    rewrite Forall_forall in Hz. exact (Hz y Hy).
Qed.


Lemma before_app_both {A : Type} (x y : A) (l l' : list A) :
  In x l -> In y l' -> before x y (l ++ l').
Proof.
  intros Hx Hy.
  apply in_split in Hx as (u & v & ->). apply in_split in Hy as (w & z & ->).
  exists u, (v ++ w)%list, z. rewrite <- !app_assoc. reflexivity.
Qed.

(** Sorting an array on which the comparator is consistent. *)
Section StableSortOn.
Variable A : Type.
Variable after : A -> A -> bool.



Lemma insert_sorted_on (x : A) (l : list A) :
  (forall b, In b l -> after x b = true -> after b x = false) ->
  (forall b c, In b l -> In c l ->
     after x b = false -> after b c = false -> after x c = false) ->
  StronglySorted (inOrder A after) l ->
  StronglySorted (inOrder A after) (JsArray.insert after x l).
Proof.
  induction l as [|z l IH]; simpl; intros Hasym Htrans HS.
  - constructor; constructor.
  - inversion HS as [|? ? HS' Hz]; subst.
    destruct (after x z) eqn:E.
    + constructor.
      * apply IH; [| |exact HS'].
        -- intros b Hb. apply Hasym. right. exact Hb.
        -- intros b c Hb Hc. apply Htrans; right; assumption.
      * apply Forall_forall. intros y Hy. apply insert_In in Hy as [-> | Hy].
        -- apply Hasym; [left; reflexivity | exact E].
        -- rewrite Forall_forall in Hz. apply Hz, Hy.
    + constructor; [exact HS|].
      constructor; [exact E|].
      rewrite Forall_forall in Hz |- *. intros y Hy.
      apply (Htrans z y); [left; reflexivity | right; exact Hy | exact E | apply Hz, Hy].
Qed.

Lemma sort_sorted_on (l : list A) :
  (forall a b, In a l -> In b l -> after a b = true -> after b a = false) ->
  (forall a b c, In a l -> In b l -> In c l ->
     after a b = false -> after b c = false -> after a c = false) ->
  StronglySorted (inOrder A after) (JsArray.sort after l).
Proof.
  induction l as [|x l IH]; intros Hasym Htrans; simpl; [constructor|].
  apply insert_sorted_on.
  - intros b Hb. apply sort_In in Hb. apply Hasym; [left; reflexivity | right; exact Hb].
  - intros b c Hb Hc. apply sort_In in Hb. apply sort_In in Hc.
    apply Htrans; [left; reflexivity | right; exact Hb | right; exact Hc].
  - apply IH.
    + intros a b Ha Hb. apply Hasym; right; assumption.
    + intros a b c Ha Hb Hc. apply Htrans; right; assumption.
Qed.

End StableSortOn.

Section Ranking.
Context {num : Type} {N : Number num}.
Import VectorStore.

(** The numbers [xs] are totally ordered by [<=] (so none of them is NaN),
    and the sign of the difference of two of them tells their order (so no
    difference is NaN): on similarities such as these the comparator of
    [search], [(a, b) => b.similarity - a.similarity], is a consistent
    comparison, positive exactly when [b] is the more similar and negative
    exactly when [a] is. *)
Definition comparable (xs : list num) : bool :=
  forallb
    (fun x =>
       forallb
         (fun y =>
            Bool.eqb (gtb (y - x)%num (ofZ 0)) (negb (leb y x))
            && Bool.eqb (ltb (y - x)%num (ofZ 0)) (negb (leb x y))
            && (leb x y || leb y x)
            && forallb (fun z => implb (leb x y && leb y z) (leb x z)) xs)
         xs)
    xs.

Lemma comparable_spec (xs : list num) (x y : num) :
  comparable xs = true -> In x xs -> In y xs ->
  gtb (y - x)%num (ofZ 0) = negb (leb y x)
  /\ (leb x y = true \/ leb y x = true)
  /\ forall z, In z xs -> leb x y = true -> leb y z = true -> leb x z = true.
Proof.
  unfold comparable. intros H Hx Hy.
  rewrite forallb_forall in H. specialize (H x Hx).
  rewrite forallb_forall in H. specialize (H y Hy).
  apply andb_true_iff in H as [H H3]. apply andb_true_iff in H as [H H2].
  apply andb_true_iff in H as [H1 _].
  split; [apply Bool.eqb_prop, H1|].
  split; [apply orb_true_iff, H2|].
  intros z Hz Hxy Hyz. rewrite forallb_forall in H3. specialize (H3 z Hz).
  rewrite Hxy, Hyz in H3. exact H3.
Qed.

(** [a] is at least as similar as [b]. *)
Definition atLeast (a b : Scored num) : Prop := leb (similarity b) (similarity a) = true.

Section OnComparable.
Variable l : list (Scored num).
Hypothesis Hcomparable : comparable (map similarity l) = true.

Lemma bySimilarity_order (a b : Scored num) :
  In a l -> In b l -> bySimilarity a b = negb (leb (similarity b) (similarity a)).
Proof.
  intros Ha Hb.
  exact (proj1 (comparable_spec _ (similarity a) (similarity b) Hcomparable
                  (in_map similarity l a Ha) (in_map similarity l b Hb))).
Qed.

Lemma similarity_total (a b : Scored num) :
  In a l -> In b l ->
  leb (similarity a) (similarity b) = true \/ leb (similarity b) (similarity a) = true.
Proof.
  intros Ha Hb.
  exact (proj1 (proj2 (comparable_spec _ (similarity a) (similarity b) Hcomparable
                         (in_map similarity l a Ha) (in_map similarity l b Hb)))).
Qed.

Lemma similarity_trans (a b c : Scored num) :
  In a l -> In b l -> In c l ->
  leb (similarity a) (similarity b) = true -> leb (similarity b) (similarity c) = true ->
  leb (similarity a) (similarity c) = true.
Proof.
  intros Ha Hb Hc.
  exact (proj2 (proj2 (comparable_spec _ (similarity a) (similarity b) Hcomparable
                         (in_map similarity l a Ha) (in_map similarity l b Hb)))
           (similarity c) (in_map similarity l c Hc)).
Qed.

Lemma sort_descending : StronglySorted atLeast (JsArray.sort bySimilarity l).
Proof.
  apply StronglySorted_weaken_In with (R1 := inOrder (Scored num) bySimilarity).
  - intros a b Ha Hb H. apply sort_In in Ha. apply sort_In in Hb.
    unfold inOrder in H. rewrite (bySimilarity_order a b Ha Hb) in H.
    apply negb_false_iff in H. exact H.
  - apply sort_sorted_on.
    + intros a b Ha Hb H.
      rewrite (bySimilarity_order a b Ha Hb) in H. apply negb_true_iff in H.
      rewrite (bySimilarity_order b a Hb Ha). apply negb_false_iff.
      destruct (similarity_total a b Ha Hb) as [H' | H']; [exact H'|].
      rewrite H' in H. discriminate.
    + intros a b c Ha Hb Hc H1 H2.
      rewrite (bySimilarity_order a b Ha Hb) in H1. apply negb_false_iff in H1.
      rewrite (bySimilarity_order b c Hb Hc) in H2. apply negb_false_iff in H2.
      rewrite (bySimilarity_order a c Ha Hc). apply negb_false_iff.
      exact (similarity_trans c b a Hc Hb Ha H2 H1).
Qed.



End OnComparable.


End Ranking.

(** In exact arithmetic all numbers are comparable. *)
Lemma comparable_exact (xs : list R) : comparable (N := Exact) xs = true.
Proof.
  unfold comparable. apply forallb_forall. intros x _.
  apply forallb_forall. intros y _.
  unfold gtb. cbn [ltb leb sub ofZ Exact]. unfold Ex.ltb, Ex.leb.
  apply andb_true_iff. split; [apply andb_true_iff; split; [apply andb_true_iff; split|]|].
  - destruct (Rlt_dec 0 (y - x)), (Rle_dec y x); try reflexivity; exfalso; lra.
  - destruct (Rlt_dec (y - x) 0), (Rle_dec x y); try reflexivity; exfalso; lra.
  - destruct (Rle_dec x y), (Rle_dec y x); try reflexivity; exfalso; lra.
  - apply forallb_forall. intros z _.
    destruct (Rle_dec x y), (Rle_dec y z), (Rle_dec x z); try reflexivity; exfalso; lra.
Qed.








(** ** C9: [searchWithQuery] filters what [search] has already cut *)

(** Every eligible stored record that passes the filters, found or not. *)
Definition matching {num : Type} {N : Number num} (q : string)
  (ids : option (list string)) (filters : VectorStore.Filters num)
  (st : VectorStore.Store num) : list (VectorStore.Scored num) :=
  VectorStore.filterMinSimilarity filters
    (VectorStore.filterContentType filters
       (VectorStore.scoreAll (VectorStore.simulateEmbedding q) ids st)).

(** Ten paragraphs [alpha], then one image-text record [alpha beta]. *)
Definition tenParagraphs : string :=
  Js.join (Js.nl ++ Js.nl) (repeat "alpha"%string 10).

Definition crowdedStore : VectorStore.Store float :=
  stored "doc2" (createChunks "alpha beta" "image" noMetadata)
    (stored "doc1" (createChunks tenParagraphs "pdf" noMetadata) VectorStore.empty).

Definition visualOnly : VectorStore.Filters float :=
  {| VectorStore.contentType := Some "visual_context"%string;
     VectorStore.minSimilarity := VectorStore.Given (dec 3 10) |}.

Definition floorOnly : VectorStore.Filters float :=
  {| VectorStore.contentType := None;
     VectorStore.minSimilarity := VectorStore.Given (dec 3 10) |}.

(** C9: [searchWithQuery] applies its filters to the list [search] returns
    for the query's embedding and the limit 10, and to nothing else.  That
    list holds ten of the eligible records, or all of them when they are
    fewer, each with its cosine similarity; whenever the similarities are
    comparable it is sorted by descending similarity and no eligible record
    left out of it is more similar than one in it.  So the result can miss
    records that pass the filters.  With ten paragraphs of similarity 1
    stored before an image-text record of similarity about 0.71: under a
    [minSimilarity] of 0.3 all eleven records pass, and the ten paragraphs
    are returned; filtered to [visual_context] as well, nothing is returned,
    although the image-text record passes both filters. *)
Theorem C9_filters_apply_after_truncation :
  (forall (num : Type) (N : Number num) (q : string) (ids : option (list string))
          (filters : VectorStore.Filters num) (st : VectorStore.Store num),
      exists top,
        VectorStore.search (VectorStore.simulateEmbedding q) ids 10 st = Normal top
        /\ List.length top = Nat.min 10 (List.length (eligible ids st))
        /\ Forall (fun r =>
                     In (VectorStore.data r) (eligible ids st)
                     /\ VectorStore.similarity r
                        = VectorStore.cosineSimilarity (VectorStore.simulateEmbedding q)
                            (VectorStore.embedding (VectorStore.data r)))
             top
        /\ (comparable
              (map VectorStore.similarity
                 (VectorStore.scoreAll (VectorStore.simulateEmbedding q) ids st)) = true ->
            StronglySorted atLeast top
            /\ forall r x,
                 In r top ->
                 In x (VectorStore.scoreAll (VectorStore.simulateEmbedding q) ids st) ->
                 ~ In x top -> atLeast r x)
        /\ VectorStore.searchWithQuery q ids filters st
           = Normal (map VectorStore.project
                       (VectorStore.filterMinSimilarity filters
                          (VectorStore.filterContentType filters top))))
  /\ List.length (VectorStore.vectors crowdedStore) = 11
  /\ comparable
       (map VectorStore.similarity
          (VectorStore.scoreAll (VectorStore.simulateEmbedding "alpha") None crowdedStore))
     = true
  /\ List.length (matching "alpha" None floorOnly crowdedStore) = 11
  /\ (exists results,
        VectorStore.searchWithQuery "alpha" None floorOnly crowdedStore = Normal results
        /\ List.length results = 10
        /\ Forall (fun r => VectorStore.r_content r = "alpha"%string
                            /\ VectorStore.r_type r = "paragraph"%string
                            /\ VectorStore.r_similarity r = 1%float)
             results)
  /\ VectorStore.searchWithQuery "alpha" None visualOnly crowdedStore = Normal []
  /\ exists r,
       matching "alpha" None visualOnly crowdedStore = [r]
       /\ VectorStore.vd_content (VectorStore.data r) = "alpha beta"%string
       /\ VectorStore.vd_type (VectorStore.data r) = "visual_context"%string
       /\ PrimFloat.leb (dec 7 10) (VectorStore.similarity r) = true.
Proof.
  split.
  - intros num N q ids filters st.
    set (e := VectorStore.simulateEmbedding q).
    exists (JsArray.slice0 10 (JsArray.sort VectorStore.bySimilarity
                                 (VectorStore.scoreAll e ids st))).
    split; [reflexivity|]. split.
    { unfold JsArray.slice0.
      rewrite length_firstn, sort_length, scoreAll_eligible, length_map. reflexivity. }
    split.
    { apply Forall_forall. intros r Hr.
      destruct (search_members e ids 10 st _ r eq_refl Hr) as [Hin E].
      split; [exact Hin|]. rewrite E at 1. reflexivity. }
    split; [|reflexivity].
    intros Hc. split.
    { apply StronglySorted_firstn, (sort_descending _ Hc). }
    intros r x Hr Hx Hout.
    apply (StronglySorted_before _ _ _ _ (sort_descending _ Hc)).
    rewrite <- (firstn_skipn 10 (JsArray.sort _ (VectorStore.scoreAll e ids st))).
    apply before_app_both; [exact Hr|].
    assert (Hs : In x (JsArray.sort VectorStore.bySimilarity (VectorStore.scoreAll e ids st)))
      by (apply sort_In; exact Hx).
    rewrite <- (firstn_skipn 10 (JsArray.sort _ (VectorStore.scoreAll e ids st))) in Hs.
    apply in_app_or in Hs as [Hs | Hs]; [contradiction | exact Hs].
  - split; [vm_compute; reflexivity|].
    split; [vm_compute; reflexivity|].
    split; [vm_compute; reflexivity|].
    split.
    { eexists. split; [vm_compute; reflexivity|]. split; [reflexivity|].
      repeat (constructor; [repeat split|]). constructor. }
    split; [vm_compute; reflexivity|].
    eexists. split; [vm_compute; reflexivity|].
    repeat split.
Qed.

(** ** C8: the reranking score, in exact arithmetic *)

Section Rerank.
Import VectorStore RAGPipeline.
Local Open Scope R_scope.

(** The bonus added for a [visual_context] chunk when the query mentions
    [table]. *)
Definition typeBonus (q : string) (c : Retrieved R) : R :=
  if tableBoost q (r_type c) then 1 / 10 else 0.

(** The score as the specification words it: the type bonus of 0.1 enters
    with weight 0.1. *)
Definition specifiedScore (q : string) (c : Retrieved R) : R :=
  r_similarity c
  + 2 / 10 * keywordOverlap (N := Exact) q (r_content c)
  + 1 / 10 * typeBonus q c
  + 5 / 100 * lengthScore (N := Exact) (r_content c).

Lemma rerankScore_exact (q : string) (c : Retrieved R) :
  rerankScore (N := Exact) q c
  = r_similarity c
    + 2 / 10 * keywordOverlap (N := Exact) q (r_content c)
    + typeBonus q c
    + 5 / 100 * lengthScore (N := Exact) (r_content c).
Proof.
  unfold rerankScore, typeBonus, dec. cbn [add mul div ofZ Exact].
  destruct (tableBoost q (r_type c)); lra.
Qed.

Lemma byRerankedScore_true (a b : Reranked R) :
  byRerankedScore (N := Exact) a b = true <-> rerankedScore a < rerankedScore b.
Proof.
  unfold byRerankedScore, gtb. cbn [ltb ofZ sub Exact]. unfold Ex.ltb.
  destruct (Rlt_dec 0 (rerankedScore b - rerankedScore a)); split; intros H;
    try reflexivity; try discriminate; lra.
Qed.

Lemma byRerankedScore_false (a b : Reranked R) :
  byRerankedScore (N := Exact) a b = false <-> rerankedScore a >= rerankedScore b.
Proof.
  pose proof (byRerankedScore_true a b) as H.
  destruct (byRerankedScore a b); split; intros H'; try reflexivity; try discriminate.
  - assert (rerankedScore a < rerankedScore b) by (apply H; reflexivity). lra.
  - destruct (Rlt_dec (rerankedScore a) (rerankedScore b)) as [Hlt|Hge]; [|lra].
    apply H in Hlt. discriminate.
Qed.

Lemma rerank_sorted (l : list (Reranked R)) :
  StronglySorted (fun a b => rerankedScore a >= rerankedScore b)
    (JsArray.sort (byRerankedScore (N := Exact)) l).
Proof.
  apply StronglySorted_weaken with (R1 := inOrder (Reranked R) byRerankedScore).
  - intros x y H. apply byRerankedScore_false, H.
  - apply sort_sorted.
    + intros a b H. apply byRerankedScore_true in H. apply byRerankedScore_false. lra.
    + intros a b c H1 H2. apply byRerankedScore_false in H1, H2.
      apply byRerankedScore_false. lra.
Qed.

End Rerank.

(** A [visual_context] candidate, and a query that mentions [table]. *)
Definition tableChunk : VectorStore.Retrieved R :=
  {| VectorStore.r_content := "Quarterly sales table";
     VectorStore.r_similarity := (1 / 2)%R;
     VectorStore.r_documentId := "doc1";
     VectorStore.r_chunkId := 1;
     VectorStore.r_metadata := {| sourceType := "image";
                                  chunkType := "visual_context";
                                  visualElements := Some [];
                                  charts := Some [] |};
     VectorStore.r_type := "visual_context" |}.

Definition tableQuery : string := "show me the table".

(** C8, as stated, fails: for a [visual_context] chunk and a query mentioning
    [table] the code's score exceeds the specified one by 0.09, the bonus
    being added whole and not weighted by 0.1. *)
Lemma C8_type_bonus_is_not_weighted :
  exists r,
    RAGPipeline.rerank (N := Exact) tableQuery [tableChunk] = Normal [r]
    /\ RAGPipeline.chunk r = tableChunk
    /\ RAGPipeline.rerankedScore r = (specifiedScore tableQuery tableChunk + 9 / 100)%R
    /\ RAGPipeline.rerankedScore r <> specifiedScore tableQuery tableChunk.
Proof.
  eexists. split; [reflexivity|]. split; [reflexivity|].
  cbn [RAGPipeline.rerankedScore].
  rewrite rerankScore_exact. unfold specifiedScore, typeBonus.
  assert (E : RAGPipeline.tableBoost tableQuery (VectorStore.r_type tableChunk) = true)
    by reflexivity.
  rewrite E. split; lra.
Qed.

(** C8, amended: [rerank] gives every candidate the score
    similarity + 0.2 * (keyword overlap ratio) + type bonus + 0.05 * (length
    score), where the type bonus is 0.1 when the raw query mentions [table]
    and the chunk's type is [visual_context] and 0 otherwise (added as it is,
    with no further weight); it returns the candidates, each with its score,
    sorted by that score, highest first. *)
Theorem C8_rerank_score_and_order (q : string) (chunks : list (VectorStore.Retrieved R)) :
  exists reranked,
    RAGPipeline.rerank (N := Exact) q chunks = Normal reranked
    /\ (forall r, In r reranked ->
          In (RAGPipeline.chunk r) chunks
          /\ RAGPipeline.rerankedScore r
             = (VectorStore.r_similarity (RAGPipeline.chunk r)
                + 2 / 10 * RAGPipeline.keywordOverlap (N := Exact) q
                             (VectorStore.r_content (RAGPipeline.chunk r))
                + (if RAGPipeline.tableBoost q (VectorStore.r_type (RAGPipeline.chunk r))
                   then 1 / 10 else 0)
                + 5 / 100 * RAGPipeline.lengthScore (N := Exact)
                              (VectorStore.r_content (RAGPipeline.chunk r)))%R)
    /\ List.length reranked = List.length chunks
    /\ StronglySorted
         (fun a b => (RAGPipeline.rerankedScore a >= RAGPipeline.rerankedScore b)%R)
         reranked.
Proof.
  eexists. split; [reflexivity|]. split; [|split].
  - intros r Hr. apply sort_In, in_map_iff in Hr as (c & <- & Hc).
    cbn [RAGPipeline.chunk RAGPipeline.rerankedScore]. split; [exact Hc|].
    apply rerankScore_exact.
  - rewrite sort_length, length_map. reflexivity.
  - apply rerank_sorted.
Qed.

Lemma C8_rerank_score_and_order_witness :
  exists reranked r,
    RAGPipeline.rerank (N := Exact) tableQuery [tableChunk] = Normal reranked
    /\ In r reranked
    /\ RAGPipeline.chunk r = tableChunk
    /\ RAGPipeline.rerankedScore r
       = (1 / 2
          + 2 / 10 * RAGPipeline.keywordOverlap (N := Exact) tableQuery
                       "Quarterly sales table"
          + 1 / 10
          + 5 / 100 * RAGPipeline.lengthScore (N := Exact) "Quarterly sales table")%R.
Proof.
  destruct (C8_rerank_score_and_order tableQuery [tableChunk])
    as (reranked & E & Hscore & Hlen & Hsorted).
  destruct reranked as [|r [|r' rest]]; simpl in Hlen; try discriminate.
  exists [r], r. split; [exact E|]. split; [left; reflexivity|].
  destruct (Hscore r (or_introl eq_refl)) as [Hin Hs].
  destruct Hin as [Hc | []]. split; [symmetry; exact Hc|].
  rewrite Hs, <- Hc. reflexivity.
Defined.

(** ** C5: the ranges of the four metrics, in exact arithmetic *)

Section MetricRanges.
Import RAGPipeline EvaluationMetrics.
Local Open Scope R_scope.

Lemma ofNat_exact (n : nat) : ofNat (N := Exact) n = INR n.
Proof.
  unfold ofNat. cbn [ofZ Exact]. symmetry. apply INR_IZR_INZ.
Qed.

(** A count over a larger, positive count. *)
Lemma ratio_range (k n : nat) :
  (k <= n)%nat -> (0 < n)%nat -> 0 <= INR k / INR n <= 1.
Proof.
  intros Hk Hn. apply lt_INR in Hn. simpl in Hn. apply le_INR in Hk.
  pose proof (pos_INR k) as Hp. split.
  - apply Rmult_le_reg_r with (INR n); [exact Hn|].
    unfold Rdiv. rewrite Rmult_assoc, Rinv_l by lra. lra.
  - apply Rmult_le_reg_r with (INR n); [exact Hn|].
    unfold Rdiv. rewrite Rmult_assoc, Rinv_l by lra. lra.
Qed.

Lemma filter_length_le {A : Type} (p : A -> bool) (l : list A) :
  (List.length (filter p l) <= List.length l)%nat.
Proof.
  induction l as [|x l IH]; simpl; [lia|]. destruct (p x); simpl; lia.
Qed.

Lemma sumBy_from {A : Type} (f : A -> R) (l : list A) (acc : R) :
  Forall (fun x => 0 <= f x <= 1) l ->
  acc <= fold_left (fun sum x => add (Number := Exact) sum (f x)) l acc
      <= acc + INR (List.length l).
Proof.
  revert acc. induction l as [|x l IH]; intros acc H.
  - simpl. lra.
  - inversion H as [|? ? Hx Hl]; subst.
    specialize (IH (acc + f x) Hl).
    change (fold_left (fun sum x => add (Number := Exact) sum (f x)) (x :: l) acc)
      with (fold_left (fun sum x => add (Number := Exact) sum (f x)) l (acc + f x)).
    rewrite length_cons, S_INR. lra.
Qed.

Lemma sumBy_range {A : Type} (f : A -> R) (l : list A) :
  Forall (fun x => 0 <= f x <= 1) l ->
  0 <= sumBy (N := Exact) f l <= INR (List.length l).
Proof.
  intros H. unfold sumBy. pose proof (sumBy_from f l 0 H) as B.
  cbn [ofZ Exact]. lra.
Qed.

Lemma mean_range {A : Type} (f : A -> R) (l : list A) :
  l <> [] -> Forall (fun x => 0 <= f x <= 1) l ->
  0 <= sumBy (N := Exact) f l / INR (List.length l) <= 1.
Proof.
  intros Hne H. pose proof (sumBy_range f l H) as B.
  assert (Hn : 0 < INR (List.length l)).
  { destruct l; [contradiction|]. rewrite length_cons, S_INR.
    pose proof (pos_INR (List.length l)). lra. }
  split.
  - apply Rmult_le_reg_r with (INR (List.length l)); [exact Hn|].
    unfold Rdiv. rewrite Rmult_assoc, Rinv_l by lra. lra.
  - apply Rmult_le_reg_r with (INR (List.length l)); [exact Hn|].
    unfold Rdiv. rewrite Rmult_assoc, Rinv_l by lra. lra.
Qed.

Lemma orDefault_range (x : R) :
  0 <= x <= 1 -> 0 <= orDefault (N := Exact) x (dec 5 10) <= 1.
Proof.
  intros H. unfold orDefault, dec. cbn [truthy div ofZ Exact]. unfold Ex.truthy.
  destruct (Req_dec_T x 0); lra.
Qed.

Lemma faithfulness_range (answer : Answer R) (context : string) :
  0 <= calculateFaithfulness (N := Exact) answer context <= 1.
Proof.
  unfold calculateFaithfulness.
  destruct (String.length context =? 0)%nat; [cbn; lra|].
  match goal with
  | |- context [filter ?p ?l] => set (words := l); set (grounded := filter p words)
  end.
  destruct (0 <? List.length words)%nat eqn:E; [|cbn; lra].
  apply Nat.ltb_lt in E. rewrite !ofNat_exact.
  apply ratio_range; [apply filter_length_le | exact E].
Qed.

Lemma contextRecall_range (sources : list (Source R)) (context : string) :
  0 <= calculateContextRecall (N := Exact) sources context <= 1.
Proof.
  unfold calculateContextRecall.
  destruct (List.length sources =? 0)%nat; [cbn; lra|].
  destruct (0 <? List.length sources)%nat eqn:E; [|cbn; lra].
  apply Nat.ltb_lt in E. rewrite !ofNat_exact.
  apply ratio_range; [apply filter_length_le | exact E].
Qed.

Lemma answerRelevancy_range (answer : Answer R) (sources : list (Source R)) :
  Forall (fun s => 0 <= s_similarity s <= 1) sources ->
  0 <= confidence answer <= 1 ->
  0 <= calculateAnswerRelevancy (N := Exact) answer sources <= 1.
Proof.
  intros Hs Hc. unfold calculateAnswerRelevancy.
  destruct (List.length sources =? 0)%nat eqn:E; [cbn; lra|].
  assert (Hne : sources <> []) by (intros ->; discriminate).
  pose proof (mean_range (fun source => s_similarity source) sources Hne Hs) as Hm.
  pose proof (orDefault_range (confidence answer) Hc) as Hd.
  rewrite ofNat_exact. cbn [add div ofZ Exact]. lra.
Qed.

(** The loop of [calculateContextPrecision]: each relevant source adds at
    most 1, as no more sources are relevant than have been seen. *)
Lemma precision_loop (sources : list (Source R)) (c : R) (found index : nat) :
  (found <= index)%nat ->
  let '(c', _, _) :=
    fold_left (precisionStep (N := Exact)) sources (c, found, index) in
  c <= c' <= c + INR (List.length
                        (filter (fun s => gtb (N := Exact) (s_similarity s) (dec 5 10))
                           sources)).
Proof.
  revert c found index. induction sources as [|s l IH]; intros c found index Hf.
  - simpl. lra.
  - cbn [fold_left filter]. unfold precisionStep at 2.
    destruct (gtb (s_similarity s) (dec 5 10)).
    + specialize (IH (add c (div (ofNat (S found)) (ofNat (index + 1)))) (S found)
                    (S index) ltac:(lia)).
      destruct (fold_left precisionStep l
                  (add c (div (ofNat (S found)) (ofNat (index + 1))), S found, S index))
        as [[c' f'] i'].
      rewrite length_cons, S_INR.
      assert (Hr : 0 <= INR (S found) / INR (index + 1) <= 1)
        by (apply ratio_range; lia).
      rewrite !ofNat_exact in IH. cbn [add div Exact] in IH. lra.
    + specialize (IH c found (S index) ltac:(lia)).
      destruct (fold_left precisionStep l (c, found, S index)) as [[c' f'] i'].
      exact IH.
Qed.

Lemma contextPrecision_range (sources : list (Source R)) :
  0 <= calculateContextPrecision (N := Exact) sources <= 1.
Proof.
  unfold calculateContextPrecision.
  destruct (List.length sources =? 0)%nat; [cbn; lra|].
  pose proof (precision_loop sources 0 0%nat 0%nat (Nat.le_refl 0)) as H.
  change (ofZ (Number := Exact) 0) with 0.
  destruct (fold_left precisionStep sources (0, 0%nat, 0%nat)) as [[c f] i].
  set (relevant := List.length (filter _ sources)) in *.
  destruct (0 <? relevant)%nat eqn:E; [|cbn; lra].
  apply Nat.ltb_lt, lt_INR in E. simpl in E.
  rewrite ofNat_exact. cbn [div Exact]. split.
  - apply Rmult_le_reg_r with (INR relevant); [exact E|].
    unfold Rdiv. rewrite Rmult_assoc, Rinv_l by lra. lra.
  - apply Rmult_le_reg_r with (INR relevant); [exact E|].
    unfold Rdiv. rewrite Rmult_assoc, Rinv_l by lra. lra.
Qed.

End MetricRanges.

(** C5: on an answer with confidence in [0, 1] and sources with
    similarities in [0, 1], faithfulness, answer relevancy, context recall and
    context precision all lie in [0, 1]; with a source and a non-zero
    confidence, answer relevancy is the average of the mean source similarity
    and the confidence. *)
Theorem C5_metrics_within_unit_interval (answer : RAGPipeline.Answer R)
  (sources : list (RAGPipeline.Source R)) (context : string) :
  Forall (fun s => (0 <= RAGPipeline.s_similarity s <= 1)%R) sources ->
  (0 <= RAGPipeline.confidence answer <= 1)%R ->
  (0 <= EvaluationMetrics.calculateFaithfulness (N := Exact) answer context <= 1)%R
  /\ (0 <= EvaluationMetrics.calculateAnswerRelevancy (N := Exact) answer sources <= 1)%R
  /\ (0 <= EvaluationMetrics.calculateContextRecall (N := Exact) sources context <= 1)%R
  /\ (0 <= EvaluationMetrics.calculateContextPrecision (N := Exact) sources <= 1)%R
  /\ (sources <> [] -> RAGPipeline.confidence answer <> 0%R ->
      EvaluationMetrics.calculateAnswerRelevancy (N := Exact) answer sources
      = ((sumBy (N := Exact) (fun s => RAGPipeline.s_similarity s) sources
          / INR (List.length sources)
          + RAGPipeline.confidence answer) / 2)%R).
Proof.
  intros Hs Hc.
  split; [apply faithfulness_range|].
  split; [apply answerRelevancy_range; assumption|].
  split; [apply contextRecall_range|].
  split; [apply contextPrecision_range|].
  intros Hne Hnz. unfold EvaluationMetrics.calculateAnswerRelevancy.
  destruct sources as [|s l]; [contradiction|].
  cbn [List.length Nat.eqb]. rewrite ofNat_exact.
  unfold orDefault. cbn [truthy add div ofZ Exact]. unfold Ex.truthy.
  destruct (Req_dec_T (RAGPipeline.confidence answer) 0); [contradiction | reflexivity].
Qed.

(** An answer and two sources with valid scores. *)
Definition sampleAnswer : RAGPipeline.Answer R :=
  {| RAGPipeline.a_text := "Revenue grew strongly";
     RAGPipeline.confidence := (9 / 10)%R;
     RAGPipeline.a_intent := "general";
     RAGPipeline.contextUsed := true |}.

Definition sampleSource (similarity : R) : RAGPipeline.Source R :=
  {| RAGPipeline.s_content := "Revenue grew 10%.";
     RAGPipeline.s_similarity := similarity;
     RAGPipeline.s_documentId := "doc1";
     RAGPipeline.s_type := "paragraph";
     RAGPipeline.s_metadata := {| sourceType := "pdf";
                                  chunkType := "paragraph";
                                  visualElements := None;
                                  charts := None |} |}.

Definition sampleSources : list (RAGPipeline.Source R) :=
  [sampleSource (8 / 10)%R; sampleSource (6 / 10)%R].

Lemma C5_metrics_within_unit_interval_witness :
  (0 <= EvaluationMetrics.calculateFaithfulness (N := Exact) sampleAnswer
          "Revenue grew 10%." <= 1)%R
  /\ (0 <= EvaluationMetrics.calculateAnswerRelevancy (N := Exact) sampleAnswer
             sampleSources <= 1)%R
  /\ (0 <= EvaluationMetrics.calculateContextRecall (N := Exact) sampleSources
             "Revenue grew 10%." <= 1)%R
  /\ (0 <= EvaluationMetrics.calculateContextPrecision (N := Exact) sampleSources <= 1)%R
  /\ EvaluationMetrics.calculateAnswerRelevancy (N := Exact) sampleAnswer sampleSources
     = ((sumBy (N := Exact) (fun s => RAGPipeline.s_similarity s) sampleSources
         / INR (List.length sampleSources) + 9 / 10) / 2)%R.
Proof.
  assert (Hs : Forall (fun s => (0 <= RAGPipeline.s_similarity s <= 1)%R) sampleSources).
  { repeat constructor; simpl; lra. }
  assert (Hc : (0 <= RAGPipeline.confidence sampleAnswer <= 1)%R).
  { simpl. lra. }
  destruct (C5_metrics_within_unit_interval sampleAnswer sampleSources
              "Revenue grew 10%." Hs Hc) as (H1 & H2 & H3 & H4 & H5).
  split; [exact H1|]. split; [exact H2|]. split; [exact H3|]. split; [exact H4|].
  apply H5.
  - discriminate.
  - simpl. lra.
Defined.

(** ** C10: the report on an empty history, on doubles *)

(** C10: with no query recorded, every average of the detailed metrics is
    [0 / 0], which is NaN, and the three latency buckets are 0; nothing is
    raised. *)
Theorem C10_report_on_empty_history (pm : EvaluationMetrics.PerformanceMetrics float) :
  let report :=
    EvaluationMetrics.getPerformanceReport (N := Binary64)
      {| EvaluationMetrics.queryHistory := [];
         EvaluationMetrics.performanceMetrics := pm |} in
  let detailed := EvaluationMetrics.detailedMetrics report in
  PrimFloat.is_nan (EvaluationMetrics.avgFaithfulness detailed) = true
  /\ PrimFloat.is_nan (EvaluationMetrics.avgAnswerRelevancy detailed) = true
  /\ PrimFloat.is_nan (EvaluationMetrics.avgContextRecall detailed) = true
  /\ PrimFloat.is_nan (EvaluationMetrics.avgContextPrecision detailed) = true
  /\ EvaluationMetrics.latencyDistribution report
     = {| EvaluationMetrics.fast := 0;
          EvaluationMetrics.medium := 0;
          EvaluationMetrics.slow := 0 |}
  /\ EvaluationMetrics.overview report = pm.
Proof.
  repeat split.
Qed.

(* ================================================================== *)
(** * Further properties of the code *)

(** ** Strings *)

Lemma toLowerCaseChar_idempotent (c : ascii) :
  Js.toLowerCaseChar (Js.toLowerCaseChar c) = Js.toLowerCaseChar c.
Proof.
  destruct c as [[] [] [] [] [] [] [] []]; vm_compute; reflexivity.
Qed.

Lemma toLowerCase_idempotent (s : string) :
  Js.toLowerCase (Js.toLowerCase s) = Js.toLowerCase s.
Proof.
  induction s as [|c s IH]; simpl; [reflexivity|].
  rewrite toLowerCaseChar_idempotent, IH. reflexivity.
Qed.

Lemma splitRuns_nonempty (p : ascii -> bool) (s : string) : Js.splitRuns p s <> [].
Proof.
  induction s as [|c s IH]; simpl; [discriminate|].
  destruct (p c).
  - destruct (Js.startsWithClass p s); [exact IH | discriminate].
  - destruct (Js.splitRuns p s); discriminate.
Qed.

Lemma splitWhitespace_length (s : string) : 0 < List.length (Js.splitWhitespace s).
Proof.
  pose proof (splitRuns_nonempty Js.isWhiteSpace s) as H. unfold Js.splitWhitespace.
  destruct (Js.splitRuns Js.isWhiteSpace s); [contradiction | simpl; lia].
Qed.

Lemma arrayIncludes_In (arr : list string) (w : string) :
  Js.arrayIncludes arr w = true <-> In w arr.
Proof.
  unfold Js.arrayIncludes. rewrite existsb_exists. split.
  - intros (x & Hx & E). apply String.eqb_eq in E. subst. exact Hx.
  - intros H. exists w. split; [exact H | apply String.eqb_refl].
Qed.

(** ** createChunks: numbering and contents *)

Section Numbering.

(** The chunks made so far are numbered 1, 2, ... and [chunkId] is the next
    number. *)
Definition numbered (st : Chunking) : Prop :=
  map id (chunks st) = seq 1 (List.length (chunks st))
  /\ chunkId st = S (List.length (chunks st)).

Lemma numbered_start : numbered start.
Proof.
  split; reflexivity.
Qed.

Lemma numbered_push (st : Chunking) (c : Chunk) :
  numbered st -> id c = chunkId st ->
  numbered {| chunks := chunks st ++ [c]; chunkId := S (chunkId st) |}.
Proof.
  intros [Hids Hnext] Hc. unfold numbered. cbn [chunks chunkId].
  rewrite map_app, length_app, Hids. simpl. split.
  - rewrite Nat.add_1_r, seq_S. rewrite Hc, Hnext. reflexivity.
  - rewrite Hnext. lia.
Qed.

Lemma pushParagraph_numbered (srcType : string) (st : Chunking) (text : string) :
  numbered st -> numbered (pushParagraph srcType st text).
Proof.
  intros H. apply numbered_push; [exact H | reflexivity].
Qed.

Lemma sentences_numbered (srcType : string) (l : list string) (st : Chunking)
  (currentChunk : string) :
  numbered st ->
  numbered (fst (fold_left (sentenceStep srcType) l (st, currentChunk))).
Proof.
  revert st currentChunk. induction l as [|s l IH]; intros st cur H; [exact H|].
  cbn [fold_left]. unfold sentenceStep at 2.
  destruct (500 <? String.length (cur ++ s)).
  - apply IH. destruct (Js.truthyString cur);
      [apply pushParagraph_numbered, H | exact H].
  - apply IH, H.
Qed.

Lemma paragraphStep_numbered (srcType : string) (st : Chunking) (paragraph : string) :
  numbered st -> numbered (paragraphStep srcType st paragraph).
Proof.
  intros H. unfold paragraphStep. destruct (500 <? String.length paragraph).
  - unfold splitLongParagraph.
    pose proof (sentences_numbered srcType (Js.split ". " paragraph) st EmptyString H)
      as H'.
    destruct (fold_left (sentenceStep srcType) (Js.split ". " paragraph)
                (st, EmptyString)) as [st' cur'].
    cbn [fst] in H'. destruct (Js.truthyString cur');
      [apply pushParagraph_numbered, H' | exact H'].
  - apply pushParagraph_numbered, H.
Qed.

Lemma pushVisual_numbered (srcType : string) (aux : AuxMetadata) (st : Chunking)
  (w : list string) :
  numbered st -> numbered (pushVisual srcType aux st w).
Proof.
  intros H. apply numbered_push; [exact H | reflexivity].
Qed.

Lemma fold_numbered {A : Type} (step : Chunking -> A -> Chunking) (l : list A)
  (st : Chunking) :
  (forall st' a, numbered st' -> numbered (step st' a)) ->
  numbered st -> numbered (fold_left step l st).
Proof.
  intros Hstep. revert st. induction l as [|a l IH]; intros st H; [exact H|].
  cbn [fold_left]. apply IH, Hstep, H.
Qed.

End Numbering.

(** Whatever the text, the kind and the metadata, the chunks [createChunks]
    returns carry the ids 1, 2, ..., n in this order. *)
Theorem createChunks_ids_sequential (text srcType : string) (aux : AuxMetadata) :
  map id (createChunks text srcType aux)
  = seq 1 (List.length (createChunks text srcType aux)).
Proof.
  unfold createChunks. destruct (String.eqb srcType "pdf").
  - apply fold_numbered; [intros; apply paragraphStep_numbered; assumption|].
    apply numbered_start.
  - destruct (String.eqb srcType "image"); [|reflexivity].
    apply fold_numbered; [intros; apply pushVisual_numbered; assumption|].
    apply numbered_start.
Qed.

Lemma windows3_induction (P : list string -> Prop) :
  P [] -> (forall a, P [a]) -> (forall a b, P [a; b]) ->
  (forall a b c rest, P rest -> P (a :: b :: c :: rest)) ->
  forall l, P l.
Proof.
  intros H0 H1 H2 H3 l.
  assert (H : forall n l', List.length l' <= n -> P l').
  { induction n as [|n IH]; intros l' Hl.
    - destruct l'; [exact H0 | simpl in Hl; lia].
    - destruct l' as [|a [|b [|c rest]]]; [exact H0 | apply H1 | apply H2 |].
      apply H3, IH. simpl in Hl. lia. }
  exact (H (List.length l) l (Nat.le_refl _)).
Qed.

Lemma windows3_concat (l : list string) : List.concat (windows3 l) = l.
Proof.
  induction l as [| | |a b c rest IH] using windows3_induction; try reflexivity.
  cbn [windows3 List.concat]. rewrite IH. reflexivity.
Qed.

Lemma windows3_sizes (l : list string) :
  Forall (fun w => 1 <= List.length w <= 3) (windows3 l).
Proof.
  induction l as [| | |a b c rest IH] using windows3_induction.
  - constructor.
  - constructor; [simpl; lia | constructor].
  - constructor; [simpl; lia | constructor].
  - cbn [windows3]. constructor; [simpl; lia | exact IH].
Qed.

Lemma windows3_length (l : list string) :
  List.length (windows3 l) = (List.length l + 2) / 3.
Proof.
  induction l as [| | |a b c rest IH] using windows3_induction; try reflexivity.
  cbn [windows3 List.length]. rewrite IH.
  replace (S (S (S (List.length rest))) + 2) with (List.length rest + 2 + 1 * 3) by lia.
  rewrite Nat.div_add by discriminate. lia.
Qed.

(** What [createChunks] makes of one window of sentences. *)
Definition visualChunkOf (aux : AuxMetadata) (c : Chunk) (w : list string) : Prop :=
  content c = Js.join ". " w
  /\ type c = "visual_context"%string
  /\ visualElements (metadata c) = orEmpty (tables aux)
  /\ charts (metadata c) = orEmpty (aux_charts aux).

Lemma pushVisual_fold (aux : AuxMetadata) (ws pre : list (list string)) (st : Chunking) :
  Forall2 (visualChunkOf aux) (chunks st) pre ->
  Forall2 (visualChunkOf aux) (chunks (fold_left (pushVisual "image" aux) ws st))
    (pre ++ ws).
Proof.
  revert pre st. induction ws as [|w ws IH]; intros pre st H; cbn [fold_left].
  - rewrite app_nil_r. exact H.
  - replace (pre ++ w :: ws) with ((pre ++ [w]) ++ ws)
      by (rewrite <- app_assoc; reflexivity).
    apply IH. unfold pushVisual. cbn [chunks].
    apply Forall2_app; [exact H|]. constructor; [|constructor].
    repeat split.
Qed.

Lemma windows3_nth (l : list string) (i : nat) (w : list string) :
  nth_error (windows3 l) i = Some w -> w = firstn 3 (skipn (3 * i) l).
Proof.
  revert i w. induction l as [|a|a b|a b c rest IH] using windows3_induction;
    intros i w H.
  - destruct i; discriminate H.
  - destruct i as [|i]; [injection H as <-; reflexivity|]. destruct i; discriminate H.
  - destruct i as [|i]; [injection H as <-; reflexivity|]. destruct i; discriminate H.
  - destruct i as [|i]; [injection H as <-; reflexivity|].
    cbn [windows3 nth_error] in H. apply IH in H.
    replace (3 * S i) with (S (S (S (3 * i)))) by lia. exact H.
Qed.

(** Image text: the non-blank sentences are grouped three by three, in order
    and without loss: the first chunk holds the first three sentences, the
    second the next three, and so on, the last chunk holding the one, two or
    three that remain; each chunk is a [visual_context] chunk of its
    sentences joined by [. ], and carries the tables and charts given ([[]]
    for those not given). *)
Theorem createChunks_image_windows (text : string) (aux : AuxMetadata) :
  let sentences := filter nonBlank (Js.split ". " text) in
  exists groups,
    List.concat groups = sentences
    /\ (forall i w, nth_error groups i = Some w ->
          w = firstn 3 (skipn (3 * i) sentences))
    /\ Forall (fun w => 1 <= List.length w <= 3) groups
    /\ List.length groups = (List.length sentences + 2) / 3
    /\ Forall2 (visualChunkOf aux) (createChunks text "image" aux) groups.
Proof.
  intros sentences. exists (windows3 sentences).
  split; [apply windows3_concat|].
  split; [apply windows3_nth|].
  split; [apply windows3_sizes|].
  split; [apply windows3_length|].
  unfold createChunks. change (String.eqb "image" "pdf") with false.
  change (String.eqb "image" "image") with true. cbv iota.
  apply (pushVisual_fold aux (windows3 sentences) [] start). constructor.
Qed.

Lemma short_paragraphs_fold (l : list string) (st : Chunking) :
  Forall (fun p => String.length p <= 500) l ->
  map content (chunks (fold_left (paragraphStep "pdf") l st))
  = map content (chunks st) ++ l
  /\ (Forall (fun c => type c = "paragraph"%string) (chunks st) ->
      Forall (fun c => type c = "paragraph"%string)
        (chunks (fold_left (paragraphStep "pdf") l st))).
Proof.
  revert st. induction l as [|p l IH]; intros st H; cbn [fold_left].
  - rewrite app_nil_r. split; [reflexivity | tauto].
  - inversion H as [|? ? Hp Hl]; subst.
    assert (E : paragraphStep "pdf" st p = pushParagraph "pdf" st p).
    { unfold paragraphStep. apply Nat.leb_le in Hp.
      rewrite Nat.ltb_antisym, Hp. reflexivity. }
    rewrite E. destruct (IH (pushParagraph "pdf" st p) Hl) as [H1 H2]. split.
    + rewrite H1. unfold pushParagraph. cbn [chunks]. rewrite map_app.
      rewrite <- app_assoc. reflexivity.
    + intros Hst. apply H2. unfold pushParagraph. cbn [chunks].
      apply Forall_app. split; [exact Hst | repeat constructor].
Qed.

(** PDF text none of whose paragraphs exceeds 500 characters: the chunks are
    the non-blank paragraphs, in order and unchanged (not even trimmed), all
    of type [paragraph]. *)
Theorem createChunks_pdf_short_paragraphs (text : string) (aux : AuxMetadata) :
  Forall (fun p => String.length p <= 500)
    (filter nonBlank (Js.split (Js.nl ++ Js.nl) text)) ->
  map content (createChunks text "pdf" aux)
  = filter nonBlank (Js.split (Js.nl ++ Js.nl) text)
  /\ Forall (fun c => type c = "paragraph"%string) (createChunks text "pdf" aux).
Proof.
  intros H. unfold createChunks. change (String.eqb "pdf" "pdf") with true. cbv iota.
  destruct (short_paragraphs_fold _ start H) as [H1 H2]. split.
  - exact H1.
  - apply H2. constructor.
Qed.

Lemma createChunks_pdf_short_paragraphs_witness :
  map content (createChunks revenueText "pdf" noMetadata)
  = ["Revenue grew 10%."%string; "Costs fell."%string].
Proof.
  assert (H : Forall (fun p => String.length p <= 500)
                (filter nonBlank (Js.split (Js.nl ++ Js.nl) revenueText))).
  { vm_compute. repeat (constructor; [lia|]). constructor. }
  exact (proj1 (createChunks_pdf_short_paragraphs revenueText noMetadata H)).
Defined.

(** ** simulateEmbedding *)

Lemma updateAt_length {A : Type} (i : nat) (f : A -> A) (l : list A) :
  List.length (JsArray.updateAt i f l) = List.length l.
Proof.
  revert i. induction l as [|x l IH]; intros [|i]; simpl; try reflexivity.
  rewrite IH. reflexivity.
Qed.

Lemma wordIndex_bound (word : string) :
  VectorStore.wordIndex word < VectorStore.embeddingDimensions.
Proof.
  unfold VectorStore.wordIndex.
  set (h := Z.abs (VectorStore.hashFrom 0 word)).
  assert (Hh : (0 <= h)%Z) by apply Z.abs_nonneg.
  pose proof (Z.rem_bound_pos h (Z.of_nat VectorStore.embeddingDimensions) Hh) as B.
  unfold VectorStore.embeddingDimensions in *.
  assert (Hpos : (0 < Z.of_nat 384)%Z) by lia. specialize (B Hpos). lia.
Qed.

Section EmbeddingShape.
Context {num : Type} {N : Number num}.

Lemma accumulate_length (step : num -> num) (words : list string) (embedding : list num) :
  List.length
    (fold_left
       (fun embedding word => JsArray.updateAt (VectorStore.wordIndex word) step embedding)
       words embedding)
  = List.length embedding.
Proof.
  revert embedding. induction words as [|w words IH]; intros embedding; simpl.
  - reflexivity.
  - rewrite IH. apply updateAt_length.
Qed.

Lemma simulateEmbedding_dimension (text : string) :
  List.length (VectorStore.simulateEmbedding text) = VectorStore.embeddingDimensions.
Proof.
  unfold VectorStore.simulateEmbedding.
  match goal with
  | |- context [if ?b then _ else _] => destruct b
  end.
  - rewrite length_map, accumulate_length. apply repeat_length.
  - rewrite accumulate_length. apply repeat_length.
Qed.

Lemma simulateEmbedding_toLowerCase (text : string) :
  VectorStore.simulateEmbedding (Js.toLowerCase text) = VectorStore.simulateEmbedding text.
Proof.
  unfold VectorStore.simulateEmbedding. rewrite toLowerCase_idempotent. reflexivity.
Qed.

(** Whatever the text and the number model, an embedding has
    [embeddingDimensions] (384) components, and it does not depend on the
    case of the letters. *)
Theorem simulateEmbedding_shape (text : string) :
  List.length (VectorStore.simulateEmbedding text) = VectorStore.embeddingDimensions
  /\ VectorStore.simulateEmbedding (Js.toLowerCase text)
     = VectorStore.simulateEmbedding text.
Proof.
  split; [apply simulateEmbedding_dimension | apply simulateEmbedding_toLowerCase].
Qed.

End EmbeddingShape.

(** ** Embeddings and similarities in exact arithmetic *)

Section EmbeddingNorm.
Local Open Scope R_scope.

Fixpoint total (v : list R) : R :=
  match v with
  | [] => 0
  | x :: rest => x + total rest
  end.

Lemma total_updateAt (i : nat) (w : R) (v : list R) :
  (i < List.length v)%nat ->
  total (JsArray.updateAt i (fun x => x + w) v) = total v + w.
Proof.
  revert i. induction v as [|x v IH]; intros [|i] H; simpl in *; try lia.
  - lra.
  - rewrite IH by lia. lra.
Qed.

Lemma nonneg_updateAt (i : nat) (w : R) (v : list R) :
  0 <= w -> Forall (fun x => 0 <= x) v ->
  Forall (fun x => 0 <= x) (JsArray.updateAt i (fun x => x + w) v).
Proof.
  intros Hw. revert i. induction v as [|x v IH]; intros [|i] H; simpl;
    try constructor; inversion H; subst; try assumption.
  - lra.
  - apply IH. assumption.
Qed.

Lemma accumulate_exact (w : R) (words : list string) (v : list R) :
  0 <= w -> List.length v = VectorStore.embeddingDimensions ->
  Forall (fun x => 0 <= x) v ->
  let v' :=
    fold_left
      (fun embedding word =>
         JsArray.updateAt (VectorStore.wordIndex word) (fun x => x + w) embedding)
      words v in
  Forall (fun x => 0 <= x) v' /\ total v' = total v + INR (List.length words) * w.
Proof.
  intros Hw. revert v. induction words as [|word words IH]; intros v Hlen Hv.
  - simpl. split; [exact Hv | lra].
  - cbn zeta in *. cbn [fold_left].
    destruct (IH (JsArray.updateAt (VectorStore.wordIndex word) (fun x => x + w) v))
      as [H1 H2].
    + rewrite updateAt_length. exact Hlen.
    + apply nonneg_updateAt; assumption.
    + split; [exact H1|]. rewrite H2, total_updateAt.
      * rewrite length_cons, S_INR. lra.
      * rewrite Hlen. apply wordIndex_bound.
Qed.

Lemma total_repeat_zero (n : nat) : total (repeat 0 n) = 0.
Proof.
  induction n as [|n IH]; simpl; [reflexivity | rewrite IH; lra].
Qed.

Lemma sumOfSquares_nonneg (v : list R) : 0 <= sumOfSquares v.
Proof.
  induction v as [|x v IH]; simpl; [lra|].
  pose proof (Rle_0_sqr x) as H. unfold Rsqr in H. lra.
Qed.

Lemma sumOfSquares_positive (v : list R) :
  Forall (fun x => 0 <= x) v -> 0 < total v -> 0 < sumOfSquares v.
Proof.
  induction v as [|x v IH]; simpl; intros Hv Ht; [lra|].
  inversion Hv as [|? ? Hx Hv']; subst.
  pose proof (sumOfSquares_nonneg v) as Hs.
  destruct Hx as [Hx | <-].
  - assert (0 < x * x) by (apply Rmult_lt_0_compat; assumption). lra.
  - assert (0 < sumOfSquares v) by (apply IH; [assumption | lra]). lra.
Qed.

Lemma sumBy_squares_from (v : list R) (acc : R) :
  fold_left (fun sum x => add (Number := Exact) sum (mul x x)) v acc
  = acc + sumOfSquares v.
Proof.
  revert acc. induction v as [|x v IH]; intros acc; simpl; [lra|].
  rewrite IH. lra.
Qed.

Lemma sumBy_squares (v : list R) :
  sumBy (N := Exact) (fun val => mul val val) v = sumOfSquares v.
Proof.
  unfold sumBy. rewrite sumBy_squares_from. cbn [ofZ Exact]. lra.
Qed.

Lemma sumOfSquares_scaled (m : R) (v : list R) :
  m <> 0 -> sumOfSquares (map (fun x => x / m) v) = sumOfSquares v / (m * m).
Proof.
  intros Hm. induction v as [|x v IH]; simpl.
  - field. exact Hm.
  - rewrite IH. field. exact Hm.
Qed.

Lemma sqrt_INR_positive (n : nat) : (0 < n)%nat -> 0 < R_sqrt.sqrt (INR n).
Proof.
  intros H. apply sqrt_lt_R0. apply lt_INR in H. simpl in H. exact H.
Qed.

Lemma simulateEmbedding_normalized (text : string) :
  magnitude (VectorStore.simulateEmbedding (N := Exact) text) = 1
  /\ Forall (fun x => 0 <= x) (VectorStore.simulateEmbedding (N := Exact) text).
Proof.
  unfold VectorStore.simulateEmbedding.
  set (words := Js.splitWhitespace (Js.toLowerCase text)).
  assert (Hn : (0 < List.length words)%nat) by apply splitWhitespace_length.
  rewrite ofNat_exact. cbn [ofZ add div sqrt Exact].
  set (w := 1 / R_sqrt.sqrt (INR (List.length words))).
  assert (Hw : 0 < w).
  { unfold w. apply Rdiv_lt_0_compat; [lra | apply sqrt_INR_positive, Hn]. }
  destruct (accumulate_exact w words (repeat 0 VectorStore.embeddingDimensions))
    as [Hpos Htotal].
  - lra.
  - apply repeat_length.
  - apply Forall_forall. intros x Hx. apply repeat_spec in Hx. lra.
  - cbn zeta in Hpos, Htotal.
    set (v := fold_left _ words (repeat 0 VectorStore.embeddingDimensions)) in *.
    rewrite total_repeat_zero in Htotal.
    assert (Hsum : 0 < total v).
    { rewrite Htotal, Rplus_0_l. apply Rmult_lt_0_compat; [|exact Hw].
      apply lt_INR in Hn. simpl in Hn. exact Hn. }
    pose proof (sumOfSquares_positive v Hpos Hsum) as Hss.
    rewrite sumBy_squares.
    assert (Hm : 0 < R_sqrt.sqrt (sumOfSquares v)) by (apply sqrt_lt_R0, Hss).
    unfold gtb. cbn [ltb Exact]. unfold Ex.ltb.
    destruct (Rlt_dec 0 (R_sqrt.sqrt (sumOfSquares v))) as [_|Hno]; [|contradiction].
    split.
    + unfold magnitude. rewrite sumOfSquares_scaled by lra.
      rewrite sqrt_sqrt by lra.
      replace (sumOfSquares v / sumOfSquares v) with 1 by (field; lra).
      apply sqrt_1.
    + apply Forall_forall. intros y Hy. apply in_map_iff in Hy as (x & <- & Hx).
      rewrite Forall_forall in Hpos. specialize (Hpos x Hx).
      apply Rmult_le_pos; [exact Hpos|]. left. apply Rinv_0_lt_compat, Hm.
Qed.

(** In exact arithmetic every embedding has Euclidean length 1 and no
    negative component: the sum of the squares of its components is 1. *)
Theorem simulateEmbedding_unit (text : string) :
  magnitude (VectorStore.simulateEmbedding (N := Exact) text) = 1
  /\ sumOfSquares (VectorStore.simulateEmbedding (N := Exact) text) = 1
  /\ Forall (fun x => 0 <= x) (VectorStore.simulateEmbedding (N := Exact) text).
Proof.
  destruct (simulateEmbedding_normalized text) as [Hm Hpos].
  split; [exact Hm|]. split; [|exact Hpos].
  unfold magnitude in Hm.
  pose proof (sumOfSquares_nonneg (VectorStore.simulateEmbedding (N := Exact) text)) as Hs.
  rewrite <- (sqrt_sqrt _ Hs), Hm. lra.
Qed.

Lemma dotProduct_nonneg (a b : list R) :
  Forall (fun x => 0 <= x) a -> Forall (fun x => 0 <= x) b ->
  0 <= dotProduct (combine a b).
Proof.
  intros Ha. revert b. induction Ha as [|x a Hx Ha IH]; intros b Hb; simpl; [lra|].
  destruct Hb as [|y b Hy Hb]; simpl; [lra|].
  specialize (IH b Hb). assert (0 <= x * y) by (apply Rmult_le_pos; assumption). lra.
Qed.

Lemma cosineSimilarity_nonneg (a b : list R) :
  Forall (fun x => 0 <= x) a -> Forall (fun x => 0 <= x) b ->
  0 <= VectorStore.cosineSimilarity (N := Exact) a b.
Proof.
  intros Ha Hb. rewrite cosineSimilarity_exact.
  destruct (negb (List.length a =? List.length b)%nat); [lra|].
  set (l := combine a b).
  destruct (Req_dec_T (R_sqrt.sqrt (squaresA l)) 0) as [|HA]; [lra|].
  destruct (Req_dec_T (R_sqrt.sqrt (squaresB l)) 0) as [|HB]; [lra|].
  pose proof (sqrt_pos (squaresA l)). pose proof (sqrt_pos (squaresB l)).
  pose proof (dotProduct_nonneg a b Ha Hb) as Hd. fold l in Hd.
  apply Rmult_le_pos; [exact Hd|]. left. apply Rinv_0_lt_compat.
  apply Rmult_lt_0_compat; lra.
Qed.

(** In exact arithmetic the similarity of two texts' embeddings lies in
    [0, 1]; it is 1 for two texts that differ in letter case only. *)
Theorem embedding_similarity_range (query content : string) :
  0 <= VectorStore.cosineSimilarity (N := Exact)
         (VectorStore.simulateEmbedding query) (VectorStore.simulateEmbedding content) <= 1
  /\ VectorStore.cosineSimilarity (N := Exact)
       (VectorStore.simulateEmbedding (Js.toLowerCase content))
       (VectorStore.simulateEmbedding content) = 1.
Proof.
  split.
  - split.
    + apply cosineSimilarity_nonneg; apply simulateEmbedding_normalized.
    + apply cosineSimilarity_range.
  - rewrite simulateEmbedding_toLowerCase. apply cosineSimilarity_self.
    rewrite (proj1 (simulateEmbedding_normalized content)). lra.
Qed.

End EmbeddingNorm.

(** ** The index built by storeDocument *)

Lemma combine_map_pairs {A B : Type} (f : A -> B) (l : list A) :
  combine l (map f l) = map (fun x => (x, f x)) l.
Proof.
  induction l as [|x l IH]; simpl; [reflexivity | rewrite IH; reflexivity].
Qed.

Section IndexInvariant.
Context {num : Type} {N : Number num}.
Import VectorStore.

(** The indexes reached from the empty one by [storeDocument]. *)
Inductive Ingested : Store num -> Prop :=
| Ingested_empty : Ingested empty
| Ingested_store (st st' : Store num) (docId : string) (chunks : list Chunk) (n : nat) :
    Ingested st -> storeDocument docId chunks st = Normal (st', n) -> Ingested st'.

(** A record filed as [storeDocument] files it. *)
Definition filed (entry : string * VectorData num) : Prop :=
  fst entry = vd_id (snd entry)
  /\ vd_id (snd entry)
     = (documentId (snd entry) ++ "_" ++ Js.ofNat (chunkId (snd entry)))%string
  /\ embedding (snd entry) = simulateEmbedding (vd_content (snd entry))
  /\ List.length (embedding (snd entry)) = embeddingDimensions.

Lemma storeDocument_vectors (docId : string) (chunks : list Chunk) (st st' : Store num)
  (n : nat) :
  storeDocument docId chunks st = Normal (st', n) ->
  n = List.length chunks
  /\ vectors st'
     = fold_left (storeChunk docId)
         (map (fun c => (c, simulateEmbedding (content c))) chunks) (vectors st)
  /\ documents st'
     = JsArray.mapSet docId {| doc_id := docId; chunksCount := List.length chunks |}
         (documents st).
Proof.
  unfold storeDocument, generateEmbeddings. intros E. injection E as <- <-.
  cbn [vectors documents]. rewrite combine_map_pairs. repeat split.
Qed.

Lemma storeChunks_filed (docId : string) (chunks : list Chunk)
  (vs : list (string * VectorData num)) :
  Forall filed vs ->
  Forall filed
    (fold_left (storeChunk docId)
       (map (fun c => (c, simulateEmbedding (content c))) chunks) vs).
Proof.
  revert vs. induction chunks as [|c chunks IH]; intros vs H; [exact H|].
  cbn [map fold_left]. apply IH. unfold storeChunk.
  apply mapSet_entries; [|exact H].
  unfold filed. cbn [fst snd vd_id documentId chunkId embedding vd_content].
  repeat split. apply simulateEmbedding_dimension.
Qed.

Lemma storeChunks_keys (docId : string) (pairs : list (Chunk * list num))
  (vs : list (string * VectorData num)) :
  NoDup (map fst vs) -> NoDup (map fst (fold_left (storeChunk docId) pairs vs)).
Proof.
  revert vs. induction pairs as [|[c e] pairs IH]; intros vs H; [exact H|].
  cbn [fold_left]. apply IH. unfold storeChunk. apply mapSet_NoDup, H.
Qed.

Lemma Ingested_filed (st : Store num) :
  Ingested st ->
  NoDup (map fst (vectors st)) /\ Forall filed (vectors st).
Proof.
  induction 1 as [|st st' docId chunks n _ [IH1 IH2] E].
  - split; constructor.
  - apply storeDocument_vectors in E as (_ & -> & _). split.
    + apply storeChunks_keys, IH1.
    + apply storeChunks_filed, IH2.
Qed.

Lemma search_spec (q : list num) (ids : option (list string)) (limit : nat)
  (st : Store num) :
  exists results,
    search q ids limit st = Normal results
    /\ List.length results
       = Nat.min limit
           (List.length (filter (fun v => negb (excluded ids v)) (map snd (vectors st))))
    /\ Forall (fun r =>
                 In (data r) (map snd (vectors st))
                 /\ similarity r = cosineSimilarity q (embedding (data r))
                 /\ forall l, ids = Some l -> In (documentId (data r)) l)
         results.
Proof.
  eexists. split; [reflexivity|]. split.
  - unfold JsArray.slice0. rewrite length_firstn, sort_length, scoreAll_eligible, length_map.
    reflexivity.
  - apply Forall_forall. intros r Hr.
    destruct (search_members q ids limit st _ r eq_refl Hr) as [Hin E].
    unfold eligible in Hin. apply filter_In in Hin as [Hin Hex].
    split; [exact Hin|]. split; [rewrite E; reflexivity|].
    intros l ->. unfold excluded in Hex. apply negb_true_iff, negb_false_iff in Hex.
    apply arrayIncludes_In, Hex.
Qed.

Lemma searchWithQuery_spec (q : string) (ids : option (list string))
  (filters : Filters num) (st : Store num) :
  exists results,
    searchWithQuery q ids filters st = Normal results
    /\ List.length results <= defaultLimit
    /\ Forall (fun r =>
                 (forall t, contentType filters = Some t -> t <> EmptyString ->
                            r_type r = t)
                 /\ (forall m, minSimilarity filters = Given m -> truthy m = true ->
                               geb (r_similarity r) m = true)
                 /\ (forall l, ids = Some l -> In (r_documentId r) l))
         results.
Proof.
  destruct (search_spec (simulateEmbedding q) ids defaultLimit st)
    as (top & Etop & Hlen & Hall).
  unfold searchWithQuery. rewrite Etop. cbn [bind].
  eexists. split; [reflexivity|]. split.
  - rewrite length_map.
    assert (Hc : forall l, List.length (filterContentType filters l) <= List.length l).
    { intros l. unfold filterContentType. destruct (contentType filters) as [t|]; [|lia].
      destruct (Js.truthyString t); [apply filter_length_le | lia]. }
    assert (Hm : forall l, List.length (filterMinSimilarity filters l) <= List.length l).
    { intros l. unfold filterMinSimilarity. destruct (minSimilarity filters) as [| |m]; [lia | lia |].
      destruct (truthy m); [apply filter_length_le | lia]. }
    specialize (Hm (filterContentType filters top)). specialize (Hc top). lia.
  - apply Forall_forall. intros r Hr. apply in_map_iff in Hr as (x & <- & Hx).
    assert (Hx1 : In x (filterContentType filters top)).
    { revert Hx. unfold filterMinSimilarity.
      destruct (minSimilarity filters) as [| |m]; [tauto | tauto |].
      destruct (truthy m); [|tauto]. intros Hx. apply filter_In in Hx. tauto. }
    assert (Hx0 : In x top).
    { revert Hx1. unfold filterContentType. destruct (contentType filters) as [t|]; [|tauto].
      destruct (Js.truthyString t); [|tauto]. intros H. apply filter_In in H. tauto. }
    cbn [project r_type r_similarity r_documentId]. repeat split.
    + intros t Et Hne. revert Hx1. unfold filterContentType. rewrite Et.
      destruct t as [|c t]; [contradiction|]. cbn [Js.truthyString].
      intros H. apply filter_In in H as [_ H]. apply String.eqb_eq, H.
    + intros m Em Hm. revert Hx. unfold filterMinSimilarity. rewrite Em, Hm.
      intros H. apply filter_In in H as [_ H]. exact H.
    + rewrite Forall_forall in Hall. apply (Hall x Hx0).
Qed.

End IndexInvariant.

(** ** Keys of the index *)

From Stdlib Require DecimalNat.

Definition hasUnderscore (s : string) : bool := Processing.anyChar (Ascii.eqb "_") s.

Lemma hasUnderscore_append (a b : string) :
  hasUnderscore (a ++ String "_" b) = true.
Proof.
  induction a as [|c a IH]; [reflexivity|].
  unfold hasUnderscore in *. simpl. simpl in IH. rewrite IH. apply orb_true_r.
Qed.

Lemma string_of_uint_digits (d : Decimal.uint) :
  hasUnderscore (NilEmpty.string_of_uint d) = false.
Proof.
  induction d; simpl; try reflexivity; exact IHd.
Qed.

Lemma ofNat_digits (n : nat) : hasUnderscore (Js.ofNat n) = false.
Proof.
  apply string_of_uint_digits.
Qed.

Lemma ofNat_injective (n m : nat) : Js.ofNat n = Js.ofNat m -> n = m.
Proof.
  unfold Js.ofNat. intros H.
  assert (E : Nat.to_uint n = Nat.to_uint m).
  { pose proof (NilEmpty.usu (Nat.to_uint n)) as Hn.
    pose proof (NilEmpty.usu (Nat.to_uint m)) as Hm.
    rewrite H in Hn. rewrite Hn in Hm. injection Hm as Hm. exact Hm. }
  rewrite <- (DecimalNat.Unsigned.of_to n), <- (DecimalNat.Unsigned.of_to m), E.
  reflexivity.
Qed.

(** A key [documentId_chunkId] names its document and its chunk. *)
Lemma key_injective (a b x y : string) :
  hasUnderscore x = false -> hasUnderscore y = false ->
  (a ++ "_" ++ x = b ++ "_" ++ y)%string -> a = b /\ x = y.
Proof.
  intros Hx Hy. revert b. induction a as [|c a IH]; intros [|c' b] E; simpl in E.
  - injection E as E. tauto.
  - injection E as Ec E. rewrite E, hasUnderscore_append in Hx. discriminate.
  - injection E as Ec E. rewrite <- E, hasUnderscore_append in Hy. discriminate.
  - injection E as Ec E. destruct (IH b E) as [-> ->]. subst. tauto.
Qed.

Lemma mapGet_mapSet_same {V : Type} (key : string) (value : V) (m : list (string * V)) :
  JsArray.mapGet key (JsArray.mapSet key value m) = Some value.
Proof.
  induction m as [|[k v] m IH]; simpl.
  - rewrite String.eqb_refl. reflexivity.
  - destruct (String.eqb k key) eqn:E; simpl; rewrite E; [reflexivity | exact IH].
Qed.

Lemma mapGet_mapSet_other {V : Type} (key other : string) (value : V)
  (m : list (string * V)) :
  other <> key -> JsArray.mapGet other (JsArray.mapSet key value m) = JsArray.mapGet other m.
Proof.
  intros Hne. induction m as [|[k v] m IH]; simpl.
  - apply String.eqb_neq in Hne. rewrite String.eqb_sym, Hne. reflexivity.
  - destruct (String.eqb k key) eqn:E; simpl.
    + apply String.eqb_eq in E. subst k.
      apply String.eqb_neq in Hne. rewrite String.eqb_sym, Hne. reflexivity.
    + destruct (String.eqb k other); [reflexivity | exact IH].
Qed.

Lemma mapGet_absent {V : Type} (key : string) (m : list (string * V)) :
  ~ In key (map fst m) -> JsArray.mapGet key m = None.
Proof.
  induction m as [|[k v] m IH]; simpl; intros H; [reflexivity|].
  destruct (String.eqb k key) eqn:E.
  - apply String.eqb_eq in E. tauto.
  - apply IH. tauto.
Qed.

Section Stats.
Context {num : Type} {N : Number num}.
Import VectorStore.

(** The record [storeDocument] files for a chunk. *)
Definition recordOf (docId : string) (c : Chunk) : string * VectorData num :=
  let key := (docId ++ "_" ++ Js.ofNat (id c))%string in
  (key,
   {| vd_id := key;
      documentId := docId;
      chunkId := id c;
      embedding := simulateEmbedding (content c);
      vd_content := content c;
      vd_metadata := metadata c;
      vd_type := type c |}).

Lemma recordOf_key_injective (docId : string) (c c' : Chunk) :
  fst (recordOf docId c) = fst (recordOf docId c') -> id c = id c'.
Proof.
  unfold recordOf. cbn [fst]. intros E.
  apply key_injective in E; try apply ofNat_digits.
  apply ofNat_injective. tauto.
Qed.

(** Chunks of distinct ids whose keys are not in the [Map] are appended, in
    order. *)
Lemma storeChunks_appended (docId : string) (chunks : list Chunk)
  (vs : list (string * VectorData num)) :
  NoDup (map id chunks) ->
  (forall c, In c chunks -> ~ In (fst (recordOf docId c)) (map fst vs)) ->
  fold_left (storeChunk docId)
    (map (fun c => (c, simulateEmbedding (content c))) chunks) vs
  = vs ++ map (recordOf docId) chunks.
Proof.
  revert vs. induction chunks as [|c chunks IH]; intros vs ND Hfresh.
  - simpl. rewrite app_nil_r. reflexivity.
  - cbn [map fold_left]. inversion ND as [|? ? Hc ND']; subst.
    assert (E : storeChunk docId vs (c, simulateEmbedding (content c))
                = vs ++ [recordOf docId c]).
    { unfold storeChunk. apply mapSet_fresh. apply (Hfresh c). left. reflexivity. }
    rewrite E, IH.
    + rewrite <- app_assoc. reflexivity.
    + exact ND'.
    + intros c' Hc' Hin. rewrite map_app in Hin. apply in_app_or in Hin as [Hin | Hin].
      * apply (Hfresh c'); [right; exact Hc' | exact Hin].
      * simpl in Hin. destruct Hin as [Hk | []].
        apply recordOf_key_injective in Hk. apply Hc. rewrite Hk.
        apply in_map, Hc'.
Qed.

Lemma fresh_keys (docId : string) (c : Chunk) (vs : list (string * VectorData num)) :
  Forall filed vs ->
  Forall (fun entry => documentId (snd entry) <> docId) vs ->
  ~ In (fst (recordOf docId c)) (map fst vs).
Proof.
  intros Hfiled Hother Hin. apply in_map_iff in Hin as (entry & Hk & Hentry).
  rewrite Forall_forall in Hfiled, Hother.
  destruct (Hfiled entry Hentry) as (H1 & H2 & _).
  rewrite H1, H2 in Hk. unfold recordOf in Hk. cbn [fst] in Hk.
  apply key_injective in Hk; try apply ofNat_digits.
  apply (Hother entry Hentry). tauto.
Qed.

Lemma filter_none {A : Type} (p : A -> bool) (l : list A) :
  Forall (fun x => p x = false) l -> filter p l = [].
Proof.
  induction 1 as [|x l Hx _ IH]; simpl; [reflexivity | rewrite Hx; exact IH].
Qed.

Lemma filter_all {A : Type} (p : A -> bool) (l : list A) :
  Forall (fun x => p x = true) l -> filter p l = l.
Proof.
  induction 1 as [|x l Hx _ IH]; simpl; [reflexivity | rewrite Hx, IH; reflexivity].
Qed.

(** Storing a document and asking for its statistics: for a document not yet
    in an index built by [storeDocument], and chunks of distinct ids, the
    statistics give the number of chunks twice (as [chunksCount] and as
    [actualChunks]) and the chunks' types without repetition; the statistics
    of every other document are what they were; an id never stored has none. *)
Theorem getDocumentStats_after_store (docId : string) (chunks : list Chunk)
  (st st' : Store num) (n : nat) :
  Ingested st ->
  Forall (fun entry => documentId (snd entry) <> docId) (vectors st) ->
  NoDup (map id chunks) ->
  storeDocument docId chunks st = Normal (st', n) ->
  n = List.length chunks
  /\ getDocumentStats docId st'
     = Some {| doc := {| doc_id := docId; chunksCount := List.length chunks |};
               actualChunks := List.length chunks;
               contentTypes := JsArray.newSet (map type chunks) |}
  /\ (forall other, other <> docId ->
        getDocumentStats other st' = getDocumentStats other st)
  /\ (forall unknown, ~ In unknown (map fst (documents st')) ->
        getDocumentStats unknown st' = None).
Proof.
  intros Hing Hother ND E.
  destruct (Ingested_filed st Hing) as [_ Hfiled].
  apply storeDocument_vectors in E as (-> & Ev & Ed).
  rewrite storeChunks_appended in Ev;
    [|exact ND | intros c _; apply fresh_keys; assumption].
  split; [reflexivity|].
  assert (Hold : filter (fun v => String.eqb (documentId v) docId) (map snd (vectors st))
                 = []).
  { apply filter_none. apply Forall_forall. intros v Hv.
    apply in_map_iff in Hv as (entry & <- & Hentry).
    rewrite Forall_forall in Hother. apply String.eqb_neq, Hother, Hentry. }
  split; [|split].
  - unfold getDocumentStats. rewrite Ed, mapGet_mapSet_same, Ev.
    rewrite map_app, filter_app, Hold, app_nil_l.
    rewrite filter_all.
    + rewrite !map_map, length_map. cbn [recordOf snd vd_type]. reflexivity.
    + apply Forall_forall. intros v Hv. apply in_map_iff in Hv as (entry & <- & Hentry).
      apply in_map_iff in Hentry as (c & <- & _). cbn [recordOf snd documentId].
      apply String.eqb_refl.
  - intros other Hne. unfold getDocumentStats.
    rewrite Ed, mapGet_mapSet_other by exact Hne.
    rewrite Ev, map_app, filter_app.
    replace (filter (fun v => String.eqb (documentId v) other)
               (map snd (map (recordOf docId) chunks))) with (@nil (VectorData num)).
    + rewrite app_nil_r. reflexivity.
    + symmetry. apply filter_none. apply Forall_forall. intros v Hv.
      apply in_map_iff in Hv as (entry & <- & Hentry).
      apply in_map_iff in Hentry as (c & <- & _). cbn [recordOf snd documentId].
      apply String.eqb_neq. congruence.
  - intros unknown Hun. unfold getDocumentStats. rewrite (mapGet_absent _ _ Hun).
    reflexivity.
Qed.

End Stats.

Lemma getDocumentStats_after_store_witness :
  VectorStore.getDocumentStats "doc1" revenueStore
  = Some {| VectorStore.doc := {| VectorStore.doc_id := "doc1";
                                  VectorStore.chunksCount := 2 |};
            VectorStore.actualChunks := 2;
            VectorStore.contentTypes := ["paragraph"%string] |}.
Proof.
  assert (ND : NoDup (map id (createChunks revenueText "pdf" noMetadata))).
  { vm_compute. constructor; [intros [H | []]; discriminate H|].
    constructor; [intros [] | constructor]. }
  assert (E : VectorStore.storeDocument (N := Binary64) "doc1"
                (createChunks revenueText "pdf" noMetadata) VectorStore.empty
              = Normal (revenueStore, 2)).
  { vm_compute. reflexivity. }
  exact (proj1 (proj2 (getDocumentStats_after_store "doc1"
                         (createChunks revenueText "pdf" noMetadata)
                         VectorStore.empty revenueStore 2
                         Ingested_empty (Forall_nil _) ND E))).
Defined.

(** ** Query processing *)

Lemma test_toLowerCase (alternatives : list string) (q : string) :
  RAGPipeline.test alternatives (Js.toLowerCase q) = RAGPipeline.test alternatives q.
Proof.
  unfold RAGPipeline.test. rewrite toLowerCase_idempotent. reflexivity.
Qed.

Lemma firstIntent_toLowerCase (table : list (string * list string)) (q : string) :
  RAGPipeline.firstIntent table (Js.toLowerCase q) = RAGPipeline.firstIntent table q.
Proof.
  induction table as [|[label pattern] table IH]; simpl; [reflexivity|].
  rewrite test_toLowerCase, IH. reflexivity.
Qed.

(** The intent is one of the seven labels, does not depend on the case of
    the letters, and is [general] exactly when no pattern matches. *)
Theorem classifyIntent_labels (q : string) :
  In (RAGPipeline.classifyIntent q)
    ["factual"; "comparison"; "procedural"; "analytical"; "numerical"; "visual";
     "general"]%string
  /\ RAGPipeline.classifyIntent (Js.toLowerCase q) = RAGPipeline.classifyIntent q
  /\ (RAGPipeline.classifyIntent q = "general"%string
      <-> Forall (fun entry => RAGPipeline.test (snd entry) q = false) RAGPipeline.intents).
Proof.
  split; [|split].
  - unfold RAGPipeline.classifyIntent, RAGPipeline.intents. cbn [RAGPipeline.firstIntent].
    repeat match goal with
           | |- context [if ?b then _ else _] => destruct b; [simpl; tauto|]
           end.
    simpl. tauto.
  - apply firstIntent_toLowerCase.
  - unfold RAGPipeline.classifyIntent, RAGPipeline.intents. cbn [RAGPipeline.firstIntent].
    split.
    + intros H.
      repeat match goal with
             | H : context [if ?b then _ else _] |- _ =>
                 destruct b eqn:?; [discriminate H|]
             end.
      repeat (constructor; [cbn [snd]; assumption|]). constructor.
    + intros H.
      repeat match goal with
             | H : Forall _ (_ :: _) |- _ =>
                 let H1 := fresh in let H2 := fresh in
                 inversion H as [|? ? H1 H2]; subst; clear H; cbn [snd] in H1; rewrite H1
             end.
      reflexivity.
Qed.

Lemma expandFrom_appends (keywords : list string) (expanded e : string) :
  RAGPipeline.expandFrom expanded keywords = Normal e ->
  exists suffix,
    e = (expanded ++ suffix)%string
    /\ (Forall (fun k => RAGPipeline.synonyms k = RAGPipeline.Undefined) keywords ->
        suffix = EmptyString).
Proof.
  revert expanded. induction keywords as [|k l IH]; intros expanded H; simpl in H.
  - injection H as <-. exists EmptyString. split; [|reflexivity].
    clear. induction expanded as [|c x IHx]; simpl; congruence.
  - destruct (RAGPipeline.synonyms k) as [syn| |] eqn:Ek; [|discriminate|].
    + destruct (IH _ H) as (suffix & -> & _).
      exists ((" " ++ Js.join " " syn) ++ suffix)%string. split.
      * clear. induction expanded as [|c x IHx]; simpl; [reflexivity|].
        simpl in IHx. rewrite IHx. reflexivity.
      * intros HF. inversion HF; subst. congruence.
    + destruct (IH _ H) as (suffix & -> & Hs). exists suffix. split; [reflexivity|].
      intros HF. inversion HF; subst. apply Hs. assumption.
Qed.

(** [preprocessQuery], on a query none of whose keywords names an inherited
    property: it returns the raw text as [text], at most ten keywords, each
    of them longer than two characters, in lower case and no stop word, and
    as expanded text the raw text with something appended, or nothing when
    no keyword is in the synonym table. *)
Theorem preprocessQuery_result (q : string) :
  Forall (fun k => RAGPipeline.synonyms k <> RAGPipeline.Inherited)
    (RAGPipeline.extractKeywords q) ->
  exists pq suffix,
    RAGPipeline.preprocessQuery q = Normal pq
    /\ RAGPipeline.text pq = q
    /\ RAGPipeline.intent pq = RAGPipeline.classifyIntent q
    /\ RAGPipeline.processedText pq = (q ++ suffix)%string
    /\ (Forall (fun k => RAGPipeline.synonyms k = RAGPipeline.Undefined)
          (RAGPipeline.keywords pq) -> suffix = EmptyString)
    /\ List.length (RAGPipeline.keywords pq) <= 10
    /\ Forall (fun k => 2 < String.length k
                        /\ ~ In k RAGPipeline.stopWords
                        /\ In k (Js.splitWhitespace (Js.toLowerCase q)))
         (RAGPipeline.keywords pq).
Proof.
  intros Hkw. destruct (expandFrom_returns _ q Hkw) as [e He].
  destruct (expandFrom_appends _ _ _ He) as (suffix & -> & Hs).
  unfold RAGPipeline.preprocessQuery, RAGPipeline.expandQuery. rewrite He. cbn [bind].
  eexists. exists suffix. split; [reflexivity|].
  cbn [RAGPipeline.text RAGPipeline.intent RAGPipeline.processedText RAGPipeline.keywords].
  repeat split; try exact Hs.
  - unfold RAGPipeline.extractKeywords, JsArray.slice0. apply firstn_le_length.
  - apply Forall_forall. intros k Hk.
    unfold RAGPipeline.extractKeywords, JsArray.slice0 in Hk.
    apply In_firstn, filter_In in Hk as [Hin Hp].
    apply andb_true_iff in Hp as [Hlen Hstop]. repeat split.
    + apply Nat.ltb_lt, Hlen.
    + intros Hs'. apply arrayIncludes_In in Hs'. rewrite Hs' in Hstop. discriminate.
    + exact Hin.
Qed.

Lemma preprocessQuery_result_witness :
  exists pq,
    RAGPipeline.preprocessQuery "Show the DATA" = Normal pq
    /\ RAGPipeline.keywords pq = ["show"; "data"]%string
    /\ RAGPipeline.processedText pq
       = "Show the DATA display present demonstrate information statistics metrics"%string.
Proof.
  assert (Hkw : Forall (fun k => RAGPipeline.synonyms k <> RAGPipeline.Inherited)
                  (RAGPipeline.extractKeywords "Show the DATA")).
  { vm_compute. repeat (constructor; [discriminate|]). constructor. }
  destruct (preprocessQuery_result "Show the DATA" Hkw) as (pq & suffix & E & _).
  exists pq. split; [exact E|].
  vm_compute in E. injection E as <-. split; reflexivity.
Defined.

(** ** Reranking and the context *)

Lemma insert_Permutation {A : Type} (after : A -> A -> bool) (x : A) (l : list A) :
  Permutation (JsArray.insert after x l) (x :: l).
Proof.
  induction l as [|y l IH]; simpl; [apply Permutation_refl|].
  destruct (after x y); [|apply Permutation_refl].
  apply Permutation_trans with (y :: x :: l); [apply perm_skip, IH | apply perm_swap].
Qed.

Lemma sort_Permutation {A : Type} (after : A -> A -> bool) (l : list A) :
  Permutation (JsArray.sort after l) l.
Proof.
  induction l as [|x l IH]; simpl; [apply perm_nil|].
  apply Permutation_trans with (x :: JsArray.sort after l);
    [apply insert_Permutation | apply perm_skip, IH].
Qed.

(** The texts of the chunks, one after the other. *)
Fixpoint concatenation (texts : list string) : string :=
  match texts with
  | [] => EmptyString
  | t :: rest => (t ++ concatenation rest)%string
  end.

Lemma append_empty (s : string) : (s ++ "")%string = s.
Proof.
  induction s as [|c s IH]; simpl; congruence.
Qed.

Lemma append_associative (a b c : string) : ((a ++ b) ++ c)%string = (a ++ b ++ c)%string.
Proof.
  induction a as [|x a IH]; simpl; congruence.
Qed.

Section Context.
Context {num : Type} {N : Number num}.
Import RAGPipeline.

(** Whatever the number model, [rerank] returns every candidate once, with
    its score: nothing is dropped and nothing is repeated. *)
Theorem rerank_permutation (q : string) (candidates : list (VectorStore.Retrieved num)) :
  exists reranked,
    rerank q candidates = Normal reranked
    /\ Permutation (map chunk reranked) candidates
    /\ Forall (fun r => rerankedScore r = rerankScore q (chunk r)) reranked.
Proof.
  eexists. split; [reflexivity|]. split.
  - apply Permutation_trans
      with (map chunk (map (fun c => {| chunk := c; rerankedScore := rerankScore q c |})
                         candidates)).
    + apply Permutation_map, sort_Permutation.
    + rewrite map_map, map_id. apply Permutation_refl.
  - apply Forall_forall. intros r Hr. apply sort_In, in_map_iff in Hr as (c & <- & _).
    reflexivity.
Qed.

Lemma buildContextFrom_prefix (chunks : list (Reranked num)) (context : string) :
  String.length context <= maxContextLength ->
  exists k,
    buildContextFrom context (String.length context) chunks
    = (context ++ concatenation (map chunkText (firstn k chunks)))%string
    /\ String.length (buildContextFrom context (String.length context) chunks)
       <= maxContextLength
    /\ forall c, nth_error chunks k = Some c ->
         maxContextLength
         < String.length (buildContextFrom context (String.length context) chunks)
           + String.length (chunkText c).
Proof.
  revert context. induction chunks as [|c chunks IH]; intros context Hlen.
  - exists 0. simpl. rewrite append_empty. split; [reflexivity|]. split; [exact Hlen|].
    intros c H. discriminate.
  - cbn [buildContextFrom].
    destruct (String.length context + String.length (chunkText c) <=? maxContextLength)
      eqn:E.
    + apply Nat.leb_le in E.
      rewrite <- append_length. rewrite <- append_length in E.
      destruct (IH (context ++ chunkText c)%string E) as (k & H1 & H2 & H3).
      exists (S k). cbn [firstn map concatenation nth_error].
      rewrite H1, append_associative. split; [reflexivity|].
      rewrite <- append_associative, <- H1. split; [exact H2 | exact H3].
    + apply Nat.leb_gt in E. exists 0. cbn [firstn map concatenation nth_error].
      rewrite append_empty. split; [reflexivity|]. split; [exact Hlen|].
      intros c' H. injection H as <-. exact E.
Qed.

(** The context is made of the texts of the first chunks, whole and in
    order, as many as fit in [maxContextLength] (4000) characters: it stops at
    the first chunk that would not fit, and never exceeds that length. *)
Theorem buildContext_prefix (chunks : list (Reranked num)) :
  exists k,
    buildContext chunks = concatenation (map chunkText (firstn k chunks))
    /\ String.length (buildContext chunks) <= maxContextLength
    /\ forall c, nth_error chunks k = Some c ->
         maxContextLength < String.length (buildContext chunks) + String.length (chunkText c).
Proof.
  unfold buildContext.
  destruct (buildContextFrom_prefix chunks EmptyString) as (k & H1 & H2 & H3).
  - simpl. unfold maxContextLength. lia.
  - exists k. cbn [String.length] in *. simpl in H1. rewrite H1 in *. repeat split; assumption.
Qed.

End Context.

Section Confidence.
Import RAGPipeline.
Local Open Scope R_scope.

Lemma calculateResponseConfidence_range (context q : string) :
  1 / 2 <= calculateResponseConfidence (N := Exact) context q <= 1.
Proof.
  unfold calculateResponseConfidence.
  set (queryWords := Js.splitWhitespace (Js.toLowerCase q)).
  match goal with
  | |- context [filter ?p queryWords] => set (matches := filter p queryWords)
  end.
  assert (Hr : 0 <= INR (List.length matches) / INR (List.length queryWords) <= 1).
  { apply ratio_range; [apply filter_length_le | apply splitWhitespace_length]. }
  rewrite !ofNat_exact. unfold dec. cbn [add mul div min ofZ Exact].
  destruct (500 <? String.length context)%nat.
  - unfold Rmin. destruct (Rle_dec _ 1); lra.
  - unfold Rmin. destruct (Rle_dec _ 1); lra.
Qed.

End Confidence.

(** ** The query pipeline as a whole *)

Section QueryShape.
Context {num : Type} {N : Number num}.
Import VectorStore RAGPipeline.

(** The response of [query], put together from the steps. *)
Definition responseOf (q : string) (selected : list (Reranked num)) : Response num :=
  let context := buildContext selected in
  let response :=
    {| a_text := (templates q (classifyIntent q) ++ summarizeContext context)%string;
       confidence := calculateResponseConfidence context q;
       a_intent := classifyIntent q;
       contextUsed := (0 <? String.length context)%nat |} in
  {| answer := response;
     sources := map toSource selected;
     relevanceScore := calculateRelevanceScore selected response;
     context := context;
     queryIntent := classifyIntent q |}.

Lemma query_steps (q : string) (ids : option (list string)) (filters : Filters num)
  (st : Store num) :
  Forall (fun k => synonyms k <> Inherited) (extractKeywords q) ->
  exists retrieved reranked,
    searchWithQuery q ids (withFloor filters) st = Normal retrieved
    /\ rerank q retrieved = Normal reranked
    /\ query q ids filters st = Normal (responseOf q (JsArray.slice0 topK reranked)).
Proof.
  intros Hkw. destruct (expandFrom_returns _ q Hkw) as [e He].
  destruct (searchWithQuery_spec q ids (withFloor filters) st) as (retrieved & E & _).
  exists retrieved. eexists. split; [exact E|]. split; [reflexivity|].
  unfold query, preprocessQuery, expandQuery. rewrite He. cbn [bind text intent].
  rewrite E. reflexivity.
Qed.

Lemma selected_retrieved (q : string) (retrieved : list (Retrieved num))
  (reranked : list (Reranked num)) (r : Reranked num) :
  rerank q retrieved = Normal reranked ->
  In r (JsArray.slice0 topK reranked) -> In (chunk r) retrieved.
Proof.
  unfold rerank. intros E Hr. injection E as <-.
  apply In_firstn, sort_In, in_map_iff in Hr as (c & <- & Hc). exact Hc.
Qed.

(** Each result of [searchWithQuery] is a stored record with the cosine
    similarity between the query's embedding and the record's. *)
Lemma searchWithQuery_similarity (q : string) (ids : option (list string))
  (filters : Filters num) (st : Store num) (results : list (Retrieved num)) :
  searchWithQuery q ids filters st = Normal results ->
  Forall (fun r =>
            exists v, In v (map snd (vectors st))
                      /\ r_content r = vd_content v
                      /\ r_similarity r
                         = cosineSimilarity (simulateEmbedding q) (embedding v))
    results.
Proof.
  unfold searchWithQuery.
  destruct (search_spec (simulateEmbedding q) ids defaultLimit st) as (top & Etop & _ & Hall).
  rewrite Etop. cbn [bind]. intros E. injection E as <-.
  apply Forall_forall. intros r Hr. apply in_map_iff in Hr as (x & <- & Hx).
  assert (Hx0 : In x top).
  { assert (H1 : In x (filterContentType filters top)).
    { revert Hx. unfold filterMinSimilarity.
      destruct (minSimilarity filters) as [| |m]; [tauto | tauto |].
      destruct (truthy m); [|tauto]. intros Hx. apply filter_In in Hx. tauto. }
    revert H1. unfold filterContentType. destruct (contentType filters) as [t|]; [|tauto].
    destruct (Js.truthyString t); [|tauto]. intros H. apply filter_In in H. tauto. }
  rewrite Forall_forall in Hall. destruct (Hall x Hx0) as (Hin & Hsim & _).
  exists (data x). cbn [project r_content r_similarity]. tauto.
Qed.

End QueryShape.

(** [query] on doubles, for a query none of whose keywords names an inherited
    property: at most [topK] (5) sources and a context of at most 4000
    characters; the answer carries the query's intent and says whether the
    context is non-empty; every source belongs to a listed document, has the
    content type asked for, and reaches the floor 0.3 when [filters] has no
    [minSimilarity] property; with no source the context is empty, the relevance score is 0
    and the answer is the fixed "couldn't find" message. *)
Theorem query_response (q : string) (ids : option (list string))
  (filters : VectorStore.Filters float) (st : VectorStore.Store float) :
  Forall (fun k => RAGPipeline.synonyms k <> RAGPipeline.Inherited)
    (RAGPipeline.extractKeywords q) ->
  exists r,
    RAGPipeline.query (N := Binary64) q ids filters st = Normal r
    /\ List.length (RAGPipeline.sources r) <= RAGPipeline.topK
    /\ String.length (RAGPipeline.context r) <= RAGPipeline.maxContextLength
    /\ RAGPipeline.queryIntent r = RAGPipeline.classifyIntent q
    /\ RAGPipeline.a_intent (RAGPipeline.answer r) = RAGPipeline.classifyIntent q
    /\ RAGPipeline.contextUsed (RAGPipeline.answer r)
       = (0 <? String.length (RAGPipeline.context r))
    /\ Forall (fun s =>
                 (forall l, ids = Some l -> In (RAGPipeline.s_documentId s) l)
                 /\ (forall t, VectorStore.contentType filters = Some t ->
                               t <> EmptyString -> RAGPipeline.s_type s = t)
                 /\ (VectorStore.minSimilarity filters = VectorStore.Absent ->
                     geb (RAGPipeline.s_similarity s) (dec 3 10) = true))
         (RAGPipeline.sources r)
    /\ (RAGPipeline.sources r = [] ->
        RAGPipeline.context r = EmptyString
        /\ RAGPipeline.relevanceScore r = 0%float
        /\ RAGPipeline.a_text (RAGPipeline.answer r)
           = (RAGPipeline.templates q (RAGPipeline.classifyIntent q)
              ++ RAGPipeline.notFoundMessage)%string).
Proof.
  intros Hkw.
  destruct (query_steps q ids filters st Hkw) as (retrieved & reranked & Es & Er & Eq).
  rewrite Eq. eexists. split; [reflexivity|].
  set (selected := JsArray.slice0 RAGPipeline.topK reranked).
  unfold responseOf.
  cbn [RAGPipeline.sources RAGPipeline.context RAGPipeline.queryIntent
       RAGPipeline.answer RAGPipeline.a_intent RAGPipeline.contextUsed
       RAGPipeline.relevanceScore RAGPipeline.a_text].
  split; [rewrite length_map; apply firstn_le_length|].
  split.
  { unfold RAGPipeline.buildContext.
    destruct (buildContextFrom_prefix selected EmptyString) as (k & _ & H & _).
    - simpl. unfold RAGPipeline.maxContextLength. lia.
    - exact H. }
  split; [reflexivity|]. split; [reflexivity|]. split; [reflexivity|]. split.
  - destruct (searchWithQuery_spec q ids (RAGPipeline.withFloor filters) st)
      as (retrieved' & Es' & _ & Hall).
    rewrite Es in Es'. injection Es' as <-.
    apply Forall_forall. intros s Hs. apply in_map_iff in Hs as (r & <- & Hr).
    apply (selected_retrieved q retrieved reranked r Er) in Hr.
    rewrite Forall_forall in Hall. destruct (Hall _ Hr) as (Ht & Hm & Hd).
    cbn [RAGPipeline.toSource RAGPipeline.s_documentId RAGPipeline.s_type
         RAGPipeline.s_similarity].
    split; [exact Hd|]. split; [exact Ht|].
    intros Hnone. apply (Hm (dec 3 10)).
    + unfold RAGPipeline.withFloor. cbn [VectorStore.minSimilarity]. rewrite Hnone.
      reflexivity.
    + reflexivity.
  - intros Hempty. apply map_eq_nil in Hempty. rewrite Hempty. repeat split.
Qed.

Lemma query_response_witness :
  exists r,
    RAGPipeline.query (N := Binary64) "Revenue grew" (Some ["doc1"%string])
      VectorStore.noFilters revenueStore = Normal r
    /\ List.length (RAGPipeline.sources r) = 1
    /\ Forall (fun s => RAGPipeline.s_documentId s = "doc1"%string
                        /\ geb (RAGPipeline.s_similarity s) (dec 3 10) = true)
         (RAGPipeline.sources r).
Proof.
  assert (Hkw : Forall (fun k => RAGPipeline.synonyms k <> RAGPipeline.Inherited)
                  (RAGPipeline.extractKeywords "Revenue grew")).
  { vm_compute. repeat (constructor; [discriminate|]). constructor. }
  destruct (query_response "Revenue grew" (Some ["doc1"%string]) VectorStore.noFilters
              revenueStore Hkw) as (r & E & _ & _ & _ & _ & _ & Hs & _).
  exists r. split; [exact E|]. split.
  - vm_compute in E. injection E as <-. reflexivity.
  - apply Forall_forall. intros s Hsrc. rewrite Forall_forall in Hs.
    destruct (Hs s Hsrc) as (Hd & _ & Hm). split.
    + destruct (Hd _ eq_refl) as [Hd' | []]. symmetry. exact Hd'.
    + apply Hm. reflexivity.
Defined.

Section QueryScores.
Import VectorStore RAGPipeline EvaluationMetrics.
Local Open Scope R_scope.

Lemma sumBy_at_least {A : Type} (f : A -> R) (lo : R) (l : list A) (acc : R) :
  Forall (fun x => lo <= f x) l ->
  acc + lo * INR (List.length l)
  <= fold_left (fun sum x => add (Number := Exact) sum (f x)) l acc.
Proof.
  revert acc. induction l as [|x l IH]; intros acc H.
  - simpl. lra.
  - inversion H as [|? ? Hx Hl]; subst. specialize (IH (acc + f x) Hl).
    change (fold_left (fun sum x => add (Number := Exact) sum (f x)) (x :: l) acc)
      with (fold_left (fun sum x => add (Number := Exact) sum (f x)) l (acc + f x)).
    rewrite length_cons, S_INR. lra.
Qed.

Lemma mean_at_least {A : Type} (f : A -> R) (lo : R) (l : list A) :
  l <> [] -> Forall (fun x => lo <= f x) l ->
  lo <= sumBy (N := Exact) f l / INR (List.length l).
Proof.
  intros Hne H. pose proof (sumBy_at_least f lo l 0 H) as B.
  assert (Hn : 0 < INR (List.length l)).
  { destruct l; [contradiction|]. rewrite length_cons, S_INR.
    pose proof (pos_INR (List.length l)). lra. }
  unfold sumBy. cbn [ofZ Exact].
  apply Rmult_le_reg_r with (INR (List.length l)); [exact Hn|].
  unfold Rdiv. rewrite Rmult_assoc, Rinv_l by lra. lra.
Qed.

Lemma stored_similarity_range (q : string) (st : Store R) (v : VectorData R) :
  Ingested st -> In v (map snd (vectors st)) ->
  embedding v = simulateEmbedding (vd_content v)
  /\ 0 <= cosineSimilarity (N := Exact) (simulateEmbedding q) (embedding v) <= 1.
Proof.
  intros Hing Hv. destruct (Ingested_filed st Hing) as [_ Hfiled].
  apply in_map_iff in Hv as (entry & <- & Hentry).
  rewrite Forall_forall in Hfiled. destruct (Hfiled entry Hentry) as (_ & _ & He & _).
  split; [exact He|]. rewrite He. split.
  - apply cosineSimilarity_nonneg; apply simulateEmbedding_normalized.
  - apply cosineSimilarity_range.
Qed.

Lemma relevanceScore_range (selected : list (Reranked R)) (response : Answer R) :
  Forall (fun c => 0 <= r_similarity (chunk c) <= 1) selected ->
  1 / 2 <= confidence response <= 1 ->
  0 <= calculateRelevanceScore (N := Exact) selected response <= 1
  /\ (selected <> [] -> Forall (fun c => 3 / 10 <= r_similarity (chunk c)) selected ->
      38 / 100 <= calculateRelevanceScore (N := Exact) selected response).
Proof.
  intros Hs Hc. unfold calculateRelevanceScore.
  destruct selected as [|c0 rest] eqn:El.
  - cbn. split; [lra | intros H; contradiction].
  - rewrite <- El in *. assert (Hne : selected <> []) by (rewrite El; discriminate).
    replace (List.length selected =? 0)%nat with false
      by (rewrite El; reflexivity).
    pose proof (mean_range (fun c => r_similarity (chunk c)) selected Hne Hs) as Hm.
    rewrite ofNat_exact. unfold orDefault, dec. cbn [truthy add mul div ofZ Exact].
    unfold Ex.truthy. destruct (Req_dec_T (confidence response) 0); [lra|].
    split; [lra|]. intros _ Hfloor.
    pose proof (mean_at_least (fun c => r_similarity (chunk c)) (3 / 10) selected Hne Hfloor).
    lra.
Qed.

(** [query] in exact arithmetic, on an index built by [storeDocument] and a
    query none of whose keywords names an inherited property: every source's
    similarity is the cosine between the embeddings of the query and of the
    source's content and lies in [0, 1]; the confidence lies in [0.5, 1];
    the relevance score lies in [0, 1], and is at least 0.38 when there is a
    source and [filters] has no [minSimilarity] property; and the four metrics
    [calculateMetrics] computes from the response lie in [0, 1]. *)
Theorem query_scores (q : string) (ids : option (list string)) (filters : Filters R)
  (st : Store R) :
  Ingested st ->
  Forall (fun k => synonyms k <> Inherited) (extractKeywords q) ->
  exists r,
    query (N := Exact) q ids filters st = Normal r
    /\ Forall (fun s =>
                 s_similarity s
                 = cosineSimilarity (N := Exact) (simulateEmbedding q)
                     (simulateEmbedding (s_content s))
                 /\ 0 <= s_similarity s <= 1)
         (RAGPipeline.sources r)
    /\ 1 / 2 <= confidence (answer r) <= 1
    /\ 0 <= RAGPipeline.relevanceScore r <= 1
    /\ (RAGPipeline.sources r <> [] -> minSimilarity filters = Absent ->
        38 / 100 <= RAGPipeline.relevanceScore r)
    /\ forall (elapsed : R) (history : State R),
         let m := fst (calculateMetrics r elapsed history) in
         0 <= faithfulness m <= 1
         /\ 0 <= answerRelevancy m <= 1
         /\ 0 <= contextRecall m <= 1
         /\ 0 <= contextPrecision m <= 1.
Proof.
  intros Hing Hkw.
  destruct (query_steps q ids filters st Hkw) as (retrieved & reranked & Es & Er & Eq).
  rewrite Eq. eexists. split; [reflexivity|].
  set (selected := JsArray.slice0 topK reranked).
  pose proof (searchWithQuery_similarity q ids (withFloor filters) st retrieved Es) as Hsim.
  rewrite Forall_forall in Hsim.
  assert (Hsel : Forall (fun c =>
                   r_similarity (chunk c)
                   = cosineSimilarity (N := Exact) (simulateEmbedding q)
                       (simulateEmbedding (r_content (chunk c)))
                   /\ 0 <= r_similarity (chunk c) <= 1) selected).
  { apply Forall_forall. intros c Hc.
    apply (selected_retrieved q retrieved reranked c Er) in Hc.
    destruct (Hsim _ Hc) as (v & Hv & Hcontent & Hscore).
    destruct (stored_similarity_range q st v Hing Hv) as [He Hr].
    rewrite Hscore. split; [|exact Hr]. rewrite He, Hcontent. reflexivity. }
  assert (Hrange : Forall (fun c => 0 <= r_similarity (chunk c) <= 1) selected).
  { apply Forall_forall. intros c Hc. rewrite Forall_forall in Hsel.
    exact (proj2 (Hsel c Hc)). }
  assert (Hconf : 1 / 2 <= calculateResponseConfidence (N := Exact)
                             (buildContext selected) q <= 1)
    by apply calculateResponseConfidence_range.
  assert (Hsources : Forall (fun s => 0 <= s_similarity s <= 1) (map toSource selected)).
  { apply Forall_forall. intros s Hs. apply in_map_iff in Hs as (c & <- & Hc).
    rewrite Forall_forall in Hrange. exact (Hrange c Hc). }
  unfold responseOf.
  cbn [RAGPipeline.sources answer confidence RAGPipeline.relevanceScore].
  split.
  { apply Forall_forall. intros s Hs. apply in_map_iff in Hs as (c & <- & Hc).
    rewrite Forall_forall in Hsel. exact (Hsel c Hc). }
  split; [exact Hconf|].
  match goal with
  | |- context [calculateRelevanceScore selected ?a] =>
      destruct (relevanceScore_range selected a Hrange Hconf) as [H1 H2]
  end.
  split; [exact H1|]. split.
  - intros Hne Hnone. apply H2.
    + intros E. apply Hne. rewrite E. reflexivity.
    + destruct (searchWithQuery_spec q ids (withFloor filters) st)
        as (retrieved' & Es' & _ & Hall).
      rewrite Es in Es'. injection Es' as <-.
      apply Forall_forall. intros c Hc.
      apply (selected_retrieved q retrieved reranked c Er) in Hc.
      rewrite Forall_forall in Hall. destruct (Hall _ Hc) as (_ & Hm & _).
      assert (Hf : geb (N := Exact) (r_similarity (chunk c)) (dec 3 10) = true).
      { apply Hm.
        - unfold withFloor. cbn [minSimilarity]. rewrite Hnone. reflexivity.
        - unfold dec. cbn [truthy div ofZ Exact]. unfold Ex.truthy.
          destruct (Req_dec_T (3 / 10) 0); [lra | reflexivity]. }
      unfold geb, dec in Hf. cbn [leb div ofZ Exact] in Hf. unfold Ex.leb in Hf.
      destruct (Rle_dec (3 / 10) (r_similarity (chunk c))); [assumption | discriminate].
  - intros elapsed history. unfold calculateMetrics.
    cbn [fst faithfulness answerRelevancy contextRecall contextPrecision
         RAGPipeline.sources answer RAGPipeline.context].
    split; [apply faithfulness_range|].
    split; [apply answerRelevancy_range; [exact Hsources | cbn [confidence]; lra]|].
    split; [apply contextRecall_range | apply contextPrecision_range].
Qed.

End QueryScores.

(** The scenario's document, indexed in exact arithmetic. *)
Definition exactStore : VectorStore.Store R :=
  match VectorStore.storeDocument (N := Exact) "doc1"
          (createChunks revenueText "pdf" noMetadata) VectorStore.empty with
  | Normal (st, _) => st
  | Throw _ => VectorStore.empty
  end.

Lemma query_scores_witness :
  exists r,
    RAGPipeline.query (N := Exact) "Revenue grew" None VectorStore.noFilters exactStore
    = Normal r
    /\ Forall (fun s => (0 <= RAGPipeline.s_similarity s <= 1)%R) (RAGPipeline.sources r)
    /\ (0 <= RAGPipeline.relevanceScore r <= 1)%R.
Proof.
  assert (Hing : Ingested exactStore).
  { apply (Ingested_store VectorStore.empty exactStore "doc1"
             (createChunks revenueText "pdf" noMetadata)
             (List.length (createChunks revenueText "pdf" noMetadata))).
    - apply Ingested_empty.
    - reflexivity. }
  assert (Hkw : Forall (fun k => RAGPipeline.synonyms k <> RAGPipeline.Inherited)
                  (RAGPipeline.extractKeywords "Revenue grew")).
  { vm_compute. repeat (constructor; [discriminate|]). constructor. }
  destruct (query_scores "Revenue grew" None VectorStore.noFilters exactStore Hing Hkw)
    as (r & E & Hs & _ & Hr & _).
  exists r. split; [exact E|]. split; [|exact Hr].
  apply Forall_forall. intros s Hsrc. rewrite Forall_forall in Hs.
  exact (proj2 (Hs s Hsrc)).
Defined.

Section CaseInsensitive.
Context {num : Type} {N : Number num}.
Import VectorStore RAGPipeline.

Lemma extractKeywords_toLowerCase (q : string) :
  extractKeywords (Js.toLowerCase q) = extractKeywords q.
Proof.
  unfold extractKeywords. rewrite toLowerCase_idempotent. reflexivity.
Qed.

Lemma expandFrom_outcome (keywords : list string) (x y : string) :
  match expandFrom x keywords, expandFrom y keywords with
  | Normal _, Normal _ => True
  | Throw e1, Throw e2 => e1 = e2
  | _, _ => False
  end.
Proof.
  revert x y. induction keywords as [|k l IH]; intros x y; simpl; [exact I|].
  destruct (synonyms k); [apply IH | reflexivity | apply IH].
Qed.

Lemma rerank_toLowerCase (q : string) (candidates : list (Retrieved num)) :
  rerank (Js.toLowerCase q) candidates = rerank q candidates.
Proof.
  unfold rerank. f_equal. f_equal. apply map_ext. intros c.
  unfold rerankScore, keywordOverlap, tableBoost. rewrite toLowerCase_idempotent.
  reflexivity.
Qed.

Lemma searchWithQuery_toLowerCase (q : string) (ids : option (list string))
  (filters : Filters num) (st : Store num) :
  searchWithQuery (Js.toLowerCase q) ids filters st = searchWithQuery q ids filters st.
Proof.
  unfold searchWithQuery. rewrite simulateEmbedding_toLowerCase. reflexivity.
Qed.

(** Two outcomes of [query] that agree on everything but the answer's text. *)
Definition sameRetrieval (a b : Completion (Response num)) : Prop :=
  match a, b with
  | Normal x, Normal y =>
      sources x = sources y
      /\ context x = context y
      /\ relevanceScore x = relevanceScore y
      /\ queryIntent x = queryIntent y
      /\ confidence (answer x) = confidence (answer y)
      /\ contextUsed (answer x) = contextUsed (answer y)
  | Throw e1, Throw e2 => e1 = e2
  | _, _ => False
  end.

(** The case of the query's letters changes nothing in the outcome of
    [query] but the wording of the answer: the same error, or the same
    sources, context, relevance score, intent and confidence. *)
Theorem query_case_insensitive (q : string) (ids : option (list string))
  (filters : Filters num) (st : Store num) :
  sameRetrieval (query (Js.toLowerCase q) ids filters st) (query q ids filters st).
Proof.
  unfold query, preprocessQuery, expandQuery.
  rewrite extractKeywords_toLowerCase.
  pose proof (expandFrom_outcome (extractKeywords q) (Js.toLowerCase q) q) as H.
  destruct (expandFrom (Js.toLowerCase q) (extractKeywords q)) as [e1|e1];
    destruct (expandFrom q (extractKeywords q)) as [e2|e2]; try contradiction.
  - cbn [bind text intent]. rewrite searchWithQuery_toLowerCase.
    destruct (searchWithQuery q ids (withFloor filters) st) as [retrieved|e];
      [|reflexivity].
    cbn [bind]. rewrite rerank_toLowerCase.
    destruct (rerank q retrieved) as [reranked|e]; [|reflexivity].
    cbn [bind generate sameRetrieval sources context relevanceScore queryIntent answer
         confidence contextUsed].
    assert (Ec : forall ctx, calculateResponseConfidence ctx (Js.toLowerCase q)
                             = calculateResponseConfidence ctx q).
    { intros ctx. unfold calculateResponseConfidence. rewrite toLowerCase_idempotent.
      reflexivity. }
    assert (Ei : classifyIntent (Js.toLowerCase q) = classifyIntent q)
      by apply firstIntent_toLowerCase.
    rewrite Ec, Ei. repeat split.
  - cbn [bind sameRetrieval]. exact H.
Qed.

End CaseInsensitive.

(** ** Evaluation: bookkeeping and particular values *)

Lemma sliceLast_length {A : Type} (k : nat) (l : list A) :
  List.length (Js.sliceLast k l) = Nat.min k (List.length l).
Proof.
  unfold Js.sliceLast. rewrite length_skipn. lia.
Qed.

Section Bookkeeping.
Context {num : Type} {N : Number num}.
Import EvaluationMetrics.

Definition bucketTotal (b : Buckets) : nat := fast b + medium b + slow b.

Lemma latency_buckets_from (queries : list (Metrics num)) (b : Buckets) :
  bucketTotal
    (fold_left
       (fun buckets q =>
          if ltb (latency q) (ofZ 1000)
          then {| fast := S (fast buckets); medium := medium buckets; slow := slow buckets |}
          else if ltb (latency q) (ofZ 3000)
          then {| fast := fast buckets; medium := S (medium buckets); slow := slow buckets |}
          else {| fast := fast buckets; medium := medium buckets; slow := S (slow buckets) |})
       queries b)
  = bucketTotal b + List.length queries.
Proof.
  revert b. induction queries as [|q l IH]; intros b; cbn [fold_left List.length].
  - lia.
  - rewrite IH. destruct (ltb (latency q) (ofZ 1000)); [|destruct (ltb (latency q) (ofZ 3000))];
      unfold bucketTotal; cbn [fast medium slow]; lia.
Qed.

Lemma getLatencyDistribution_total (queries : list (Metrics num)) :
  bucketTotal (getLatencyDistribution queries) = List.length queries.
Proof.
  unfold getLatencyDistribution. rewrite latency_buckets_from. reflexivity.
Qed.

Lemma queryTypes_from {A : Type} (queries : list A) (n : nat) :
  fold_left (fun types _ => increment "general" types) queries [("general"%string, n)]
  = [("general"%string, n + List.length queries)].
Proof.
  revert n. induction queries as [|q l IH]; intros n; cbn [fold_left List.length].
  - rewrite Nat.add_0_r. reflexivity.
  - cbn [increment]. change (String.eqb "general" "general") with true. cbv iota.
    rewrite IH. f_equal. f_equal. lia.
Qed.

Lemma getQueryTypeDistribution_general (queries : list (Metrics num)) :
  getQueryTypeDistribution queries
  = match queries with
    | [] => []
    | _ :: _ => [("general"%string, List.length queries)]
    end.
Proof.
  unfold getQueryTypeDistribution. destruct queries as [|q l]; [reflexivity|].
  cbn [fold_left increment]. rewrite queryTypes_from. reflexivity.
Qed.

(** Recording a response with its latency. *)
Definition record (st : State num) (x : RAGPipeline.Response num * num) : State num :=
  snd (calculateMetrics (fst x) (snd x) st).

Lemma record_history (xs : list (RAGPipeline.Response num * num)) (st : State num) :
  List.length (queryHistory (fold_left record xs st))
  = List.length (queryHistory st) + List.length xs
  /\ totalQueries (performanceMetrics (fold_left record xs st))
     = totalQueries (performanceMetrics st) + List.length xs
  /\ map success (queryHistory (fold_left record xs st))
     = map success (queryHistory st)
       ++ map (fun x => (0 <? List.length (RAGPipeline.sources (fst x)))%nat) xs.
Proof.
  revert st. induction xs as [|x xs IH]; intros st; cbn [fold_left List.length map].
  - rewrite app_nil_r. repeat split; lia.
  - destruct (IH (record st x)) as (H1 & H2 & H3). rewrite H1, H2, H3.
    unfold record, calculateMetrics, updatePerformanceMetrics.
    cbn [snd queryHistory performanceMetrics totalQueries].
    rewrite length_app, map_app. cbn [List.length map success].
    rewrite <- app_assoc. repeat split; lia.
Qed.

(** After [n] responses recorded from a new [EvaluationMetrics], the history
    holds [n] records and [totalQueries] is [n]; each record's success flag
    says whether its response had a source; the report counts the last 50
    records only: its three latency buckets add up to [min 50 n], and its
    query types are [general] for all of them, no record carrying an intent. *)
Theorem report_bookkeeping (xs : list (RAGPipeline.Response num * num)) :
  let st := fold_left record xs init in
  let report := getPerformanceReport st in
  List.length (queryHistory st) = List.length xs
  /\ totalQueries (performanceMetrics st) = List.length xs
  /\ map success (queryHistory st)
     = map (fun x => (0 <? List.length (RAGPipeline.sources (fst x)))%nat) xs
  /\ fast (latencyDistribution report) + medium (latencyDistribution report)
     + slow (latencyDistribution report) = Nat.min 50 (List.length xs)
  /\ queryTypes report
     = match xs with
       | [] => []
       | _ :: _ => [("general"%string, Nat.min 50 (List.length xs))]
       end.
Proof.
  intros st report. destruct (record_history xs init) as (H1 & H2 & H3).
  fold st in H1, H2, H3. cbn [init queryHistory performanceMetrics totalQueries
                               List.length map app] in H1, H2, H3.
  split; [exact H1|]. split; [exact H2|]. split; [exact H3|].
  unfold report, getPerformanceReport. cbn [latencyDistribution queryTypes].
  pose proof (getLatencyDistribution_total (Js.sliceLast 50 (queryHistory st))) as Hb.
  unfold bucketTotal in Hb. rewrite sliceLast_length, H1 in Hb. split; [exact Hb|].
  rewrite getQueryTypeDistribution_general.
  pose proof (sliceLast_length 50 (queryHistory st)) as Hl. rewrite H1 in Hl.
  destruct xs as [|x xs'].
  - destruct (Js.sliceLast 50 (queryHistory st)); [reflexivity | discriminate Hl].
  - destruct (Js.sliceLast 50 (queryHistory st)) as [|m l] eqn:E.
    + cbn [List.length] in Hl. lia.
    + rewrite Hl. reflexivity.
Qed.

End Bookkeeping.

Section ParticularValues.
Import RAGPipeline EvaluationMetrics.
Local Open Scope R_scope.

Lemma relevant_iff (s : Source R) :
  gtb (N := Exact) (s_similarity s) (dec 5 10) = true <-> 1 / 2 < s_similarity s.
Proof.
  unfold gtb, dec. cbn [ltb div ofZ Exact]. unfold Ex.ltb.
  destruct (Rlt_dec (5 / 10) (s_similarity s)); split; intros H;
    try reflexivity; try discriminate; lra.
Qed.

Lemma precision_loop_relevant (l : list (Source R)) (c : R) (n : nat) :
  Forall (fun s => 1 / 2 < s_similarity s) l ->
  fold_left (precisionStep (N := Exact)) l (c, n, n)
  = (c + INR (List.length l), (n + List.length l)%nat, (n + List.length l)%nat).
Proof.
  revert c n. induction l as [|s l IH]; intros c n H.
  - simpl. rewrite !Nat.add_0_r. f_equal. f_equal. lra.
  - inversion H as [|? ? Hs Hl]; subst. cbn [fold_left]. unfold precisionStep at 2.
    apply relevant_iff in Hs. rewrite Hs.
    replace (n + 1)%nat with (S n) by lia. rewrite !ofNat_exact. cbn [add div Exact].
    replace (INR (S n) / INR (S n)) with 1.
    + rewrite IH by exact Hl. rewrite length_cons, S_INR.
      f_equal; [f_equal; [lra | lia] | lia].
    + field. apply not_0_INR. discriminate.
Qed.

Lemma precision_loop_irrelevant (l : list (Source R)) (c : R) (found index : nat) :
  Forall (fun s => s_similarity s <= 1 / 2) l ->
  fst (fst (fold_left (precisionStep (N := Exact)) l (c, found, index))) = c.
Proof.
  revert index. induction l as [|s l IH]; intros index H; [reflexivity|].
  inversion H as [|? ? Hs Hl]; subst. cbn [fold_left]. unfold precisionStep at 2.
  destruct (gtb (s_similarity s) (dec 5 10)) eqn:E.
  - apply relevant_iff in E. lra.
  - apply IH, Hl.
Qed.

(** In exact arithmetic, when the sources of similarity above 0.5 come first
    (and there is one), context precision is 1, however many sources of
    lower similarity follow. *)
Theorem contextPrecision_ideal_ranking (relevant others : list (Source R)) :
  relevant <> [] ->
  Forall (fun s => 1 / 2 < s_similarity s) relevant ->
  Forall (fun s => s_similarity s <= 1 / 2) others ->
  calculateContextPrecision (N := Exact) (relevant ++ others) = 1.
Proof.
  intros Hne Hrel Hoth. unfold calculateContextPrecision.
  destruct relevant as [|s0 rel'] eqn:El; [contradiction|]. rewrite <- El in *.
  replace (List.length (relevant ++ others) =? 0)%nat with false
    by (rewrite El; reflexivity).
  rewrite fold_left_app.
  change (ofZ (Number := Exact) 0) with 0.
  rewrite (precision_loop_relevant relevant 0 0 Hrel).
  pose proof (precision_loop_irrelevant others (0 + INR (List.length relevant))
                (0 + List.length relevant) (0 + List.length relevant) Hoth) as Hc.
  destruct (fold_left precisionStep others _) as [[c f] i]. cbn [fst] in Hc. subst c.
  rewrite filter_app, length_app.
  rewrite (filter_all _ relevant), (filter_none _ others).
  - cbn [List.length]. rewrite Nat.add_0_r.
    assert (Hpos : (0 < List.length relevant)%nat) by (rewrite El; simpl; lia).
    apply Nat.ltb_lt in Hpos as Hb. rewrite Hb. rewrite ofNat_exact. cbn [div Exact].
    apply lt_INR in Hpos. simpl in Hpos. field. lra.
  - apply Forall_forall. intros s Hs. rewrite Forall_forall in Hoth.
    specialize (Hoth s Hs). destruct (gtb (s_similarity s) (dec 5 10)) eqn:E;
      [apply relevant_iff in E; lra | reflexivity].
  - apply Forall_forall. intros s Hs. rewrite Forall_forall in Hrel.
    apply relevant_iff, Hrel, Hs.
Qed.

Lemma contextPrecision_ideal_ranking_witness :
  calculateContextPrecision (N := Exact)
    ([sampleSource (8 / 10); sampleSource (6 / 10)] ++ [sampleSource (4 / 10)]) = 1.
Proof.
  apply contextPrecision_ideal_ranking.
  - discriminate.
  - repeat constructor; simpl; lra.
  - repeat constructor; simpl; lra.
Defined.

(** In exact arithmetic, an answer that repeats a non-empty context word for
    word has as faithfulness the share of its words that are longer than
    three characters: the shorter words never count as grounded. *)
Theorem faithfulness_of_verbatim_answer (answer : Answer R) (context : string) :
  a_text answer = context -> context <> EmptyString ->
  let words := Js.splitWhitespace (Js.toLowerCase context) in
  calculateFaithfulness (N := Exact) answer context
  = INR (List.length (filter (fun w => (3 <? String.length w)%nat) words))
    / INR (List.length words).
Proof.
  intros Ht Hne words. unfold calculateFaithfulness. rewrite Ht.
  destruct context as [|c rest]; [contradiction|].
  cbn [String.length Nat.eqb Js.truthyString]. fold words.
  pose proof (splitWhitespace_length (Js.toLowerCase (String c rest))) as Hn.
  fold words in Hn. apply Nat.ltb_lt in Hn. rewrite Hn. rewrite !ofNat_exact.
  cbn [div Exact]. f_equal. f_equal. f_equal. apply filter_ext_in.
  intros w Hw. apply arrayIncludes_In in Hw. rewrite Hw. reflexivity.
Qed.

Lemma faithfulness_of_verbatim_answer_witness :
  calculateFaithfulness (N := Exact)
    {| a_text := "the cat sat down"; confidence := 1; a_intent := "general";
       contextUsed := true |}
    "the cat sat down"
  = (1 / 4)%R.
Proof.
  rewrite faithfulness_of_verbatim_answer.
  - cbv [Js.splitWhitespace]. vm_compute List.length. simpl. lra.
  - reflexivity.
  - discriminate.
Defined.

End ParticularValues.

(** ** Processing a file *)

Section ProcessingFacts.
Context {num : Type} {N : Number num}.
Import Processing.

Lemma supported_cases (m : string) :
  Js.arrayIncludes supportedTypes m = true ->
  m = "application/pdf"%string
  \/ (String.eqb m "application/pdf" = false /\ String.prefix "image/" m = true).
Proof.
  intros H. apply arrayIncludes_In in H. unfold supportedTypes in H. simpl in H.
  destruct H as [<- | [<- | [<- | [<- | [<- | []]]]]];
    [left; reflexivity | right | right | right | right]; split; reflexivity.
Qed.

(** The external step [processDocument] takes for a type, when it rejects. *)
Definition rejection (f : File) (ext : Externals) (message : string) : Prop :=
  (mimetype f = "application/pdf"%string /\ pdfParse ext = Rejected message)
  \/ (mimetype f <> "application/pdf"%string
      /\ (sharpToBuffer ext = Rejected message
          \/ (exists u, sharpToBuffer ext = Resolved u)
             /\ sharpMetadata ext = Rejected message)).

(** What an outcome of [processDocument] tells. *)
Lemma processDocument_cases (f : File) (ext : Externals) :
  match processDocument f ext with
  | Throw TypeError => False
  | Throw (Error message) =>
      (~ In (mimetype f) supportedTypes
       /\ message = ("Unsupported file type: " ++ mimetype f)%string)
      \/ (In (mimetype f) supportedTypes
          /\ exists m, message = ("Failed to process document: " ++ m)%string
                       /\ rejection f ext m)
  | Normal r =>
      In (mimetype f) supportedTypes
      /\ filename r = originalname f
      /\ ptype r = mimetype f
      /\ processed r <> Bare
  end.
Proof.
  unfold processDocument.
  destruct (Js.arrayIncludes supportedTypes (mimetype f)) eqn:Es; cbn [negb].
  - assert (Hin : In (mimetype f) supportedTypes) by (apply arrayIncludes_In, Es).
    destruct (supported_cases _ Es) as [Epdf | [Enot Eimg]].
    + rewrite Epdf. change (String.eqb "application/pdf" "application/pdf") with true.
      cbv iota. unfold processPDF. destruct (pdfParse ext) as [d|m] eqn:Ep.
      * rewrite <- Epdf. repeat split; [exact Hin | discriminate].
      * right. rewrite <- Epdf. split; [exact Hin|]. exists m. split; [reflexivity|].
        left. split; assumption.
    + rewrite Enot, Eimg. unfold processImage.
      assert (Hne : mimetype f <> "application/pdf"%string)
        by (apply String.eqb_neq, Enot).
      destruct (sharpToBuffer ext) as [u|m] eqn:Eb.
      * destruct (sharpMetadata ext) as [dims|m] eqn:Em.
        -- repeat split; [exact Hin | discriminate].
        -- right. split; [exact Hin|]. exists m. split; [reflexivity|].
           right. split; [exact Hne|]. right. split; [exists u; exact Eb | exact Em].
      * right. split; [exact Hin|]. exists m. split; [reflexivity|].
        right. split; [exact Hne|]. left. exact Eb.
  - left. split; [|reflexivity]. intros Hin. apply arrayIncludes_In in Hin.
    rewrite Hin in Es. discriminate.
Qed.

(** [processDocument] throws in two cases, and in these only.  For a type
    that is not supported it throws [Unsupported file type: ] followed by the
    type, whatever the libraries would answer.  For a supported type whose
    library step rejects ([pdf-parse] for a PDF; for an image [sharp]'s
    [toBuffer], or its [metadata] after that) it throws
    [Failed to process document: ] followed by the library's message.  For a
    PDF that [pdf-parse] reads it returns the pages, the text, the chunks
    [createChunks] makes of the text, and the number of pieces between spaces
    as word count.  And whatever it returns is under the file's name and
    type, and is the result of a PDF or of an image. *)
Theorem processDocument_outcome (f : File) (ext : Externals) :
  (~ In (mimetype f) supportedTypes ->
   processDocument f ext
   = Throw (Error ("Unsupported file type: " ++ mimetype f)%string))
  /\ (forall m, In (mimetype f) supportedTypes -> rejection f ext m ->
        processDocument f ext
        = Throw (Error ("Failed to process document: " ++ m)%string))
  /\ (forall d, mimetype f = "application/pdf"%string -> pdfParse ext = Resolved d ->
        processDocument f ext
        = Normal
            {| filename := originalname f;
               ptype := mimetype f;
               processed :=
                 Pdf (numpages d) (text d) (createChunks (text d) "pdf" noMetadata)
                   {| wordCount := List.length (Js.split " " (text d));
                      pdf_hasImages := false |} |})
  /\ match processDocument f ext with
     | Throw TypeError => False
     | Throw (Error message) =>
         (~ In (mimetype f) supportedTypes
          /\ message = ("Unsupported file type: " ++ mimetype f)%string)
         \/ (In (mimetype f) supportedTypes
             /\ exists m, message = ("Failed to process document: " ++ m)%string
                          /\ rejection f ext m)
     | Normal r =>
         In (mimetype f) supportedTypes
         /\ filename r = originalname f
         /\ ptype r = mimetype f
         /\ processed r <> Bare
     end.
Proof.
  split; [|split; [|split; [|exact (processDocument_cases f ext)]]].
  - intros Hout. unfold processDocument.
    destruct (Js.arrayIncludes supportedTypes (mimetype f)) eqn:Es; [|reflexivity].
    exfalso. apply Hout, arrayIncludes_In, Es.
  - intros m Hin Hrej. unfold processDocument.
    apply arrayIncludes_In in Hin. rewrite Hin. cbn [negb].
    destruct Hrej as [[Epdf Ep] | [Hne Hrej]].
    + rewrite Epdf. change (String.eqb "application/pdf" "application/pdf") with true.
      cbv iota. unfold processPDF. rewrite Ep. reflexivity.
    + destruct (supported_cases _ Hin) as [Epdf | [Enot Eimg]]; [contradiction|].
      rewrite Enot, Eimg. unfold processImage.
      destruct Hrej as [Eb | [[u Eb] Em]]; rewrite Eb; [reflexivity|].
      rewrite Em. reflexivity.
  - intros d Epdf Ep. unfold processDocument. rewrite Epdf.
    change (Js.arrayIncludes supportedTypes "application/pdf") with true.
    change (String.eqb "application/pdf" "application/pdf") with true.
    cbn [negb]. cbv iota. unfold processPDF. rewrite Ep. reflexivity.
Qed.

(** The one chunk every image gives. *)
Definition ocrChunk : Chunk :=
  {| id := 1;
     content := performOCR;
     type := "visual_context";
     metadata := {| sourceType := "image";
                    chunkType := "visual_context";
                    visualElements := Some extractTablesFromImage;
                    charts := Some extractChartsFromImage |} |}.

(** Whatever the image, of any of the four supported image types: when the
    two library calls succeed, the result holds the simulated OCR text and
    exactly one chunk, always the same, with the simulated table and chart
    attached. *)
Theorem processDocument_image (f : File) (ext : Externals) (u : unit) (dims : nat * nat) :
  In (mimetype f) ["image/jpeg"; "image/png"; "image/tiff"; "image/bmp"]%string ->
  sharpToBuffer ext = Resolved u ->
  sharpMetadata ext = Resolved dims ->
  exists r meta,
    processDocument f ext = Normal r
    /\ processed r
       = Image performOCR extractTablesFromImage extractChartsFromImage [ocrChunk] meta
    /\ chunksOf r = [ocrChunk]
    /\ dimensions meta = dims
    /\ hasText meta = true.
Proof.
  intros Hm Eb Em. unfold processDocument.
  assert (H : Js.arrayIncludes supportedTypes (mimetype f) = true
              /\ String.eqb (mimetype f) "application/pdf" = false
              /\ String.prefix "image/" (mimetype f) = true).
  { simpl in Hm. destruct Hm as [<- | [<- | [<- | [<- | []]]]]; repeat split. }
  destruct H as (H1 & H2 & H3). rewrite H1, H2, H3. cbn [negb].
  unfold processImage. rewrite Eb, Em.
  eexists. eexists. split; [reflexivity|]. repeat split.
Qed.

End ProcessingFacts.

Lemma processDocument_outcome_witness :
  Processing.processDocument (N := Binary64)
    {| Processing.mimetype := "application/pdf";
       Processing.originalname := "broken.pdf" |}
    {| Processing.pdfParse := Processing.Rejected "Invalid PDF structure";
       Processing.sharpToBuffer := Processing.Resolved tt;
       Processing.sharpMetadata := Processing.Resolved (800, 600) |}
  = Throw (Error "Failed to process document: Invalid PDF structure").
Proof.
  apply (proj1 (proj2 (processDocument_outcome (N := Binary64)
                         {| Processing.mimetype := "application/pdf";
                            Processing.originalname := "broken.pdf" |}
                         {| Processing.pdfParse :=
                              Processing.Rejected "Invalid PDF structure";
                            Processing.sharpToBuffer := Processing.Resolved tt;
                            Processing.sharpMetadata := Processing.Resolved (800, 600) |}))).
  - left. reflexivity.
  - left. split; reflexivity.
Defined.

Lemma processDocument_image_witness :
  exists r,
    Processing.processDocument (N := Binary64)
      {| Processing.mimetype := "image/png"; Processing.originalname := "scan.png" |}
      {| Processing.pdfParse := Processing.Rejected "not a PDF";
         Processing.sharpToBuffer := Processing.Resolved tt;
         Processing.sharpMetadata := Processing.Resolved (800, 600) |} = Normal r
    /\ Processing.chunksOf r = [ocrChunk].
Proof.
  destruct (processDocument_image (N := Binary64)
              {| Processing.mimetype := "image/png";
                 Processing.originalname := "scan.png" |}
              {| Processing.pdfParse := Processing.Rejected "not a PDF";
                 Processing.sharpToBuffer := Processing.Resolved tt;
                 Processing.sharpMetadata := Processing.Resolved (800, 600) |}
              tt (800, 600))
    as (r & meta & E & _ & Hc & _).
  - right. left. reflexivity.
  - reflexivity.
  - reflexivity.
  - exists r. split; assumption.
Defined.


(** On doubles the OCR confidence lies between 0.5 and 1, and is at least
    0.8 for a text with a letter. *)
Theorem calculateOCRConfidence_range (text : string) :
  let c := Processing.calculateOCRConfidence (N := Binary64) text in
  PrimFloat.leb (dec 5 10) c = true
  /\ PrimFloat.leb c (ofZ 1) = true
  /\ (Processing.anyChar Processing.isLetter text = true ->
      PrimFloat.leb (dec 8 10) c = true).
Proof.
  unfold Processing.calculateOCRConfidence.
  destruct (Processing.anyChar Processing.isLetter text);
    destruct (Processing.anyChar Processing.isDigit text);
    destruct (negb (Processing.anyChar Processing.isSpecialChar text)
              || (50 <? String.length text)%nat);
    cbv zeta; repeat split; try reflexivity; intros H; discriminate H.
Qed.

(** ** The server *)

Lemma mapSet_length {V : Type} (key : string) (value : V) (m : list (string * V)) :
  List.length (JsArray.mapSet key value m) <= S (List.length m).
Proof.
  induction m as [|[k v] m IH]; simpl; [lia|].
  destruct (String.eqb k key); simpl; lia.
Qed.

Section ServerFacts.
Context {num : Type} {N : Number num}.
Import Server.

(** On an empty index [query] either throws or answers without sources. *)
Lemma query_empty_index (q : string) (ids : option (list string))
  (filters : VectorStore.Filters num) :
  match RAGPipeline.query q ids filters VectorStore.empty with
  | Throw _ => Exists (fun k => RAGPipeline.synonyms k = RAGPipeline.Inherited)
                 (RAGPipeline.extractKeywords q)
  | Normal response =>
      RAGPipeline.sources response = []
      /\ RAGPipeline.context response = EmptyString
      /\ RAGPipeline.relevanceScore response = ofZ 0
      /\ RAGPipeline.a_text (RAGPipeline.answer response)
         = (RAGPipeline.templates q (RAGPipeline.classifyIntent q)
            ++ RAGPipeline.notFoundMessage)%string
      /\ RAGPipeline.contextUsed (RAGPipeline.answer response) = false
  end.
Proof.
  destruct (Exists_dec (fun k => RAGPipeline.synonyms k = RAGPipeline.Inherited)
              (RAGPipeline.extractKeywords q)) as [Hex | Hno].
  { intros k. destruct (RAGPipeline.synonyms k);
      [right; discriminate | left; reflexivity | right; discriminate]. }
  - unfold RAGPipeline.query, RAGPipeline.preprocessQuery, RAGPipeline.expandQuery.
    rewrite (expandFrom_throws _ q Hex). cbn [bind]. exact Hex.
  - assert (Hkw : Forall (fun k => RAGPipeline.synonyms k <> RAGPipeline.Inherited)
                    (RAGPipeline.extractKeywords q)).
    { apply Forall_forall. intros k Hk E. apply Hno, Exists_exists.
      exists k. split; assumption. }
    destruct (expandFrom_returns _ q Hkw) as [e He].
    unfold RAGPipeline.query, RAGPipeline.preprocessQuery, RAGPipeline.expandQuery.
    rewrite He. cbn [bind RAGPipeline.text RAGPipeline.intent].
    rewrite (searchWithQuery_none q ids (RAGPipeline.withFloor filters) VectorStore.empty
               eq_refl).
    repeat split.
Qed.

Definition answered (response : Response num) : bool :=
  match body response with
  | Answered _ _ _ _ _ => true
  | _ => false
  end.

Definition uploaded (response : Response num) : bool :=
  match body response with
  | Uploaded _ _ => true
  | _ => false
  end.

(** What one request does to the state. *)
Lemma handle_effect (request : Request num) (s : State num) :
  let s' := fst (handle request s) in
  let response := snd (handle request s) in
  ragPipeline s' = ragPipeline s
  /\ (Ingested (vectorStore s) -> Ingested (vectorStore s'))
  /\ List.length (VectorStore.documents (vectorStore s'))
     <= List.length (VectorStore.documents (vectorStore s))
        + (if uploaded response then 1 else 0)
  /\ List.length (EvaluationMetrics.queryHistory (evaluationMetrics s'))
     = List.length (EvaluationMetrics.queryHistory (evaluationMetrics s))
       + (if answered response then 1 else 0)
  /\ EvaluationMetrics.totalQueries
       (EvaluationMetrics.performanceMetrics (evaluationMetrics s'))
     = EvaluationMetrics.totalQueries
         (EvaluationMetrics.performanceMetrics (evaluationMetrics s))
       + (if answered response then 1 else 0)
  /\ match body response with
     | Failed _ => s' = s /\ (status response = 400 \/ status response = 500)
     | _ => status response = 200
     end.
Proof.
  destruct request as [r | r]; cbn [handle].
  - unfold upload. destruct (file r) as [f|]; cbn zeta.
    2:{ cbn. repeat split; try lia; auto. }
    destruct (Processing.processDocument f (externals r)) as [result | e].
    2:{ cbn. repeat split; try lia; auto. }
    destruct (insertOne r) as [insertedId | m].
    2:{ cbn. repeat split; try lia; auto. }
    destruct (VectorStore.storeDocument insertedId (Processing.chunksOf result)
                (vectorStore s)) as [[st' n] | e] eqn:E.
    2:{ cbn. repeat split; try lia; auto. }
    cbn [fst snd vectorStore ragPipeline evaluationMetrics body status uploaded answered].
    split; [reflexivity|]. split.
    { intros H. exact (Ingested_store _ _ _ _ _ H E). }
    split.
    { apply storeDocument_vectors in E as (_ & _ & ->).
      pose proof (mapSet_length insertedId
                    {| VectorStore.doc_id := insertedId;
                       VectorStore.chunksCount := List.length (Processing.chunksOf result) |}
                    (VectorStore.documents (vectorStore s))). lia. }
    repeat split; lia.
  - unfold postQuery.
    destruct (RAGPipeline.query (query r) (documentIds r) _ (ragPipeline s))
      as [response | e].
    2:{ cbn. repeat split; try lia; auto. }
    unfold EvaluationMetrics.calculateMetrics, EvaluationMetrics.updatePerformanceMetrics.
    cbn [fst snd vectorStore ragPipeline evaluationMetrics body status uploaded answered
         EvaluationMetrics.queryHistory EvaluationMetrics.performanceMetrics
         EvaluationMetrics.totalQueries].
    rewrite length_app. cbn [List.length].
    repeat split; try lia; auto.
Qed.

Lemma serve_cons (request : Request num) (rest : list (Request num)) (s : State num) :
  serve (request :: rest) s
  = (fst (serve rest (fst (handle request s))),
     snd (handle request s) :: snd (serve rest (fst (handle request s)))).
Proof.
  cbn [serve]. destruct (handle request s) as [s' response]. cbn [fst snd].
  destruct (serve rest s') as [s'' responses]. reflexivity.
Qed.

Lemma serve_effect (requests : list (Request num)) (s : State num) :
  let s' := fst (serve requests s) in
  let responses := snd (serve requests s) in
  ragPipeline s' = ragPipeline s
  /\ (Ingested (vectorStore s) -> Ingested (vectorStore s'))
  /\ List.length responses = List.length requests
  /\ List.length (VectorStore.documents (vectorStore s'))
     <= List.length (VectorStore.documents (vectorStore s))
        + List.length (filter uploaded responses)
  /\ List.length (EvaluationMetrics.queryHistory (evaluationMetrics s'))
     = List.length (EvaluationMetrics.queryHistory (evaluationMetrics s))
       + List.length (filter answered responses)
  /\ EvaluationMetrics.totalQueries
       (EvaluationMetrics.performanceMetrics (evaluationMetrics s'))
     = EvaluationMetrics.totalQueries
         (EvaluationMetrics.performanceMetrics (evaluationMetrics s))
       + List.length (filter answered responses).
Proof.
  revert s. induction requests as [|request rest IH]; intros s.
  - cbn. repeat split; try lia; auto.
  - rewrite serve_cons. cbn [fst snd].
    destruct (handle_effect request s) as (H1 & H2 & H3 & H4 & H5 & _).
    destruct (IH (fst (handle request s))) as (I1 & I2 & I3 & I4 & I5 & I6).
    cbn zeta in *. cbn [filter List.length].
    split; [congruence|]. split; [auto|]. split; [lia|].
    destruct (uploaded (snd (handle request s)));
      destruct (answered (snd (handle request s))); cbn [List.length];
      repeat split; lia.
Qed.

(** The pipeline of the server has an index of its own, which no route
    fills: whatever was uploaded before, and whatever the filters, a query
    none of whose keywords is [constructor] or [__proto__] is answered with
    status 200, no source, relevance score 0 and the "couldn't find" message,
    and is counted as a failure by the metrics. *)
Theorem server_queries_see_no_upload (requests : list (Request num))
  (r : QueryRequest num) :
  Forall (fun k => RAGPipeline.synonyms k <> RAGPipeline.Inherited)
    (RAGPipeline.extractKeywords (query r)) ->
  exists answer metrics,
    snd (postQuery r (fst (serve requests init)))
    = {| status := 200; body := Answered answer [] (ofZ 0) metrics (elapsed r) |}
    /\ RAGPipeline.a_text answer
       = (RAGPipeline.templates (query r) (RAGPipeline.classifyIntent (query r))
          ++ RAGPipeline.notFoundMessage)%string
    /\ RAGPipeline.contextUsed answer = false
    /\ EvaluationMetrics.success metrics = false
    /\ EvaluationMetrics.sourcesCount metrics = 0.
Proof.
  intros Hkw.
  destruct (serve_effect requests init) as (Hp & _). cbn zeta in Hp.
  unfold postQuery. rewrite Hp. cbn [init ragPipeline].
  set (filters := match Server.filters r with
                  | Some f => f
                  | None => VectorStore.noFilters
                  end).
  pose proof (query_empty_index (query r) (documentIds r) filters) as H.
  destruct (RAGPipeline.query (query r) (documentIds r) filters VectorStore.empty)
    as [response | e].
  - destruct H as (Hs & Hc & Hr & Ht & Hu).
    unfold EvaluationMetrics.calculateMetrics. cbn [snd body status].
    rewrite Hs, Hr. eexists. eexists. split; [reflexivity|].
    cbn [EvaluationMetrics.success EvaluationMetrics.sourcesCount List.length].
    repeat split; assumption.
  - exfalso. apply Exists_exists in H as (k & Hk & E).
    rewrite Forall_forall in Hkw. exact (Hkw k Hk E).
Qed.

(** Over any sequence of uploads and queries served from the start: the
    server answers every request; its index is one built by [storeDocument]
    and lists at most one document per accepted upload; the evaluation
    history holds one record per answered query, in step with
    [totalQueries]; and the pipeline's index stays empty. *)
Theorem server_accounting (requests : list (Request num)) :
  let s := fst (serve requests init) in
  let responses := snd (serve requests init) in
  List.length responses = List.length requests
  /\ Ingested (vectorStore s)
  /\ List.length (VectorStore.documents (vectorStore s))
     <= List.length (filter uploaded responses)
  /\ List.length (EvaluationMetrics.queryHistory (evaluationMetrics s))
     = List.length (filter answered responses)
  /\ EvaluationMetrics.totalQueries
       (EvaluationMetrics.performanceMetrics (evaluationMetrics s))
     = List.length (filter answered responses)
  /\ ragPipeline s = VectorStore.empty.
Proof.
  destruct (serve_effect requests init) as (H1 & H2 & H3 & H4 & H5 & H6).
  cbn zeta in *. cbn [init vectorStore ragPipeline evaluationMetrics
                       EvaluationMetrics.init EvaluationMetrics.queryHistory
                       EvaluationMetrics.performanceMetrics
                       EvaluationMetrics.totalQueries VectorStore.empty
                       VectorStore.documents List.length] in *.
  repeat split; try assumption; try lia.
  apply H2. constructor.
Qed.

(** A request that fails changes nothing: an error comes with status 400
    or 500 and the state as it was; any other answer has status 200. *)
Lemma server_failure_leaves_state (request : Request num) (s : State num) :
  match body (snd (handle request s)) with
  | Failed error =>
      fst (handle request s) = s
      /\ ((status (snd (handle request s)) = 400 /\ error = "No file uploaded"%string)
          \/ (status (snd (handle request s)) = 500
              /\ (error = "Document processing failed"%string
                  \/ error = "Query processing failed"%string)))
  | _ => status (snd (handle request s)) = 200
  end.
Proof.
  destruct request as [r | r]; cbn [handle].
  - unfold upload. destruct (file r) as [f|]; [|cbn; auto].
    destruct (Processing.processDocument f (externals r)) as [result | e]; [|cbn; auto].
    destruct (insertOne r) as [insertedId | m]; [|cbn; auto].
    destruct (VectorStore.storeDocument insertedId (Processing.chunksOf result)
                (vectorStore s)) as [[st' n] | e]; cbn; auto.
  - unfold postQuery.
    destruct (RAGPipeline.query (query r) (documentIds r) _ (ragPipeline s))
      as [response | e]; [|cbn; auto].
    unfold EvaluationMetrics.calculateMetrics. reflexivity.
Qed.

End ServerFacts.

Definition sampleUpload : Server.Request float :=
  Server.PostUpload
    {| Server.file := Some {| Processing.mimetype := "application/pdf"%string;
                              Processing.originalname := "report.pdf"%string |};
       Server.externals :=
         {| Processing.pdfParse :=
              Processing.Resolved {| Processing.text := revenueText;
                                     Processing.numpages := 1 |};
            Processing.sharpToBuffer := Processing.Rejected "not an image"%string;
            Processing.sharpMetadata := Processing.Rejected "not an image"%string |};
       Server.insertOne := Processing.Resolved "doc1"%string |}.

Definition sampleQuery : Server.QueryRequest float :=
  {| Server.query := "What happened to revenue?"%string;
     Server.documentIds := None;
     Server.filters := None;
     Server.elapsed := ofZ 12 |}.

Lemma server_queries_see_no_upload_witness :
  exists answer metrics,
    snd (Server.postQuery sampleQuery (fst (Server.serve [sampleUpload] Server.init)))
    = {| Server.status := 200;
         Server.body := Server.Answered answer [] (ofZ 0) metrics
                          (Server.elapsed sampleQuery) |}
    /\ RAGPipeline.a_text answer
       = (RAGPipeline.templates (Server.query sampleQuery)
            (RAGPipeline.classifyIntent (Server.query sampleQuery))
          ++ RAGPipeline.notFoundMessage)%string
    /\ RAGPipeline.contextUsed answer = false
    /\ EvaluationMetrics.success metrics = false
    /\ EvaluationMetrics.sourcesCount metrics = 0.
Proof.
  apply (server_queries_see_no_upload (N := Binary64) [sampleUpload] sampleQuery).
  vm_compute. repeat (constructor; [discriminate|]). constructor.
Defined.

(** ** The index and its documents *)

Lemma mapSet_keys {V : Type} (key : string) (value : V) (m : list (string * V))
  (k : string) :
  In k (map fst m) \/ k = key -> In k (map fst (JsArray.mapSet key value m)).
Proof.
  induction m as [|[k' v'] m IH]; simpl.
  - intros [[] | ->]. left. reflexivity.
  - destruct (String.eqb k' key) eqn:E; simpl.
    + apply String.eqb_eq in E. subst k'. intros [[-> | H] | ->]; auto.
    + intros [[-> | H] | ->]; auto.
Qed.

Section IndexDocuments.
Context {num : Type} {N : Number num}.
Import VectorStore.

Lemma storeChunks_entries (P : string * VectorData num -> Prop) (docId : string)
  (pairs : list (Chunk * list num)) (vs : list (string * VectorData num)) :
  (forall key v, documentId v = docId -> P (key, v)) ->
  Forall P vs -> Forall P (fold_left (storeChunk docId) pairs vs).
Proof.
  intros Hnew. revert vs. induction pairs as [|[c e] pairs IH]; intros vs H; [exact H|].
  cbn [fold_left]. apply IH. unfold storeChunk.
  apply mapSet_entries; [|exact H]. apply Hnew. reflexivity.
Qed.

(** In an index built from the empty one by [storeDocument] alone, however
    many documents were stored and stored again: no two records share a key;
    each record is kept under its own [id], which is its document's id, an
    underscore and its chunk's id; its embedding is the one of its content
    and has 384 components; and its document is listed in [documents]. *)
Theorem index_invariant (st : Store num) :
  Ingested st ->
  NoDup (map fst (vectors st))
  /\ Forall (fun entry =>
               fst entry = vd_id (snd entry)
               /\ vd_id (snd entry)
                  = (documentId (snd entry) ++ "_"
                     ++ Js.ofNat (chunkId (snd entry)))%string
               /\ embedding (snd entry) = simulateEmbedding (vd_content (snd entry))
               /\ List.length (embedding (snd entry)) = embeddingDimensions
               /\ In (documentId (snd entry)) (map fst (documents st)))
       (vectors st).
Proof.
  intros H. destruct (Ingested_filed st H) as [ND Hf]. split; [exact ND|].
  assert (Hd : Forall (fun entry => In (documentId (snd entry)) (map fst (documents st)))
                 (vectors st)).
  { clear ND Hf. induction H as [|st st' docId chunks n _ IH E]; [constructor|].
    unfold storeDocument in E. injection E as <- _. cbn [vectors documents].
    apply storeChunks_entries.
    - intros key v Hv. cbn [snd]. rewrite Hv. apply mapSet_keys. right. reflexivity.
    - apply Forall_forall. intros entry He. rewrite Forall_forall in IH.
      apply mapSet_keys. left. exact (IH entry He). }
  rewrite Forall_forall in *. intros entry He.
  destruct (Hf entry He) as (H1 & H2 & H3 & H4).
  repeat split; try assumption. exact (Hd entry He).
Qed.

(** [search] returns as many results as the limit allows among the records
    of the listed documents (all records when no list is given); each result
    is such a stored record, with the cosine similarity between the query's
    embedding and its own. *)
Theorem search_results (q : list num) (ids : option (list string)) (limit : nat)
  (st : Store num) :
  exists results,
    search q ids limit st = Normal results
    /\ List.length results
       = Nat.min limit
           (List.length (filter (fun v => negb (excluded ids v)) (map snd (vectors st))))
    /\ Forall (fun r =>
                 In (data r) (map snd (vectors st))
                 /\ similarity r = cosineSimilarity q (embedding (data r))
                 /\ forall l, ids = Some l -> In (documentId (data r)) l)
         results.
Proof.
  exact (search_spec q ids limit st).
Qed.

End IndexDocuments.

Lemma index_invariant_witness :
  NoDup (map fst (VectorStore.vectors revenueStore))
  /\ Forall (fun entry =>
               fst entry = VectorStore.vd_id (snd entry)
               /\ VectorStore.vd_id (snd entry)
                  = (VectorStore.documentId (snd entry) ++ "_"
                     ++ Js.ofNat (VectorStore.chunkId (snd entry)))%string
               /\ VectorStore.embedding (snd entry)
                  = VectorStore.simulateEmbedding (VectorStore.vd_content (snd entry))
               /\ List.length (VectorStore.embedding (snd entry))
                  = VectorStore.embeddingDimensions
               /\ In (VectorStore.documentId (snd entry))
                    (map fst (VectorStore.documents revenueStore)))
       (VectorStore.vectors revenueStore).
Proof.
  apply (index_invariant (N := Binary64) revenueStore).
  apply (Ingested_store VectorStore.empty revenueStore "doc1"%string
           (createChunks revenueText "pdf" noMetadata) 2 Ingested_empty).
  reflexivity.
Defined.

(** ** The client: selecting documents *)

Lemma filter_NoDup {A : Type} (p : A -> bool) (l : list A) :
  NoDup l -> NoDup (filter p l).
Proof.
  induction 1 as [|x l Hx _ IH]; simpl; [constructor|].
  destruct (p x); [|exact IH]. constructor; [|exact IH].
  intros H. apply filter_In in H as [H _]. exact (Hx H).
Qed.

(** Clicking a document toggles it and nothing else: afterwards it is
    selected exactly when it was not, every other document is selected
    exactly when it was, a selection without repetition stays so, and
    clicking twice a document that was not selected gives the selection
    back. *)
Theorem handleSelectDocument_toggles (selected : list string) (documentId : string) :
  (In documentId (Client.handleSelectDocument selected documentId)
   <-> ~ In documentId selected)
  /\ (forall other, other <> documentId ->
        (In other (Client.handleSelectDocument selected documentId)
         <-> In other selected))
  /\ (NoDup selected -> NoDup (Client.handleSelectDocument selected documentId))
  /\ (~ In documentId selected ->
      Client.handleSelectDocument
        (Client.handleSelectDocument selected documentId) documentId
      = selected).
Proof.
  unfold Client.handleSelectDocument at 1 2 3 5.
  destruct (Js.arrayIncludes selected documentId) eqn:E.
  - assert (Hin : In documentId selected) by (apply arrayIncludes_In, E).
    split; [|split; [|split]].
    + split; [|intros H; contradiction].
      intros H. apply filter_In in H as [_ H]. rewrite String.eqb_refl in H. discriminate.
    + intros other Hne. rewrite filter_In. split; [tauto|].
      intros H. split; [exact H|]. apply negb_true_iff, String.eqb_neq, Hne.
    + apply filter_NoDup.
    + intros H. contradiction.
  - assert (Hout : ~ In documentId selected).
    { intros H. apply arrayIncludes_In in H. rewrite H in E. discriminate. }
    split; [|split; [|split]].
    + split; [intros _; exact Hout|]. intros _. apply in_or_app. right. left. reflexivity.
    + intros other Hne. rewrite in_app_iff. simpl. split; [|tauto].
      intros [H | [H | []]]; [exact H | symmetry in H; contradiction].
    + intros ND. apply NoDup_app; [exact ND | repeat constructor; intros [] |].
      intros x Hx [<- | []]. contradiction.
    + intros _. unfold Client.handleSelectDocument.
      assert (Hyes : Js.arrayIncludes (selected ++ [documentId])%list documentId = true).
      { apply arrayIncludes_In, in_or_app. right. left. reflexivity. }
      rewrite Hyes, filter_app. simpl. rewrite String.eqb_refl. simpl.
      rewrite app_nil_r. clear E Hyes. induction selected as [|x l IH]; [reflexivity|].
      simpl. destruct (String.eqb x documentId) eqn:Ex.
      * apply String.eqb_eq in Ex. subst x. exfalso. apply Hout. left. reflexivity.
      * simpl. f_equal. apply IH. intros H. apply Hout. right. exact H.
Qed.

(** The "select all" box decides by counting.  While the selection holds
    distinct ids of listed documents, it clears the selection when every
    document is selected and selects every document otherwise. *)
Theorem handleSelectAll_toggles (selected documents : list string) :
  NoDup selected -> NoDup documents -> incl selected documents ->
  (incl documents selected -> Client.handleSelectAll selected documents = [])
  /\ (~ incl documents selected -> Client.handleSelectAll selected documents = documents).
Proof.
  intros NDs NDd Hsub. unfold Client.handleSelectAll.
  pose proof (NoDup_incl_length NDs Hsub) as Hle.
  destruct (List.length selected =? List.length documents) eqn:E.
  - split; [reflexivity|]. intros Hnot. exfalso. apply Hnot.
    apply Nat.eqb_eq in E. apply (NoDup_length_incl NDs); [lia | exact Hsub].
  - split; [|reflexivity]. intros Hall. apply Nat.eqb_neq in E.
    pose proof (NoDup_incl_length NDd Hall). lia.
Qed.

Lemma handleSelectAll_toggles_witness :
  (incl ["doc1"; "doc2"]%string ["doc2"]%string ->
   Client.handleSelectAll ["doc2"]%string ["doc1"; "doc2"]%string = [])
  /\ (~ incl ["doc1"; "doc2"]%string ["doc2"]%string ->
      Client.handleSelectAll ["doc2"]%string ["doc1"; "doc2"]%string
      = ["doc1"; "doc2"]%string).
Proof.
  apply (handleSelectAll_toggles ["doc2"]%string ["doc1"; "doc2"]%string).
  - repeat constructor. intros [].
  - repeat constructor; simpl; intros H; [destruct H as [H | []]; discriminate H | exact H].
  - intros x [<- | []]. right. left. reflexivity.
Defined.

(** ** The client: the query history *)

(** After any number of answered queries the history holds the ten latest
    entries, the newest first. *)
Theorem pushHistory_latest {A : Type} (entries : list A) :
  fold_left (fun history entry => Client.pushHistory entry history) entries []
  = firstn 10 (rev entries).
Proof.
  assert (H : forall prev : list A,
             List.length prev <= 10 ->
             fold_left (fun history entry => Client.pushHistory entry history) entries prev
             = firstn 10 (rev entries ++ prev)).
  { induction entries as [|e entries IH]; intros prev Hlen.
    - cbn [fold_left rev app]. symmetry. apply firstn_all2. exact Hlen.
    - cbn [fold_left rev]. rewrite IH.
      + unfold Client.pushHistory, JsArray.slice0.
        rewrite <- app_assoc. cbn [app].
        rewrite !(firstn_app 10 (rev entries)).
        apply (f_equal (app (firstn 10 (rev entries)))).
        destruct (10 - List.length (rev entries)) as [|n] eqn:E; [reflexivity|].
        rewrite !firstn_cons. apply (f_equal (cons e)).
        rewrite firstn_firstn. f_equal. lia.
      + unfold Client.pushHistory, JsArray.slice0. cbn [List.length].
        rewrite length_firstn. lia. }
  rewrite (H [] ); [rewrite app_nil_r; reflexivity | simpl; lia].
Qed.
